(** * DataParser of js-digit-recognition: a shallow embedding and its properties

    The development follows [DataParser] (the data parsing class of the
    repository): the constants, the interfaces [IDigitMatrix],
    [IDigitDataSet] and [IImageData], and the static methods
    [coordinatesToIndex], [subImage], [buildDataSet], [getImageData],
    [getDataSet], [combineDataSets] and [printImage].

    JavaScript numbers.  Every number the parser computes is an integer or
    an integer divided by [IMAGE_SIZE = 16]; such values are exact in double
    precision (below 2^53), so integers are modelled by [Z] and the quotients
    [width / IMAGE_SIZE], [height / IMAGE_SIZE] and what is computed from
    them by [Q], with exact arithmetic.  A label is an integer of that range
    too: it is a [Z], and what is said of [getDataSet] is said of the labels
    that JavaScript holds exactly. *)

From Stdlib Require Import ZArith QArith Qround Qreduction String DecimalString Lia.
From Stdlib Require Import DecimalPos DecimalZ.
From Stdlib.Strings Require Import Byte.
From stdpp Require Import base option list gmap strings.

Open Scope Z_scope.

(** ** Constants *)

Definition IMAGE_PATH_FORMAT : string := "raw_data/usps_{DIGIT}.jpg".
Definition IMAGE_SIZE : Z := 16.
Definition RGB_THRESHOLD : Z := 60.
Definition PIXEL_THRESHOLD : Z := 30.
Definition DATA_SET_SIZE : Z := 1100.
Definition TRAINING_SET_SIZE : Z := 550.

(** ** Interfaces *)

Record IDigitMatrix := {
  digit : Z;
  matrix : list Z;
}.

(** Structure returned by jpeg-js' decode: [data] is a [Uint8Array]. *)
Record IImageData := {
  height : Z;
  width : Z;
  data : list byte;
}.

(** ** JavaScript primitives used by the parser *)

(** [a < b] on numbers. *)
Definition Qltb (a b : Q) : bool :=
  (Qnum a * Z.pos (Qden b) <? Qnum b * Z.pos (Qden a))%Z.

(** [a[i]] on a [Uint8Array]: the element when [i] is an integer index inside
    the array, [undefined] (here [None]) for every other key: negative,
    fractional or past the end. *)
Definition Uint8Array_get (a : list byte) (i : Q) : option Z :=
  match Qred i with
  | Qmake n 1 => if (0 <=? n)%Z then (fun b => Z.of_N (Byte.to_N b)) <$> a !! Z.to_nat n else None
  | _ => None
  end.

(** [v > t] where [v] was read from a typed array: [undefined > t] is false. *)
Definition js_gt (v : option Z) (t : Z) : bool :=
  match v with
  | Some b => (t <? b)%Z
  | None => false
  end.

(** [a[i] = v] on an ordinary array: overwrites inside the array, extends it
    when [i] is the length.  (An index past the length would leave holes;
    they are filled with [0] here and never arise: [subImage] writes at
    [index], which is the length, see [subImage_pixel_spec].) *)
Definition array_set (a : list Z) (i : nat) (v : Z) : list Z :=
  if decide (i < length a)%nat then <[i := v]> a
  else a ++ replicate (i - length a) 0 ++ [v].

(** ** Loops

    [for (let i = 0; i < bound; i++) body] with a numeric [bound]: the test
    is the source's, the fuel is the number of integers [i >= 0] below
    [bound], which [for_loop_unfold] shows is exactly enough. *)

Definition iterations (bound : Q) : nat := Z.to_nat (Qceiling bound).

Fixpoint for_from {T : Type} (fuel : nat) (i : Z) (bound : Q)
    (body : Z -> T -> T) (s : T) : T :=
  match fuel with
  | O => s
  | S fuel' =>
      if Qltb (inject_Z i) bound
      then for_from fuel' (i + 1) bound body (body i s)
      else s
  end.

Definition for_loop {T : Type} (bound : Q) (body : Z -> T -> T) (s : T) : T :=
  for_from (iterations bound) 0 bound body s.

(** ** coordinatesToIndex *)

Definition coordinatesToIndex (x y columns : Q) : Q :=
  (y - 1 + x * columns * inject_Z IMAGE_SIZE)%Q.

(** ** subImage *)

Record SubImageState := {
  subImage_array : list Z;
  index : nat;
  whitePixelCount : Z;
}.

Definition subImage_pixel (startX startY : Z) (columns : Q) (imageData : list byte)
    (row column : Z) (st : SubImageState) : SubImageState :=
  let imageDataIndex :=
    coordinatesToIndex (inject_Z (row + startX)) (inject_Z (column + startY)) (columns - 1)%Q in
  let st := {| subImage_array := array_set (subImage_array st) (index st) 0;
               index := index st;
               whitePixelCount := whitePixelCount st |} in
  let st :=
    if js_gt (Uint8Array_get imageData (imageDataIndex * 4)%Q) RGB_THRESHOLD
    then {| subImage_array := array_set (subImage_array st) (index st) 1;
            index := index st;
            whitePixelCount := whitePixelCount st + 1 |}
    else st in
  {| subImage_array := subImage_array st;
     index := S (index st);
     whitePixelCount := whitePixelCount st |}.

Definition subImage_loops (startX startY size : Z) (columns : Q)
    (imageData : list byte) : SubImageState :=
  for_loop (inject_Z size)
    (fun row st =>
       for_loop (inject_Z size)
         (fun column st => subImage_pixel startX startY columns imageData row column st)
         st)
    {| subImage_array := []; index := 0%nat; whitePixelCount := 0 |}.

(** Returns [undefined] ([None]) when the cell has fewer white pixels than
    [PIXEL_THRESHOLD]. *)
Definition subImage (startX startY size : Z) (columns : Q)
    (imageData : list byte) : option (list Z) :=
  let st := subImage_loops startX startY size columns imageData in
  if (whitePixelCount st <? PIXEL_THRESHOLD)%Z then None
  else Some (subImage_array st).

(** ** Objects, the runtime state and the monad of the static methods

    The arrays of [IDigitMatrix] held by data sets are objects on the heap,
    shared by reference between the cache and every caller: [arrays] is that
    heap and an [IDigitDataSet] holds two references into it.  An
    [IDigitMatrix] and its [matrix] are never written after their
    construction and are kept as values.

    [dataCache] is the static field of [DataParser].  [decodeLog] is ghost
    state: the labels for which [getDataSet] entered the path that reads and
    decodes the JPEG file, in order.  [shuffles] counts the calls of the
    shuffler, so that successive shuffles are independent. *)

Record IDigitDataSet := {
  trainingSet : nat;
  testingSet : nat;
}.

Record Runtime := {
  arrays : list (list IDigitMatrix);
  dataCache : gmap Z IDigitDataSet;
  decodeLog : list Z;
  shuffles : nat;
}.

(** The array a reference points to. *)
Definition array_at (σ : Runtime) (ref : nat) : list IDigitMatrix :=
  default [] (arrays σ !! ref).

(** The runtime at the start of the process: [dataCache = []]. *)
Definition initial_runtime : Runtime :=
  {| arrays := []; dataCache := ∅; decodeLog := []; shuffles := 0 |}.

Inductive Error : Type :=
| CouldNotFindImage (imagePath : string)
| DecoderError
| CouldNotLoadImageData
| LessImagesThanExpected (found : Q).

Inductive Outcome (A : Type) : Type :=
| Returned (a : A) (σ : Runtime)
| Thrown (e : Error) (σ : Runtime).
Arguments Returned {A} a σ.
Arguments Thrown {A} e σ.

Definition M (A : Type) : Type := Runtime -> Outcome A.

#[global] Instance M_ret : MRet M := fun A a σ => Returned a σ.
#[global] Instance M_bind : MBind M := fun A B f m σ =>
  match m σ with
  | Returned a σ' => f a σ'
  | Thrown e σ' => Thrown e σ'
  end.

Definition throw {A : Type} (e : Error) : M A := fun σ => Thrown e σ.

(** An array literal or the result of [concat]: a new object on the heap. *)
Definition new_array (content : list IDigitMatrix) : M nat := fun σ =>
  Returned (length (arrays σ))
    {| arrays := arrays σ ++ [content]; dataCache := dataCache σ;
       decodeLog := decodeLog σ; shuffles := shuffles σ |}.

(** [a.concat(b)]: a new array, [a] and [b] are only read. *)
Definition concat (a b : nat) : M nat := fun σ =>
  new_array (array_at σ a ++ array_at σ b) σ.

Definition cache_lookup (digit : Z) : M (option IDigitDataSet) := fun σ =>
  Returned (dataCache σ !! digit) σ.

Definition cache_store (digit : Z) (dataSet : IDigitDataSet) : M unit := fun σ =>
  Returned tt
    {| arrays := arrays σ; dataCache := <[digit := dataSet]> (dataCache σ);
       decodeLog := decodeLog σ; shuffles := shuffles σ |}.

Definition log_decode (digit : Z) : M unit := fun σ =>
  Returned tt
    {| arrays := arrays σ; dataCache := dataCache σ;
       decodeLog := decodeLog σ ++ [digit]; shuffles := shuffles σ |}.

(** ** The world outside the parser: the file system, jpeg-js, knuth-shuffle *)

Inductive Decoded : Type :=
| decode_throws
| decode_value (imageData : option IImageData).

Record World := {
  (** [fs.readFileSync]: [None] when the read throws. *)
  readFileSync : string -> option (list byte);
  (** [jpeg.decode(jpegData, true)]. *)
  jpeg_decode : list byte -> Decoded;
  (** [knuthShuffle], at its n-th call: some permutation of the array. *)
  knuthShuffle : nat -> list IDigitMatrix -> list IDigitMatrix;
}.

(** [knuthShuffle(array)] permutes the array in place and returns it. *)
Definition shuffle (w : World) (ref : nat) : M nat := fun σ =>
  Returned ref
    {| arrays := <[ref := knuthShuffle w (shuffles σ) (array_at σ ref)]> (arrays σ);
       dataCache := dataCache σ; decodeLog := decodeLog σ;
       shuffles := S (shuffles σ) |}.

(** ** buildDataSet *)

Record BuildState := {
  trainingMatrices : list IDigitMatrix;
  testingMatrices : list IDigitMatrix;
  matrixCounter : Z;
}.

(** The body of the inner loop, for one cell of the grid. *)
Definition buildDataSet_cell (digit : Z) (imageData : IImageData) (columns : Q)
    (rowsIterator columnsIterator : Z) (st : BuildState) : BuildState :=
  let matrixCounter := matrixCounter st + 1 in
  match subImage (rowsIterator * IMAGE_SIZE) (columnsIterator * IMAGE_SIZE)
          IMAGE_SIZE columns (data imageData) with
  | None =>
      {| trainingMatrices := trainingMatrices st;
         testingMatrices := testingMatrices st;
         matrixCounter := matrixCounter |}
  | Some image =>
      let digitMatrix := {| digit := digit; matrix := image |} in
      if (matrixCounter <? TRAINING_SET_SIZE)%Z
      then {| trainingMatrices := trainingMatrices st ++ [digitMatrix];
              testingMatrices := testingMatrices st;
              matrixCounter := matrixCounter |}
      else {| trainingMatrices := trainingMatrices st;
              testingMatrices := testingMatrices st ++ [digitMatrix];
              matrixCounter := matrixCounter |}
  end.

Definition buildDataSet_loops (digit : Z) (imageData : IImageData)
    (rows columns : Q) : BuildState :=
  for_loop columns
    (fun columnsIterator st =>
       for_loop rows
         (fun rowsIterator st =>
            buildDataSet_cell digit imageData columns rowsIterator columnsIterator st)
         st)
    {| trainingMatrices := []; testingMatrices := []; matrixCounter := 0 |}.

Definition image_rows (imageData : IImageData) : Q :=
  (inject_Z (width imageData) / inject_Z IMAGE_SIZE)%Q.
Definition image_columns (imageData : IImageData) : Q :=
  (inject_Z (height imageData) / inject_Z IMAGE_SIZE)%Q.

(** The two arrays are local to the call until it returns; they are built
    as values by the loops and become heap objects, in the order of their
    declarations, when the data set is returned. *)
Definition buildDataSet (digit : Z) (imageData : IImageData) : M IDigitDataSet :=
  let rows := image_rows imageData in
  let columns := image_columns imageData in
  if Qltb (rows * columns) (inject_Z DATA_SET_SIZE)
  then throw (LessImagesThanExpected (rows * columns))
  else
    let st := buildDataSet_loops digit imageData rows columns in
    trainingRef ← new_array (trainingMatrices st);
    testingRef ← new_array (testingMatrices st);
    mret {| trainingSet := trainingRef; testingSet := testingRef |}.

(** ** getImageData and getDataSet *)

Definition getImageData (w : World) (imagePath : string) : M (option IImageData) :=
  match readFileSync w imagePath with
  | None => throw (CouldNotFindImage imagePath)
  | Some jpegData =>
      match jpeg_decode w jpegData with
      | decode_throws => throw DecoderError
      | decode_value imageData => mret imageData
      end
  end.

(** [digit.toString()], for the labels the model is about: the integers
    JavaScript holds exactly, up to [Number.MAX_SAFE_INTEGER] = 2^53 - 1 in
    absolute value, which print as their decimal numeral with a minus sign
    when negative.  Larger numbers are rounded to double precision and print
    rounded, in exponent notation from 10^21; they are not modelled. *)
Definition toString (n : Z) : string := NilZero.string_of_int (Z.to_int n).

Fixpoint string_drop (n : nat) (s : string) : string :=
  match n, s with
  | O, _ => s
  | S n', String _ s' => string_drop n' s'
  | S _, EmptyString => EmptyString
  end.

(** [s.replace(new RegExp(pattern), replacement)] for a pattern of literal
    characters: the first occurrence is replaced. *)
Fixpoint replace (pattern replacement s : string) : string :=
  if String.prefix pattern s
  then replacement +:+ string_drop (String.length pattern) s
  else match s with
       | EmptyString => EmptyString
       | String c s' => String c (replace pattern replacement s')
       end.

(** A data set in the cache is an object, hence truthy: the test
    [if (this.dataCache[digit])] holds exactly when the label has an entry. *)
Definition getDataSet (w : World) (digit : Z) : M IDigitDataSet :=
  cached ← cache_lookup digit;
  match cached with
  | Some dataSet => mret dataSet
  | None =>
      _ ← log_decode digit;
      imageData ← getImageData w (replace "{DIGIT}" (toString digit) IMAGE_PATH_FORMAT);
      match imageData with
      | None => throw CouldNotLoadImageData
      | Some imageData =>
          dataSet ← buildDataSet digit imageData;
          _ ← cache_store digit dataSet;
          mret dataSet
      end
  end.

(** ** combineDataSets *)

Fixpoint combineDataSets_loop (dataSets : list IDigitDataSet)
    (allTrainingSets allTestingSets : nat) : M (nat * nat) :=
  match dataSets with
  | [] => mret (allTrainingSets, allTestingSets)
  | dataSet :: rest =>
      allTrainingSets ← concat allTrainingSets (trainingSet dataSet);
      allTestingSets ← concat allTestingSets (testingSet dataSet);
      combineDataSets_loop rest allTrainingSets allTestingSets
  end.

Definition combineDataSets (w : World) (dataSets : list IDigitDataSet)
    (randomise : bool) : M IDigitDataSet :=
  allTrainingSets ← new_array [];
  allTestingSets ← new_array [];
  '(allTrainingSets, allTestingSets) ←
    combineDataSets_loop dataSets allTrainingSets allTestingSets;
  '(allTrainingSets, allTestingSets) ←
    (if randomise
     then allTrainingSets ← shuffle w allTrainingSets;
          allTestingSets ← shuffle w allTestingSets;
          mret (allTrainingSets, allTestingSets)
     else mret (allTrainingSets, allTestingSets));
  mret {| trainingSet := allTrainingSets; testingSet := allTestingSets |}.

(** ** printImage

    The sink [outputFunction] is modelled by the list of the strings it
    received, in order. *)

(** [i % size === 0]: the remainder by zero is [NaN], equal to nothing. *)
Definition rem_is_zero (i size : Z) : bool :=
  if (size =? 0)%Z then false else (Z.rem i size =? 0)%Z.

Fixpoint printImage_loop (imageData : list Q) (i : Z) (size : Z) (threshold : Q)
    (symbol : string) (output : string) (sink : list string) : string * list string :=
  match imageData with
  | [] => (output, sink)
  | pixel :: rest =>
      let output := output +:+ (if Qltb threshold pixel then symbol else " ") in
      if rem_is_zero i size
      then printImage_loop rest (i + 1) size threshold symbol "" (sink ++ [output])
      else printImage_loop rest (i + 1) size threshold symbol output sink
  end.

Definition printImage (imageData : list Q) (size : Z) (threshold : Q)
    (symbol : string) : list string :=
  let '(output, sink) := printImage_loop imageData 0 size threshold symbol "" [] in
  sink ++ [output].

(** ** Definitions used to state the properties *)

(** The integers [0, 1, ..., n-1]. *)
Definition range (n : nat) : list Z := Z.of_nat <$> seq 0 n.

(** The value [subImage] writes for the pixel [(row, column)] of a cell. *)
Definition pixel_value (startX startY : Z) (columns : Q) (imageData : list byte)
    (row column : Z) : Z :=
  if js_gt (Uint8Array_get imageData
              (coordinatesToIndex (inject_Z (row + startX)) (inject_Z (column + startY))
                 (columns - 1) * 4)%Q) RGB_THRESHOLD
  then 1 else 0.

(** The pixels of a cell, local row after local row. *)
Definition binarised (startX startY size : Z) (columns : Q) (imageData : list byte) : list Z :=
  row ← range (iterations (inject_Z size));
  (pixel_value startX startY columns imageData row) <$> range (iterations (inject_Z size)).

(** The number of entries [1] of a matrix. *)
Definition white_pixels (m : list Z) : nat := count_occ Z.eq_dec m 1.

(** The cells [(rowsIterator, columnsIterator)] of the grid in the order
    [buildDataSet] visits them. *)
Definition cells (rows columns : Q) : list (Z * Z) :=
  columnsIterator ← range (iterations columns);
  (fun rowsIterator => (rowsIterator, columnsIterator)) <$> range (iterations rows).

Definition image_cells (imageData : IImageData) : list (Z * Z) :=
  cells (image_rows imageData) (image_columns imageData).

(** What [subImage] returns for a cell of an image. *)
Definition cell_image (imageData : IImageData) (cell : Z * Z) : option (list Z) :=
  subImage (cell.1 * IMAGE_SIZE) (cell.2 * IMAGE_SIZE) IMAGE_SIZE
    (image_columns imageData) (data imageData).

(** The [IDigitMatrix] of a cell, when the cell is accepted. *)
Definition cell_sample (digit : Z) (imageData : IImageData) (cell : Z * Z)
    : option IDigitMatrix :=
  (fun image => {| digit := digit; matrix := image |}) <$> cell_image imageData cell.

(** What the typed array holds for channel 0 of the pixel [(row, column)] of
    a cell, [undefined] ([None]) when the position is outside the buffer. *)
Definition channel0 (imageData : IImageData) (cell : Z * Z) (row column : Z) : option Z :=
  Uint8Array_get (data imageData)
    (coordinatesToIndex
       (inject_Z (row + cell.1 * IMAGE_SIZE)) (inject_Z (column + cell.2 * IMAGE_SIZE))
       (image_columns imageData - 1) * 4)%Q.

(** The path [getDataSet] reads for a label. *)
Definition image_path (digit : Z) : string :=
  replace "{DIGIT}" (toString digit) IMAGE_PATH_FORMAT.

(** [Number.MAX_SAFE_INTEGER]: up to it, in absolute value, the integers are
    JavaScript numbers and [toString] prints their decimal numeral. *)
Definition MAX_SAFE_INTEGER : Z := 2 ^ 53 - 1.

(** The runtime an outcome leaves, returned or thrown. *)
Definition outcome_runtime {A : Type} (o : Outcome A) : Runtime :=
  match o with
  | Returned _ σ => σ
  | Thrown _ σ => σ
  end.

(** A sequence of calls of [getDataSet], each in the world of its time; a
    call that throws leaves the runtime it reached and the next call goes on
    from there. *)
Definition getDataSet_calls (calls : list (World * Z)) (σ : Runtime) : Runtime :=
  fold_left (fun σ call => outcome_runtime (getDataSet call.1 call.2 σ)) calls σ.

(** The data sets of the cache point to arrays of the heap. *)
Definition cache_in_heap (σ : Runtime) : Prop :=
  forall digit dataSet,
    dataCache σ !! digit = Some dataSet ->
    (trainingSet dataSet < length (arrays σ))%nat
    /\ (testingSet dataSet < length (arrays σ))%nat.

(** The runtime once the decode path for a label has been entered. *)
Definition logged (digit : Z) (σ : Runtime) : Runtime :=
  {| arrays := arrays σ; dataCache := dataCache σ;
     decodeLog := decodeLog σ ++ [digit]; shuffles := shuffles σ |}.

(** [σ'] is [σ] with the arrays [new] added to the heap and nothing else
    changed. *)
Definition grows (σ : Runtime) (new : list (list IDigitMatrix)) (σ' : Runtime) : Prop :=
  arrays σ' = arrays σ ++ new
  /\ dataCache σ' = dataCache σ
  /\ decodeLog σ' = decodeLog σ
  /\ shuffles σ' = shuffles σ.

(** What [printImage] adds to the output for one element. *)
Definition glyph (threshold : Q) (symbol : string) (pixel : Q) : string :=
  if Qltb threshold pixel then symbol else " ".

(** The strings written to the sink, put end to end. *)
Definition joined (lines : list string) : string := foldr String.append "" lines.

(** ** Images and worlds used as examples

    A greyscale RGBA buffer: every pixel has its shade in the channels 0 to 2
    and 255 in the channel 3. *)
Definition greyscale (shade : Z -> byte) (pixelCount : Z) : list byte :=
  pixel ← range (Z.to_nat pixelCount);
  (fun channel => if (channel =? 3)%Z then "255"%byte else shade pixel) <$> range 4.

(** What a read of a [greyscale] buffer gives, without the buffer. *)
Definition greyscale_get (shade : Z -> byte) (pixelCount : Z) (i : Q) : option Z :=
  match Qred i with
  | Qmake k 1 =>
      if ((0 <=? k) && (k <? 4 * pixelCount))%Z
      then Some (Z.of_N (Byte.to_N (if (k mod 4 =? 3)%Z then "255"%byte else shade (k / 4))))
      else None
  | _ => None
  end.

(** Whether [subImage] finds the pixel [(x, y)] of a [greyscale] image white:
    the pixel index [y - 1 + x * (height - IMAGE_SIZE)] is inside the buffer
    and the shade there is above the threshold. *)
Definition greyscale_white (shade : Z -> byte) (pixelCount height_ x y : Z) : bool :=
  let pixel := y - 1 + x * (height_ - IMAGE_SIZE) in
  (0 <=? pixel) && (pixel <? pixelCount)
  && (RGB_THRESHOLD <? Z.of_N (Byte.to_N (shade pixel))).

(** What [subImage] returns for a cell of a [greyscale] image, computed on
    integers from the shades. *)
Definition greyscale_cell_image (shade : Z -> byte) (pixelCount height_ : Z)
    (cell : Z * Z) : option (list Z) :=
  let built :=
    row ← range 16;
    (fun column =>
       if greyscale_white shade pixelCount height_
            (row + cell.1 * IMAGE_SIZE) (column + cell.2 * IMAGE_SIZE)
       then 1 else 0) <$> range 16 in
  if (Z.of_nat (white_pixels built) <? PIXEL_THRESHOLD)%Z then None else Some built.

(** An image of 44 by 25 cells, all white. *)
Definition white_image : IImageData :=
  {| height := 400; width := 704; data := greyscale (fun _ => "255"%byte) 281600 |}.

(** The same image with the cell at position 3 (the third of the first
    column of the grid) darkened: of the 16 lines of pixels the cell reads,
    the first 15 are black. *)
Definition dark_shade (pixel : Z) : byte :=
  if (pixel + 1 <? 32 * 384)%Z then "255"%byte
  else if (47 * 384 <=? pixel + 1)%Z then "255"%byte
  else if ((pixel + 1) mod 384 <? 16)%Z then "000"%byte
  else "255"%byte.

Definition third_cell_dark_image : IImageData :=
  {| height := 400; width := 704; data := greyscale dark_shade 281600 |}.

(** An image of one cell: too few for a data set. *)
Definition one_cell_image : IImageData :=
  {| height := 16; width := 16; data := greyscale (fun _ => "255"%byte) 256 |}.

(** A world in which every path holds a JPEG file that decodes to the given
    image, and the shuffler leaves arrays as they are. *)
Definition world_with (imageData : IImageData) : World :=
  {| readFileSync := fun _ => Some [];
     jpeg_decode := fun _ => decode_value (Some imageData);
     knuthShuffle := fun _ l => l |}.

(** A world without files. *)
Definition world_without_files : World :=
  {| readFileSync := fun _ => None;
     jpeg_decode := fun _ => decode_throws;
     knuthShuffle := fun _ l => l |}.

(** Whether [subImage] returned an image. *)
Definition accepted (image : option (list Z)) : bool :=
  match image with
  | Some _ => true
  | None => false
  end.

(** The sample of the first cell of the white image: its pixel [(0, 0)] is
    read outside the buffer, the other 255 are white. *)
Definition first_white_sample : IDigitMatrix :=
  {| digit := 7; matrix := 0 :: replicate 255 1 |}.

(** A runtime with the arrays of two small data sets on the heap. *)
Definition two_data_sets_runtime : Runtime :=
  {| arrays :=
       [[{| digit := 1; matrix := [1; 0] |}];
        [{| digit := 1; matrix := [0; 1] |}; {| digit := 1; matrix := [1; 1] |}];
        [{| digit := 2; matrix := [0; 0] |}];
        []];
     dataCache := ∅; decodeLog := []; shuffles := 0 |}.

(** An image of 44 by 26 cells, all white: more cells than [DATA_SET_SIZE]. *)
Definition tall_white_image : IImageData :=
  {| height := 416; width := 704; data := greyscale (fun _ => "255"%byte) 292864 |}.

(** An image whose width is not a multiple of the cell size: 44 full cells
    and one pixel more on every line. *)
Definition ragged_image : IImageData :=
  {| height := 400; width := 705; data := greyscale (fun _ => "255"%byte) 282000 |}.

(** A buffer with the shade of a pixel in its channel 0 and 0 in the three
    other channels. *)
Definition channel_0_only (shade : Z -> byte) (pixelCount : Z) : list byte :=
  pixel ← range (Z.to_nat pixelCount);
  (fun channel => if (channel =? 0)%Z then shade pixel else "000"%byte) <$> range 4.

(** The white image with its channels 1 to 3 cleared: 44 by 25 cells. *)
Definition channel_0_white_image : IImageData :=
  {| height := 400; width := 704; data := channel_0_only (fun _ => "255"%byte) 281600 |}.

(** What the runs of [getDataSet] keep true of the cache: the data set of a
    label is made of two arrays of the heap, next to each other, the first at
    an even place; the label went through the decode path; the data sets of
    two labels are in different arrays; and the heap holds two arrays for each
    label of the cache. *)
Definition cache_of_builds (σ : Runtime) : Prop :=
  length (arrays σ) = (2 * size (dataCache σ))%nat
  /\ (forall digit dataSet,
        dataCache σ !! digit = Some dataSet ->
        Nat.Even (trainingSet dataSet)
        /\ testingSet dataSet = S (trainingSet dataSet)
        /\ (testingSet dataSet < length (arrays σ))%nat
        /\ digit ∈ decodeLog σ)
  /\ (forall digit1 digit2 dataSet1 dataSet2,
        dataCache σ !! digit1 = Some dataSet1 ->
        dataCache σ !! digit2 = Some dataSet2 ->
        digit1 <> digit2 ->
        trainingSet dataSet1 <> trainingSet dataSet2).

(** A world without files whose shuffler reverses the arrays. *)
Definition world_reversing : World :=
  {| readFileSync := fun _ => None;
     jpeg_decode := fun _ => decode_throws;
     knuthShuffle := fun _ l => reverse l |}.

(** The runtime of two small data sets, the first of them in the cache for
    the label 1. *)
Definition cached_runtime : Runtime :=
  {| arrays := arrays two_data_sets_runtime;
     dataCache := {[ 1 := {| trainingSet := 0; testingSet := 1 |} ]};
     decodeLog := [1]; shuffles := 0 |}.

(** An image of 44 by 25 cells, all black. *)
Definition black_image : IImageData :=
  {| height := 400; width := 704; data := greyscale (fun _ => "000"%byte) 281600 |}.

(** * Properties *)

(** ** Loops *)

Lemma Qltb_lt a b : Qltb a b = true <-> (a < b)%Q.
Proof. unfold Qltb, Qlt. apply Z.ltb_lt. Qed.

Lemma Qltb_ge a b : Qltb a b = false <-> (b <= a)%Q.
Proof. unfold Qltb, Qle. rewrite Z.ltb_ge. reflexivity. Qed.

(** The loop test holds exactly for the first [iterations bound] integers. *)
Lemma loop_test_iterations (bound : Q) (i : Z) :
  0 <= i -> Qltb (inject_Z i) bound = true <-> (i < Z.of_nat (iterations bound))%Z.
Proof.
  intros Hi. rewrite Qltb_lt. unfold iterations. split.
  - intros Hlt.
    assert (Hc : (inject_Z i < inject_Z (Qceiling bound))%Q).
    { eapply Qlt_le_trans; [exact Hlt | apply Qle_ceiling]. }
    rewrite <- Zlt_Qlt in Hc. lia.
  - intros Hlt.
    assert (Hle : (i <= Qceiling bound - 1)%Z) by lia.
    eapply Qle_lt_trans; [| apply Qceiling_lt].
    rewrite <- Zle_Qle. exact Hle.
Qed.

Lemma for_from_fold {T} (bound : Q) (body : Z -> T -> T) fuel k s :
  (k + fuel = iterations bound)%nat ->
  for_from fuel (Z.of_nat k) bound body s
  = fold_left (fun s i => body i s) (Z.of_nat <$> seq k fuel) s.
Proof.
  revert k s. induction fuel as [|fuel IH]; intros k s Hk; [done|].
  cbn [for_from seq fmap list_fmap fold_left].
  assert (Ht : Qltb (inject_Z (Z.of_nat k)) bound = true).
  { apply loop_test_iterations; lia. }
  rewrite Ht. replace (Z.of_nat k + 1) with (Z.of_nat (S k)) by lia.
  apply IH. lia.
Qed.

(** The loop runs its body on [0], [1], ... in turn, for every integer below
    the bound. *)
Lemma for_loop_unfold {T} (bound : Q) (body : Z -> T -> T) s :
  for_loop bound body s = fold_left (fun s i => body i s) (range (iterations bound)) s.
Proof. unfold for_loop, range. apply (for_from_fold bound body _ 0%nat). lia. Qed.

(** The fuel does not cut the loop short: the test fails where it stops. *)
Lemma for_loop_exit (bound : Q) :
  Qltb (inject_Z (Z.of_nat (iterations bound))) bound = false.
Proof.
  destruct (Qltb _ _) eqn:E; [|done].
  apply loop_test_iterations in E; lia.
Qed.
Lemma fold_left_pointwise {A B} (f g : A -> B -> A) l s :
  (forall s x, f s x = g s x) -> fold_left f l s = fold_left g l s.
Proof.
  intros Hfg. revert s. induction l as [|x l IH]; intros s; [done|].
  cbn. rewrite Hfg. apply IH.
Qed.

(** ** subImage *)

Lemma array_set_push (a : list Z) v : array_set a (length a) v = a ++ [v].
Proof.
  unfold array_set. destruct (decide _) as [H|_]; [lia|].
  by rewrite Nat.sub_diag.
Qed.

Lemma array_set_last (a : list Z) v v' : array_set (a ++ [v]) (length a) v' = a ++ [v'].
Proof.
  unfold array_set. rewrite length_app. cbn [length].
  destruct (decide _) as [_|H]; [|lia].
  replace (length a) with (length a + 0)%nat at 1 by lia.
  by rewrite insert_app_r.
Qed.

Lemma white_pixels_app m1 m2 : white_pixels (m1 ++ m2) = (white_pixels m1 + white_pixels m2)%nat.
Proof. apply count_occ_app. Qed.

Lemma white_pixels_cons v m : white_pixels (v :: m) = (white_pixels [v] + white_pixels m)%nat.
Proof. apply (white_pixels_app [v] m). Qed.

(** One pixel: the array grows by the pixel's value, written at [index]. *)
Lemma subImage_pixel_spec startX startY columns imageData row column st :
  index st = length (subImage_array st) ->
  subImage_pixel startX startY columns imageData row column st
  = {| subImage_array :=
         subImage_array st ++ [pixel_value startX startY columns imageData row column];
       index := S (index st);
       whitePixelCount :=
         whitePixelCount st
         + Z.of_nat (white_pixels [pixel_value startX startY columns imageData row column]) |}.
Proof.
  intros Hi. unfold subImage_pixel, pixel_value. cbn [subImage_array index whitePixelCount].
  rewrite Hi, array_set_push, array_set_last.
  destruct (js_gt _ _); cbn; f_equal; lia.
Qed.

Lemma subImage_row_spec startX startY columns imageData row (l : list Z) st :
  index st = length (subImage_array st) ->
  fold_left (fun st column => subImage_pixel startX startY columns imageData row column st) l st
  = {| subImage_array :=
         subImage_array st ++ (pixel_value startX startY columns imageData row <$> l);
       index := (index st + length l)%nat;
       whitePixelCount :=
         whitePixelCount st
         + Z.of_nat (white_pixels (pixel_value startX startY columns imageData row <$> l)) |}.
Proof.
  revert st. induction l as [|column l IH]; intros st Hi.
  - cbn. destruct st; cbn. f_equal; [by rewrite app_nil_r | lia | lia].
  - cbn [fold_left]. rewrite IH.
    + rewrite subImage_pixel_spec by done. cbn [subImage_array index whitePixelCount].
      rewrite fmap_cons, <- app_assoc. cbn [app length].
      rewrite (white_pixels_cons _ (_ <$> l)).
      f_equal; lia.
    + rewrite subImage_pixel_spec by done. cbn. rewrite length_app. cbn. lia.
Qed.

Lemma subImage_rows_spec startX startY columns imageData (cols rows : list Z) st :
  index st = length (subImage_array st) ->
  fold_left
    (fun st row =>
       fold_left (fun st column => subImage_pixel startX startY columns imageData row column st)
         cols st) rows st
  = {| subImage_array :=
         subImage_array st
         ++ (row ← rows; pixel_value startX startY columns imageData row <$> cols);
       index :=
         (index st
          + length (row ← rows; pixel_value startX startY columns imageData row <$> cols))%nat;
       whitePixelCount :=
         whitePixelCount st
         + Z.of_nat (white_pixels
                       (row ← rows; pixel_value startX startY columns imageData row <$> cols)) |}.
Proof.
  revert st. induction rows as [|row rows IH]; intros st Hi.
  - cbn. destruct st; cbn. f_equal; [by rewrite app_nil_r | lia | lia].
  - cbn [fold_left]. rewrite subImage_row_spec by done. rewrite IH.
    + cbn [subImage_array index whitePixelCount mbind list_bind].
      rewrite white_pixels_app, length_app, length_fmap, <- app_assoc. f_equal; lia.
    + cbn. rewrite length_app, length_fmap. lia.
Qed.

(** The loops of [subImage] build the binarised cell, count its length in
    [index] and its entries [1] in [whitePixelCount]. *)
Lemma subImage_loops_spec startX startY size columns imageData :
  subImage_loops startX startY size columns imageData
  = {| subImage_array := binarised startX startY size columns imageData;
       index := length (binarised startX startY size columns imageData);
       whitePixelCount :=
         Z.of_nat (white_pixels (binarised startX startY size columns imageData)) |}.
Proof.
  unfold subImage_loops. rewrite for_loop_unfold.
  rewrite (fold_left_pointwise _
             (fun st row =>
                fold_left
                  (fun st column => subImage_pixel startX startY columns imageData row column st)
                  (range (iterations (inject_Z size))) st)).
  - by rewrite subImage_rows_spec.
  - intros st row. apply for_loop_unfold.
Qed.
Lemma subImage_spec startX startY size columns imageData :
  subImage startX startY size columns imageData
  = if (Z.of_nat (white_pixels (binarised startX startY size columns imageData))
        <? PIXEL_THRESHOLD)%Z
    then None
    else Some (binarised startX startY size columns imageData).
Proof. unfold subImage. by rewrite subImage_loops_spec. Qed.

Lemma range_lookup n k : (k < n)%nat -> range n !! k = Some (Z.of_nat k).
Proof.
  intros Hk. unfold range. rewrite list_lookup_fmap, lookup_seq_lt by done. done.
Qed.

Lemma range_length n : length (range n) = n.
Proof. unfold range. by rewrite length_fmap, length_seq. Qed.

Lemma elem_of_range n z : z ∈ range n <-> (0 <= z < Z.of_nat n)%Z.
Proof.
  unfold range. rewrite list_elem_of_fmap. split.
  - intros (k & -> & Hk). apply elem_of_seq in Hk. lia.
  - intros Hz. exists (Z.to_nat z). split; [lia|]. apply elem_of_seq. lia.
Qed.

(** Entry [i * |cs| + j] of a grid listed line after line. *)
Lemma grid_lookup {A B C} (f : A -> B -> C) (rs : list A) (cs : list B) i j r c :
  rs !! i = Some r -> cs !! j = Some c ->
  (r ← rs; f r <$> cs) !! (i * length cs + j)%nat = Some (f r c).
Proof.
  revert i. induction rs as [|r0 rs IH]; intros i Hr Hc; [done|].
  cbn [mbind list_bind]. destruct i as [|i].
  - injection Hr as ->. cbn [Nat.mul Nat.add].
    rewrite lookup_app_l by (rewrite length_fmap; by eapply lookup_lt_Some).
    by rewrite list_lookup_fmap, Hc.
  - cbn in Hr. rewrite lookup_app_r by (rewrite length_fmap; lia).
    rewrite length_fmap.
    replace (S i * length cs + j - length cs)%nat with (i * length cs + j)%nat by lia.
    by apply IH.
Qed.

Lemma grid_length {A B C} (f : A -> B -> C) (rs : list A) (cs : list B) :
  length (r ← rs; f r <$> cs) = (length rs * length cs)%nat.
Proof.
  induction rs as [|r rs IH]; [done|].
  cbn [mbind list_bind]. rewrite length_app, length_fmap. cbn in IH |- *. by rewrite IH.
Qed.

Lemma iterations_inject_Z (n : Z) : iterations (inject_Z n) = Z.to_nat n.
Proof. unfold iterations. by rewrite Qceiling_Z. Qed.

Lemma binarised_length startX startY size columns imageData :
  length (binarised startX startY size columns imageData)
  = (Z.to_nat size * Z.to_nat size)%nat.
Proof. unfold binarised. by rewrite grid_length, range_length, iterations_inject_Z. Qed.

(** Row-major local order: the entry of pixel [(row, column)] is at
    [row * size + column]. *)
Lemma binarised_lookup startX startY size columns imageData row column :
  (0 <= row < size)%Z -> (0 <= column < size)%Z ->
  binarised startX startY size columns imageData !! Z.to_nat (row * size + column)
  = Some (pixel_value startX startY columns imageData row column).
Proof.
  intros Hr Hc. unfold binarised. rewrite iterations_inject_Z.
  replace (Z.to_nat (row * size + column))
    with (Z.to_nat row * length (range (Z.to_nat size)) + Z.to_nat column)%nat
    by (rewrite range_length; nia).
  erewrite grid_lookup; [| apply range_lookup; lia | apply range_lookup; lia].
  by rewrite !Z2Nat.id by lia.
Qed.

Lemma pixel_value_binary startX startY columns imageData row column :
  pixel_value startX startY columns imageData row column = 0
  \/ pixel_value startX startY columns imageData row column = 1.
Proof. unfold pixel_value. destruct (js_gt _ _); auto. Qed.

Lemma binarised_binary startX startY size columns imageData :
  Forall (fun v => v = 0 \/ v = 1) (binarised startX startY size columns imageData).
Proof.
  unfold binarised. apply Forall_forall. intros v Hv.
  apply list_elem_of_bind in Hv as (row & Hv & _).
  apply list_elem_of_fmap in Hv as (column & -> & _).
  apply pixel_value_binary.
Qed.
(** ** buildDataSet *)

Lemma fold_left_fmap {A B C} (f : A -> C -> A) (g : B -> C) l s :
  fold_left f (g <$> l) s = fold_left (fun s x => f s (g x)) l s.
Proof. revert s. induction l as [|x l IH]; intros s; [done|]. cbn. apply IH. Qed.

(** Two nested loops visit the grid line after line. *)
Lemma fold_left_grid {A B T} (body : A -> B -> T -> T) (rs : list A) (cs : list B) s :
  fold_left (fun s c => fold_left (fun s r => body r c s) rs s) cs s
  = fold_left (fun s cell => body cell.1 cell.2 s) (c ← cs; (fun r => (r, c)) <$> rs) s.
Proof.
  revert s. induction cs as [|c cs IH]; intros s; [done|].
  cbn [fold_left mbind list_bind]. rewrite fold_left_app, fold_left_fmap. cbn [fst snd].
  apply IH.
Qed.

Lemma buildDataSet_loops_cells digit imageData rows columns :
  buildDataSet_loops digit imageData rows columns
  = fold_left
      (fun st cell => buildDataSet_cell digit imageData columns cell.1 cell.2 st)
      (cells rows columns)
      {| trainingMatrices := []; testingMatrices := []; matrixCounter := 0 |}.
Proof.
  unfold buildDataSet_loops, cells. rewrite for_loop_unfold.
  rewrite <- (fold_left_grid (buildDataSet_cell digit imageData columns)).
  apply fold_left_pointwise. intros st columnsIterator. apply for_loop_unfold.
Qed.

(** One cell: the counter advances; the sample, if the cell is accepted,
    goes to the side its position selects. *)
Lemma buildDataSet_cell_spec digit imageData cell st :
  buildDataSet_cell digit imageData (image_columns imageData) cell.1 cell.2 st
  = {| trainingMatrices :=
         trainingMatrices st
         ++ (if (matrixCounter st + 1 <? TRAINING_SET_SIZE)%Z
             then option_list (cell_sample digit imageData cell) else []);
       testingMatrices :=
         testingMatrices st
         ++ (if (matrixCounter st + 1 <? TRAINING_SET_SIZE)%Z
             then [] else option_list (cell_sample digit imageData cell));
       matrixCounter := matrixCounter st + 1 |}.
Proof.
  unfold buildDataSet_cell, cell_sample, cell_image.
  destruct (subImage _ _ _ _ _) as [image|]; cbn [fmap option_fmap option_map option_list];
    destruct (_ <? _)%Z; by rewrite ?app_nil_r.
Qed.

(** From a state whose counter is [k], the cells at the next
    [TRAINING_SET_SIZE - 1 - k] positions go to the training set when they are
    accepted, the later ones to the testing set, and the counter advances by
    one for every cell, accepted or not. *)
Lemma buildDataSet_cells_spec digit imageData (l : list (Z * Z)) st :
  fold_left
    (fun st cell =>
       buildDataSet_cell digit imageData (image_columns imageData) cell.1 cell.2 st) l st
  = {| trainingMatrices :=
         trainingMatrices st
         ++ omap (cell_sample digit imageData)
              (take (Z.to_nat (TRAINING_SET_SIZE - 1 - matrixCounter st)) l);
       testingMatrices :=
         testingMatrices st
         ++ omap (cell_sample digit imageData)
              (drop (Z.to_nat (TRAINING_SET_SIZE - 1 - matrixCounter st)) l);
       matrixCounter := matrixCounter st + Z.of_nat (length l) |}.
Proof.
  revert st. induction l as [|cell l IH]; intros st.
  - cbn [fold_left length]. rewrite take_nil, drop_nil. cbn [omap list_omap].
    rewrite !app_nil_r, Z.add_0_r. by destruct st.
  - cbn [fold_left]. rewrite IH, buildDataSet_cell_spec. clear IH.
    cbn [trainingMatrices testingMatrices matrixCounter length].
    rewrite <- !app_assoc.
    destruct (Z.ltb_spec (matrixCounter st + 1) TRAINING_SET_SIZE) as [Hlt|Hge].
    + replace (Z.to_nat (TRAINING_SET_SIZE - 1 - matrixCounter st))
        with (S (Z.to_nat (TRAINING_SET_SIZE - 1 - (matrixCounter st + 1)))) by lia.
      cbn [take drop omap list_omap app].
      destruct (cell_sample digit imageData cell); cbn [option_list app]; f_equal; lia.
    + replace (Z.to_nat (TRAINING_SET_SIZE - 1 - (matrixCounter st + 1))) with 0%nat by lia.
      replace (Z.to_nat (TRAINING_SET_SIZE - 1 - matrixCounter st)) with 0%nat by lia.
      cbn [take drop omap list_omap app].
      destruct (cell_sample digit imageData cell); cbn [option_list app]; f_equal; lia.
Qed.

(** The state the loops of [buildDataSet] end in. *)
Lemma buildDataSet_loops_spec digit imageData :
  buildDataSet_loops digit imageData (image_rows imageData) (image_columns imageData)
  = {| trainingMatrices :=
         omap (cell_sample digit imageData)
           (take (Z.to_nat (TRAINING_SET_SIZE - 1)) (image_cells imageData));
       testingMatrices :=
         omap (cell_sample digit imageData)
           (drop (Z.to_nat (TRAINING_SET_SIZE - 1)) (image_cells imageData));
       matrixCounter := Z.of_nat (length (image_cells imageData)) |}.
Proof.
  rewrite buildDataSet_loops_cells, buildDataSet_cells_spec.
  cbn [trainingMatrices testingMatrices matrixCounter app].
  by rewrite Z.sub_0_r, Z.add_0_l.
Qed.
(** *** The grid of an image *)

Lemma iterations_image_rows imageData :
  iterations (image_rows imageData) = Z.to_nat (- (- width imageData / IMAGE_SIZE)).
Proof.
  unfold iterations, image_rows, Qceiling, Qfloor, IMAGE_SIZE. cbn.
  by rewrite Z.mul_1_r.
Qed.

Lemma iterations_image_columns imageData :
  iterations (image_columns imageData) = Z.to_nat (- (- height imageData / IMAGE_SIZE)).
Proof.
  unfold iterations, image_columns, Qceiling, Qfloor, IMAGE_SIZE. cbn.
  by rewrite Z.mul_1_r.
Qed.

Lemma cells_length rows columns :
  length (cells rows columns) = (iterations columns * iterations rows)%nat.
Proof. unfold cells. by rewrite grid_length, !range_length. Qed.

(** The test [DATA_SET_SIZE > rows * columns], on the dimensions. *)
Lemma too_few_cells_test imageData :
  Qltb (image_rows imageData * image_columns imageData) (inject_Z DATA_SET_SIZE)
  = (width imageData * height imageData <? DATA_SET_SIZE * (IMAGE_SIZE * IMAGE_SIZE))%Z.
Proof.
  unfold Qltb, image_rows, image_columns, DATA_SET_SIZE, IMAGE_SIZE. cbn.
  change (Z.pos (1 * 16 * (1 * 16))) with 256.
  destruct (Z.ltb_spec (width imageData * 1 * (height imageData * 1) * 1) (1100 * 256)),
    (Z.ltb_spec (width imageData * height imageData) (1100 * (16 * 16))); try done; lia.
Qed.

Lemma buildDataSet_throws digit imageData σ :
  Qltb (image_rows imageData * image_columns imageData) (inject_Z DATA_SET_SIZE) = true ->
  buildDataSet digit imageData σ
  = Thrown (LessImagesThanExpected (image_rows imageData * image_columns imageData)) σ.
Proof. intros H. unfold buildDataSet. by rewrite H. Qed.

Lemma buildDataSet_returns digit imageData σ :
  Qltb (image_rows imageData * image_columns imageData) (inject_Z DATA_SET_SIZE) = false ->
  buildDataSet digit imageData σ
  = Returned {| trainingSet := length (arrays σ); testingSet := S (length (arrays σ)) |}
      {| arrays :=
           arrays σ
           ++ [omap (cell_sample digit imageData)
                 (take (Z.to_nat (TRAINING_SET_SIZE - 1)) (image_cells imageData));
               omap (cell_sample digit imageData)
                 (drop (Z.to_nat (TRAINING_SET_SIZE - 1)) (image_cells imageData))];
         dataCache := dataCache σ;
         decodeLog := decodeLog σ;
         shuffles := shuffles σ |}.
Proof.
  intros H. unfold buildDataSet. rewrite H, buildDataSet_loops_spec.
  unfold mbind, M_bind, mret, M_ret, new_array.
  cbn [arrays dataCache decodeLog shuffles trainingMatrices testingMatrices].
  rewrite length_app, <- app_assoc. cbn [length app]. do 2 f_equal. lia.
Qed.

Lemma array_at_new l tr te dc dl sh :
  array_at {| arrays := l ++ [tr; te]; dataCache := dc; decodeLog := dl; shuffles := sh |}
    (length l) = tr
  /\ array_at {| arrays := l ++ [tr; te]; dataCache := dc; decodeLog := dl; shuffles := sh |}
       (S (length l)) = te.
Proof.
  unfold array_at. cbn [arrays]. split.
  - by rewrite lookup_app_r, Nat.sub_diag by lia.
  - rewrite lookup_app_r by lia. by replace (S (length l) - length l)%nat with 1%nat by lia.
Qed.

(** A reference that is allocated keeps its array when arrays are added. *)
Lemma array_at_old σ σ' ref l :
  arrays σ' = arrays σ ++ l -> (ref < length (arrays σ))%nat ->
  array_at σ' ref = array_at σ ref.
Proof. intros H Href. unfold array_at. by rewrite H, lookup_app_l. Qed.

Lemma omap_length_all {A B} (f : A -> option B) (l : list A) :
  (forall x, x ∈ l -> is_Some (f x)) -> length (omap f l) = length l.
Proof.
  induction l as [|x l IH]; intros H; [done|].
  cbn. destruct (H x) as [y ->]; [left|]. cbn. f_equal. apply IH.
  intros z Hz. apply H. by right.
Qed.

Lemma omap_length_one_rejected {A B} (f : A -> option B) (l : list A) k :
  (k < length l)%nat ->
  (forall i x, l !! i = Some x -> is_Some (f x) <-> i <> k) ->
  length (omap f l) = (length l - 1)%nat.
Proof.
  revert k. induction l as [|x l IH]; intros k Hk H; [cbn in Hk; lia|].
  cbn [omap list_omap length]. destruct k as [|k].
  - destruct (f x) as [y|] eqn:E.
    + assert (Hs : is_Some (f x)) by (by rewrite E). apply (H 0%nat x) in Hs; done.
    + rewrite omap_length_all; [lia|].
      intros z Hz. apply list_elem_of_lookup in Hz as [i Hi].
      apply (H (S i) z); [done | lia].
  - destruct (f x) as [y|] eqn:E.
    + cbn [length]. rewrite (IH k).
      * cbn in Hk. lia.
      * cbn in Hk. lia.
      * intros i z Hi. rewrite (H (S i) z Hi). lia.
    + assert (Hs : is_Some (f x)) by (apply (H 0%nat x); [done | lia]).
      rewrite E in Hs. by destruct Hs.
Qed.

(** When every cell of a list is accepted, the samples are those of the
    cells, one for one and in order. *)
Lemma omap_all_accepted {A B} (f : A -> option B) (l : list A) :
  (forall x, x ∈ l -> is_Some (f x)) ->
  Forall2 (fun x y => f x = Some y) l (omap f l).
Proof.
  induction l as [|x l IH]; intros H; [constructor|].
  cbn. destruct (H x) as [y Hy]; [left|]. rewrite Hy. constructor; [done|].
  apply IH. intros z Hz. apply H. by right.
Qed.
(** For an image whose sides are multiples of [IMAGE_SIZE], [rows * columns]
    is the number of cells of the grid. *)
Lemma whole_grid_cells imageData :
  (IMAGE_SIZE | width imageData) -> (IMAGE_SIZE | height imageData) ->
  length (image_cells imageData) <> 0%nat ->
  width imageData * height imageData
  = Z.of_nat (length (image_cells imageData)) * (IMAGE_SIZE * IMAGE_SIZE).
Proof.
  intros [r Hr] [c Hc]. unfold image_cells.
  rewrite cells_length, iterations_image_rows, iterations_image_columns, Hr, Hc.
  unfold IMAGE_SIZE.
  replace (- (- (r * 16) / 16)) with r
    by (rewrite <- Z.mul_opp_l, Z.div_mul by lia; lia).
  replace (- (- (c * 16) / 16)) with c
    by (rewrite <- Z.mul_opp_l, Z.div_mul by lia; lia).
  intros Hn. nia.
Qed.

Lemma whole_grid_enough imageData :
  (IMAGE_SIZE | width imageData) -> (IMAGE_SIZE | height imageData) ->
  length (image_cells imageData) = Z.to_nat DATA_SET_SIZE ->
  Qltb (image_rows imageData * image_columns imageData) (inject_Z DATA_SET_SIZE) = false.
Proof.
  intros Hw Hh Hn. rewrite too_few_cells_test. apply Z.ltb_ge.
  rewrite (whole_grid_cells imageData Hw Hh), Hn; unfold DATA_SET_SIZE, IMAGE_SIZE in *; lia.
Qed.

(** C1. For every label and every image whose sides are multiples of the
    cell size, whose grid has exactly 1100 cells and whose cells are all
    accepted by [subImage], [buildDataSet] returns a data set whose training
    set has exactly 549 elements, the samples of the cells at positions 1 to
    549 in order, and whose testing set has exactly 551 elements, the samples
    of the cells at positions 550 to 1100. *)
Theorem buildDataSet_all_accepted_split (label : Z) (image : IImageData) (σ : Runtime) :
  (IMAGE_SIZE | width image) -> (IMAGE_SIZE | height image) ->
  length (image_cells image) = 1100%nat ->
  (forall cell, cell ∈ image_cells image -> is_Some (cell_image image cell)) ->
  exists dataSet σ',
    buildDataSet label image σ = Returned dataSet σ'
    /\ length (array_at σ' (trainingSet dataSet)) = 549%nat
    /\ length (array_at σ' (testingSet dataSet)) = 551%nat
    /\ Forall2 (fun cell m => cell_sample label image cell = Some m)
         (take 549 (image_cells image)) (array_at σ' (trainingSet dataSet))
    /\ Forall2 (fun cell m => cell_sample label image cell = Some m)
         (drop 549 (image_cells image)) (array_at σ' (testingSet dataSet)).
Proof.
  intros Hw Hh Hn Hall.
  eexists _, _. split; [apply buildDataSet_returns, whole_grid_enough; done|].
  cbn [trainingSet testingSet].
  destruct (array_at_new (arrays σ)
              (omap (cell_sample label image)
                 (take (Z.to_nat (TRAINING_SET_SIZE - 1)) (image_cells image)))
              (omap (cell_sample label image)
                 (drop (Z.to_nat (TRAINING_SET_SIZE - 1)) (image_cells image)))
              (dataCache σ) (decodeLog σ) (shuffles σ)) as [-> ->].
  change (Z.to_nat (TRAINING_SET_SIZE - 1)) with 549%nat.
  assert (Hsample : forall cell, cell ∈ image_cells image ->
                                 is_Some (cell_sample label image cell)).
  { intros cell Hcell. unfold cell_sample. destruct (Hall cell Hcell) as [m ->]. by eexists. }
  assert (Htake : forall cell, cell ∈ take 549 (image_cells image) ->
                               is_Some (cell_sample label image cell)).
  { intros cell Hcell. apply Hsample. by eapply subseteq_take. }
  assert (Hdrop : forall cell, cell ∈ drop 549 (image_cells image) ->
                               is_Some (cell_sample label image cell)).
  { intros cell Hcell. apply Hsample. by eapply subseteq_drop. }
  rewrite !omap_length_all, length_take, length_drop, Hn by done.
  repeat split; try lia; by apply omap_all_accepted.
Qed.
Lemma cell_sample_Some label image cell m :
  cell_sample label image cell = Some m <->
  digit m = label /\ cell_image image cell = Some (matrix m).
Proof.
  unfold cell_sample. destruct (cell_image image cell) as [im|]; cbn; split.
  - intros [= <-]. done.
  - intros [<- [= ->]]. by destruct m.
  - done.
  - by intros [_ ?].
Qed.

(** C2. In every build the position counter advances by exactly one for each
    cell the loops visit, whether the cell is accepted or not, and a rejected
    cell is appended to neither set; so for an image of 1100 cells in which
    only the cell at position 3 is rejected, the training set has 548
    elements, the testing set 551, and 1099 samples are accepted in all. *)
Theorem buildDataSet_position_counter (label : Z) (image : IImageData) :
  (forall cell st,
      matrixCounter (buildDataSet_cell label image (image_columns image) cell.1 cell.2 st)
      = matrixCounter st + 1)
  /\ (forall cell st,
        cell_image image cell = None ->
        trainingMatrices (buildDataSet_cell label image (image_columns image) cell.1 cell.2 st)
        = trainingMatrices st
        /\ testingMatrices (buildDataSet_cell label image (image_columns image) cell.1 cell.2 st)
           = testingMatrices st)
  /\ matrixCounter (buildDataSet_loops label image (image_rows image) (image_columns image))
     = Z.of_nat (length (image_cells image))
  /\ (forall σ,
        (IMAGE_SIZE | width image) -> (IMAGE_SIZE | height image) ->
        length (image_cells image) = 1100%nat ->
        (forall k cell, image_cells image !! k = Some cell ->
                        is_Some (cell_image image cell) <-> k <> 2%nat) ->
        exists dataSet σ',
          buildDataSet label image σ = Returned dataSet σ'
          /\ length (array_at σ' (trainingSet dataSet)) = 548%nat
          /\ length (array_at σ' (testingSet dataSet)) = 551%nat
          /\ (length (array_at σ' (trainingSet dataSet))
              + length (array_at σ' (testingSet dataSet)) = 1099)%nat).
Proof.
  split; [|split; [|split]].
  - intros cell st. by rewrite buildDataSet_cell_spec.
  - intros cell st Hrej. rewrite buildDataSet_cell_spec. unfold cell_sample. rewrite Hrej.
    cbn. destruct (_ <? _)%Z; by rewrite !app_nil_r.
  - by rewrite buildDataSet_loops_spec.
  - intros σ Hw Hh Hn Honly.
    eexists _, _. split; [apply buildDataSet_returns, whole_grid_enough; done|].
    cbn [trainingSet testingSet].
    destruct (array_at_new (arrays σ)
                (omap (cell_sample label image)
                   (take (Z.to_nat (TRAINING_SET_SIZE - 1)) (image_cells image)))
                (omap (cell_sample label image)
                   (drop (Z.to_nat (TRAINING_SET_SIZE - 1)) (image_cells image)))
                (dataCache σ) (decodeLog σ) (shuffles σ)) as [-> ->].
    change (Z.to_nat (TRAINING_SET_SIZE - 1)) with 549%nat.
    assert (Hsome : forall cell, is_Some (cell_sample label image cell)
                                 <-> is_Some (cell_image image cell)).
    { intros cell. unfold cell_sample. by rewrite fmap_is_Some. }
    rewrite (omap_length_one_rejected _ (take 549 (image_cells image)) 2).
    + rewrite omap_length_all.
      * rewrite length_take, length_drop, Hn. lia.
      * intros cell Hcell. apply list_elem_of_lookup in Hcell as [i Hi].
        rewrite lookup_drop in Hi. apply Hsome, (Honly _ _ Hi). lia.
    + rewrite length_take, Hn. lia.
    + intros i cell Hi. apply lookup_take_Some in Hi as [Hi _].
      rewrite Hsome. by apply Honly.
Qed.

(** C4. Every [IDigitMatrix] of a data set returned by [buildDataSet] carries
    the label, and its matrix is that of a cell of the grid: 256 entries in
    row-major local order (entry [row * 16 + column] for the pixel
    [(row, column)]), each 1 when the channel-0 sample of the pixel is
    strictly above [RGB_THRESHOLD = 60] and 0 otherwise, with at least
    [PIXEL_THRESHOLD = 30] entries equal to 1. *)
Theorem buildDataSet_matrices (label : Z) (image : IImageData) (σ σ' : Runtime)
    (dataSet : IDigitDataSet) (m : IDigitMatrix) :
  buildDataSet label image σ = Returned dataSet σ' ->
  m ∈ array_at σ' (trainingSet dataSet) ++ array_at σ' (testingSet dataSet) ->
  digit m = label
  /\ length (matrix m) = 256%nat
  /\ Forall (fun v => v = 0 \/ v = 1) (matrix m)
  /\ (exists cell,
        cell ∈ image_cells image
        /\ cell_image image cell = Some (matrix m)
        /\ forall row column,
             0 <= row < IMAGE_SIZE -> 0 <= column < IMAGE_SIZE ->
             matrix m !! Z.to_nat (row * IMAGE_SIZE + column)
             = Some (match channel0 image cell row column with
                     | Some sample => if (RGB_THRESHOLD <? sample)%Z then 1 else 0
                     | None => 0
                     end))
  /\ (Z.to_nat PIXEL_THRESHOLD <= white_pixels (matrix m))%nat.
Proof.
  intros Hbuild Hm.
  destruct (Qltb (image_rows image * image_columns image) (inject_Z DATA_SET_SIZE)) eqn:Htest.
  { by rewrite buildDataSet_throws in Hbuild. }
  rewrite buildDataSet_returns in Hbuild by done. injection Hbuild as <- <-.
  cbn [trainingSet testingSet] in Hm.
  destruct (array_at_new (arrays σ)
              (omap (cell_sample label image)
                 (take (Z.to_nat (TRAINING_SET_SIZE - 1)) (image_cells image)))
              (omap (cell_sample label image)
                 (drop (Z.to_nat (TRAINING_SET_SIZE - 1)) (image_cells image)))
              (dataCache σ) (decodeLog σ) (shuffles σ)) as [Htr Hte].
  rewrite Htr, Hte, <- omap_app, take_drop in Hm. clear Htr Hte.
  apply list_elem_of_omap in Hm as (cell & Hcell & Hsample).
  apply cell_sample_Some in Hsample as [Hlabel Himage].
  split; [done|].
  pose proof Himage as Hsub. unfold cell_image in Hsub. rewrite subImage_spec in Hsub.
  destruct (Z.ltb_spec
              (Z.of_nat (white_pixels
                 (binarised (cell.1 * IMAGE_SIZE) (cell.2 * IMAGE_SIZE) IMAGE_SIZE
                    (image_columns image) (data image)))) PIXEL_THRESHOLD)
    as [|Hwhite]; [done|].
  injection Hsub as Hsub. rewrite <- Hsub.
  split; [by rewrite binarised_length|].
  split; [apply binarised_binary|].
  split; [|lia].
  exists cell. split; [done|]. split; [by rewrite Himage, Hsub|].
  intros row column Hrow Hcolumn. rewrite binarised_lookup by done.
  unfold pixel_value, channel0, js_gt. by destruct (Uint8Array_get _ _).
Qed.

(** C5. [buildDataSet] throws exactly when [rows * columns < DATA_SET_SIZE]
    (with [rows = width / IMAGE_SIZE] and [columns = height / IMAGE_SIZE]);
    the error is then the one about too few images, it is decided by the
    dimensions alone, whatever the pixel buffer holds (no cell is read), and
    the runtime is left as it was: no array is created and no data set, not
    even a partial one, is returned. *)
Theorem buildDataSet_insufficient_cells (label : Z) (image : IImageData) (σ : Runtime) :
  ((exists e σ', buildDataSet label image σ = Thrown e σ')
   <-> (image_rows image * image_columns image < inject_Z DATA_SET_SIZE)%Q)
  /\ (forall e σ',
        buildDataSet label image σ = Thrown e σ' ->
        e = LessImagesThanExpected (image_rows image * image_columns image)
        /\ σ' = σ
        /\ forall pixels,
             buildDataSet label
               {| height := height image; width := width image; data := pixels |} σ
             = Thrown e σ).
Proof.
  destruct (Qltb (image_rows image * image_columns image) (inject_Z DATA_SET_SIZE)) eqn:Htest.
  - split.
    + split; [intros _; by apply Qltb_lt|].
      intros _. eexists _, _. by apply buildDataSet_throws.
    + intros e σ' Hthrown. rewrite buildDataSet_throws in Hthrown by done.
      injection Hthrown as <- <-. split; [done|]. split; [done|].
      intros pixels. by rewrite buildDataSet_throws.
  - split.
    + split.
      * intros (e & σ' & Hthrown). by rewrite buildDataSet_returns in Hthrown.
      * intros Hlt. apply Qltb_lt in Hlt. congruence.
    + intros e σ' Hthrown. by rewrite buildDataSet_returns in Hthrown.
Qed.
(** ** The positions [subImage] reads *)

Lemma Uint8Array_get_Qeq (a : list byte) (i j : Q) :
  (i == j)%Q -> Uint8Array_get a i = Uint8Array_get a j.
Proof. intros H. unfold Uint8Array_get. by rewrite (Qred_complete _ _ H). Qed.

Lemma Qred_inject_Z (n : Z) : Qred (inject_Z n) = inject_Z n.
Proof.
  unfold Qred, inject_Z. cbn [Qnum Qden].
  pose proof (Z.ggcd_correct_divisors n 1) as Hd.
  pose proof (Z.ggcd_gcd n 1) as Hg.
  destruct (Z.ggcd n 1) as [g [n' d']]. cbn in *.
  rewrite Z.gcd_1_r in Hg. subst g. destruct Hd as [Hn Hd].
  rewrite Z.mul_1_l in Hn, Hd. subst n' d'. done.
Qed.

(** At an integer position the typed array gives its element inside the
    bounds and [undefined] outside. *)
Lemma Uint8Array_get_integer (a : list byte) (n : Z) :
  Uint8Array_get a (inject_Z n)
  = if (0 <=? n)%Z then (fun b => Z.of_N (Byte.to_N b)) <$> a !! Z.to_nat n else None.
Proof. unfold Uint8Array_get. by rewrite Qred_inject_Z. Qed.

Lemma Uint8Array_get_outside (a : list byte) (n : Z) :
  n < 0 \/ Z.of_nat (length a) <= n -> Uint8Array_get a (inject_Z n) = None.
Proof.
  intros Hn. rewrite Uint8Array_get_integer.
  destruct (Z.leb_spec 0 n); [|done].
  rewrite lookup_ge_None_2; [done | lia].
Qed.

(** The byte offset of a pixel is an integer: the product by
    [(columns - 1) * IMAGE_SIZE] is a product by [height - IMAGE_SIZE]. *)
Lemma byte_offset_integer (height_ x y : Z) :
  (coordinatesToIndex (inject_Z x) (inject_Z y)
     (inject_Z height_ / inject_Z IMAGE_SIZE - 1) * 4
   == inject_Z (4 * (y - 1 + x * (height_ - IMAGE_SIZE))))%Q.
Proof.
  unfold coordinatesToIndex, IMAGE_SIZE, Qeq, Qdiv, Qminus, Qplus, Qmult, Qinv, Qopp, inject_Z.
  cbn. lia.
Qed.
Lemma cells_lookup rows columns (ri ci : nat) :
  (ri < iterations rows)%nat -> (ci < iterations columns)%nat ->
  cells rows columns !! (ci * iterations rows + ri)%nat = Some (Z.of_nat ri, Z.of_nat ci).
Proof.
  intros Hri Hci. unfold cells.
  rewrite <- (range_length (iterations rows)) at 1.
  apply (grid_lookup (fun c r => (r, c))); by apply range_lookup.
Qed.

Lemma elem_of_cells rows columns cell :
  cell ∈ cells rows columns
  <-> (0 <= cell.1 < Z.of_nat (iterations rows))
      /\ (0 <= cell.2 < Z.of_nat (iterations columns)).
Proof.
  unfold cells. rewrite list_elem_of_bind. split.
  - intros (ci & Hcell & Hci). apply list_elem_of_fmap in Hcell as (ri & -> & Hri).
    apply elem_of_range in Hci, Hri. done.
  - intros [Hri Hci]. exists cell.2. split; [|by apply elem_of_range].
    apply list_elem_of_fmap. exists cell.1. split; [by destruct cell | by apply elem_of_range].
Qed.

(** C6. For the cell [(rowsIterator, columnsIterator)] of the grid and the
    local pixel [(row, column)], the position read in the buffer is
    [byteOffset], computed as
    [globalX = row + rowsIterator * S], [globalY = column + columnsIterator * S],
    [pixelIndex = (globalY - 1) + globalX * (columns - 1) * S],
    [byteOffset = pixelIndex * 4], with [S = 16] and [columns = height / S];
    only this byte, the channel 0 of the pixel, decides the entry.  Below,
    [reads ri ci m] says that [m] is a matrix of 256 entries whose entry
    [row * 16 + column] is the threshold test of the byte at the offset of the
    pixel [(row, column)] of the cell [(ri, ci)].

    - What [subImage] builds from the arguments [buildDataSet] gives it for
      the cell has, at [row * 16 + column], the test of the byte at
      [byteOffset], and [byteOffset] is the integer
      [4 * (globalY - 1 + globalX * (height - 16))].
    - The body of the loops of [buildDataSet], run for the cell
      [(rowsIterator, columnsIterator)], advances the counter and pushes, when
      at least [PIXEL_THRESHOLD] entries are 1, the matrix read at the
      offsets of that cell, to the side the counter selects.
    - The loops run the body with [columnsIterator] in the outer loop and
      [rowsIterator] in the inner one: the cell visited after
      [ci * rows + ri] others is [(ri, ci)].
    - The matrices of the data set [buildDataSet] returns are the matrices
      read at the offsets of the cells of the grid: each of them is read
      from one cell, and every cell whose matrix has at least
      [PIXEL_THRESHOLD] entries 1 gives its matrix. *)
Theorem subImage_byte_offset (image : IImageData) (rowsIterator columnsIterator : Z) :
  let cellSize := inject_Z IMAGE_SIZE in
  let columns := image_columns image in
  let byteOffset := fun ri ci row column : Z =>
    let globalX := (inject_Z row + inject_Z ri * cellSize)%Q in
    let globalY := (inject_Z column + inject_Z ci * cellSize)%Q in
    let pixelIndex := ((globalY - 1) + globalX * (columns - 1) * cellSize)%Q in
    (pixelIndex * 4)%Q in
  let reads := fun (ri ci : Z) (m : list Z) =>
    length m = 256%nat
    /\ forall row column,
         0 <= row < IMAGE_SIZE -> 0 <= column < IMAGE_SIZE ->
         m !! Z.to_nat (row * IMAGE_SIZE + column)
         = Some (if js_gt (Uint8Array_get (data image) (byteOffset ri ci row column))
                      RGB_THRESHOLD
                 then 1 else 0) in
  (forall row column,
      0 <= row < IMAGE_SIZE -> 0 <= column < IMAGE_SIZE ->
      subImage_array
        (subImage_loops (rowsIterator * IMAGE_SIZE) (columnsIterator * IMAGE_SIZE)
           IMAGE_SIZE columns (data image))
        !! Z.to_nat (row * IMAGE_SIZE + column)
      = Some (if js_gt (Uint8Array_get (data image)
                          (byteOffset rowsIterator columnsIterator row column))
                   RGB_THRESHOLD
              then 1 else 0)
      /\ (byteOffset rowsIterator columnsIterator row column
          == inject_Z (4 * ((column + columnsIterator * IMAGE_SIZE) - 1
                            + (row + rowsIterator * IMAGE_SIZE)
                              * (height image - IMAGE_SIZE))))%Q)
  /\ (forall label st,
        exists built,
          reads rowsIterator columnsIterator built
          /\ buildDataSet_cell label image columns rowsIterator columnsIterator st
             = if Z.of_nat (white_pixels built) <? PIXEL_THRESHOLD
               then {| trainingMatrices := trainingMatrices st;
                       testingMatrices := testingMatrices st;
                       matrixCounter := matrixCounter st + 1 |}
               else if matrixCounter st + 1 <? TRAINING_SET_SIZE
               then {| trainingMatrices :=
                         trainingMatrices st ++ [{| digit := label; matrix := built |}];
                       testingMatrices := testingMatrices st;
                       matrixCounter := matrixCounter st + 1 |}
               else {| trainingMatrices := trainingMatrices st;
                       testingMatrices :=
                         testingMatrices st ++ [{| digit := label; matrix := built |}];
                       matrixCounter := matrixCounter st + 1 |})
  /\ (forall label,
        buildDataSet_loops label image (image_rows image) (image_columns image)
        = fold_left
            (fun st cell =>
               buildDataSet_cell label image (image_columns image) cell.1 cell.2 st)
            (image_cells image)
            {| trainingMatrices := []; testingMatrices := []; matrixCounter := 0 |})
  /\ (forall ri ci : nat,
        (ri < iterations (image_rows image))%nat ->
        (ci < iterations (image_columns image))%nat ->
        image_cells image !! (ci * iterations (image_rows image) + ri)%nat
        = Some (Z.of_nat ri, Z.of_nat ci))
  /\ (forall label σ dataSet σ',
        buildDataSet label image σ = Returned dataSet σ' ->
        (forall sample,
            sample ∈ array_at σ' (trainingSet dataSet) ++ array_at σ' (testingSet dataSet) ->
            exists ri ci,
              0 <= ri < Z.of_nat (iterations (image_rows image))
              /\ 0 <= ci < Z.of_nat (iterations (image_columns image))
              /\ digit sample = label
              /\ reads ri ci (matrix sample))
        /\ (forall ri ci,
              0 <= ri < Z.of_nat (iterations (image_rows image)) ->
              0 <= ci < Z.of_nat (iterations (image_columns image)) ->
              exists built,
                reads ri ci built
                /\ (PIXEL_THRESHOLD <= Z.of_nat (white_pixels built) ->
                    {| digit := label; matrix := built |}
                    ∈ array_at σ' (trainingSet dataSet)
                      ++ array_at σ' (testingSet dataSet)))).
Proof.
  intros cellSize columns byteOffset reads.
  assert (Hoff : forall ri ci row column,
             (byteOffset ri ci row column
              == coordinatesToIndex (inject_Z (row + ri * IMAGE_SIZE))
                   (inject_Z (column + ci * IMAGE_SIZE)) (columns - 1) * 4)%Q).
  { intros ri ci row column. unfold byteOffset, cellSize, coordinatesToIndex.
    rewrite !inject_Z_plus, !inject_Z_mult. reflexivity. }
  assert (Hreads : forall ri ci,
             reads ri ci
               (binarised (ri * IMAGE_SIZE) (ci * IMAGE_SIZE) IMAGE_SIZE columns (data image))).
  { intros ri ci. split; [by rewrite binarised_length|].
    intros row column Hrow Hcolumn. rewrite binarised_lookup by done. unfold pixel_value.
    by rewrite (Uint8Array_get_Qeq _ _ _ (Hoff ri ci row column)). }
  assert (Hcell : forall label cell,
             cell_sample label image cell
             = if Z.of_nat (white_pixels
                              (binarised (cell.1 * IMAGE_SIZE) (cell.2 * IMAGE_SIZE) IMAGE_SIZE
                                 columns (data image))) <? PIXEL_THRESHOLD
               then None
               else Some {| digit := label;
                            matrix := binarised (cell.1 * IMAGE_SIZE) (cell.2 * IMAGE_SIZE)
                                        IMAGE_SIZE columns (data image) |}).
  { intros label cell. unfold cell_sample, cell_image. rewrite subImage_spec.
    fold columns. by destruct (_ <? _). }
  split_and!.
  - intros row column Hrow Hcolumn. split.
    + rewrite subImage_loops_spec. cbn [subImage_array].
      by apply (Hreads rowsIterator columnsIterator).
    + rewrite Hoff. apply byte_offset_integer.
  - intros label st.
    exists (binarised (rowsIterator * IMAGE_SIZE) (columnsIterator * IMAGE_SIZE) IMAGE_SIZE
              columns (data image)).
    split; [apply Hreads|].
    unfold buildDataSet_cell. rewrite subImage_spec. by destruct (_ <? PIXEL_THRESHOLD).
  - intros label. apply buildDataSet_loops_cells.
  - intros ri ci. apply cells_lookup.
  - intros label σ dataSet σ' Hbuild.
    destruct (Qltb (image_rows image * image_columns image) (inject_Z DATA_SET_SIZE)) eqn:Htest.
    { by rewrite buildDataSet_throws in Hbuild. }
    rewrite buildDataSet_returns in Hbuild by done. injection Hbuild as <- <-.
    cbn [trainingSet testingSet].
    match goal with
    | |- context [array_at ?s (length ?l)] =>
        pose proof (array_at_new l
                      (omap (cell_sample label image)
                         (take (Z.to_nat (TRAINING_SET_SIZE - 1)) (image_cells image)))
                      (omap (cell_sample label image)
                         (drop (Z.to_nat (TRAINING_SET_SIZE - 1)) (image_cells image)))
                      (dataCache σ) (decodeLog σ) (shuffles σ)) as [Htr Hte]
    end.
    rewrite Htr, Hte, <- omap_app, take_drop. clear Htr Hte.
    split.
    + intros sample Hsample.
      apply list_elem_of_omap in Hsample as (cell & Hin & Hsample).
      unfold image_cells in Hin. apply elem_of_cells in Hin as [Hri Hci].
      rewrite Hcell in Hsample.
      destruct (_ <? PIXEL_THRESHOLD); [done|]. injection Hsample as <-.
      exists cell.1, cell.2. split; [done|]. split; [done|]. split; [done|]. apply Hreads.
    + intros ri ci Hri Hci.
      exists (binarised (ri * IMAGE_SIZE) (ci * IMAGE_SIZE) IMAGE_SIZE columns (data image)).
      split; [apply Hreads|]. intros Hwhite.
      apply list_elem_of_omap. exists (ri, ci). split.
      * unfold image_cells. by apply elem_of_cells.
      * rewrite Hcell. cbn [fst snd].
        destruct (Z.ltb_spec
                    (Z.of_nat (white_pixels
                                 (binarised (ri * IMAGE_SIZE) (ci * IMAGE_SIZE) IMAGE_SIZE
                                    columns (data image)))) PIXEL_THRESHOLD); [lia|done].
Qed.

(** C10 as stated fails: on a buffer of black pixels [subImage] builds a
    matrix of zeros and returns [undefined], not a matrix. *)
Lemma subImage_black_cell_undefined :
  ~ exists m,
      subImage 0 0 IMAGE_SIZE 1 (repeat "000"%byte 1024) = Some m
      /\ Forall (fun v => v = 0 \/ v = 1) m.
Proof. intros (m & Hm & _). vm_compute in Hm. discriminate. Qed.

(** C10, amended.  The reads of [subImage] are total: the pixel [(0, 0)] of
    the cell at the origin is at pixel index [-1], byte offset [-4], outside
    the buffer; a read outside the buffer gives [undefined], which is not
    above the threshold, and the entry is 0.  So for every buffer and every
    cell position the loops end with a matrix of 256 entries, each 0 or 1,
    and [subImage] never throws: it returns that matrix when at least
    [PIXEL_THRESHOLD] entries are 1 and [undefined] otherwise. *)
Theorem subImage_total (startX startY : Z) (columns : Q) (imageData : list byte) :
  let built :=
    subImage_array (subImage_loops startX startY IMAGE_SIZE columns imageData) in
  (coordinatesToIndex (inject_Z (0 + 0 * IMAGE_SIZE)) (inject_Z (0 + 0 * IMAGE_SIZE))
     (columns - 1) == -1)%Q
  /\ (coordinatesToIndex (inject_Z (0 + 0 * IMAGE_SIZE)) (inject_Z (0 + 0 * IMAGE_SIZE))
        (columns - 1) * 4 == inject_Z (-4))%Q
  /\ subImage_array (subImage_loops (0 * IMAGE_SIZE) (0 * IMAGE_SIZE) IMAGE_SIZE columns imageData)
       !! 0%nat = Some 0
  /\ (forall n, n < 0 \/ Z.of_nat (length imageData) <= n ->
                Uint8Array_get imageData (inject_Z n) = None)
  /\ (forall row column,
        0 <= row < IMAGE_SIZE -> 0 <= column < IMAGE_SIZE ->
        Uint8Array_get imageData
          (coordinatesToIndex (inject_Z (row + startX)) (inject_Z (column + startY))
             (columns - 1) * 4)%Q = None ->
        built !! Z.to_nat (row * IMAGE_SIZE + column) = Some 0)
  /\ length built = 256%nat
  /\ Forall (fun v => v = 0 \/ v = 1) built
  /\ (subImage startX startY IMAGE_SIZE columns imageData = None
      /\ (white_pixels built < Z.to_nat PIXEL_THRESHOLD)%nat
      \/ subImage startX startY IMAGE_SIZE columns imageData = Some built
         /\ (Z.to_nat PIXEL_THRESHOLD <= white_pixels built)%nat).
Proof.
  intros built.
  assert (Horigin : (coordinatesToIndex (inject_Z (0 + 0 * IMAGE_SIZE))
                       (inject_Z (0 + 0 * IMAGE_SIZE)) (columns - 1) == -1)%Q).
  { unfold coordinatesToIndex.
    change (inject_Z (0 + 0 * IMAGE_SIZE)) with 0%Q.
    change (inject_Z IMAGE_SIZE) with 16%Q. ring. }
  split; [done|]. split; [by rewrite Horigin|]. split.
  { rewrite subImage_loops_spec. cbn [subImage_array].
    rewrite (binarised_lookup _ _ IMAGE_SIZE _ _ 0 0) by done.
    unfold pixel_value.
    rewrite (Uint8Array_get_Qeq _ _ (inject_Z (-4))) by (by rewrite Horigin).
    by rewrite Uint8Array_get_outside by lia. }
  split; [apply Uint8Array_get_outside|].
  unfold built. rewrite subImage_spec, subImage_loops_spec. cbn [subImage_array].
  split.
  { intros row column Hrow Hcolumn Hread. rewrite binarised_lookup by done.
    unfold pixel_value. by rewrite Hread. }
  split; [by rewrite binarised_length|].
  split; [apply binarised_binary|].
  destruct (Z.ltb_spec
              (Z.of_nat (white_pixels (binarised startX startY IMAGE_SIZE columns imageData)))
              PIXEL_THRESHOLD); [left | right]; (split; [done | lia]).
Qed.
(** ** getDataSet *)

Example image_path_7 : image_path 7 = "raw_data/usps_7.jpg".
Proof. reflexivity. Qed.

Lemma image_path_eq digit : image_path digit = ("raw_data/usps_" +:+ toString digit +:+ ".jpg")%string.
Proof. reflexivity. Qed.

Lemma getDataSet_hit w digit dataSet σ :
  dataCache σ !! digit = Some dataSet -> getDataSet w digit σ = Returned dataSet σ.
Proof.
  intros H. unfold getDataSet, mbind, M_bind, cache_lookup. by rewrite H.
Qed.

Lemma getDataSet_miss w digit σ :
  dataCache σ !! digit = None ->
  getDataSet w digit σ
  = match readFileSync w (image_path digit) with
    | None => Thrown (CouldNotFindImage (image_path digit)) (logged digit σ)
    | Some jpegData =>
        match jpeg_decode w jpegData with
        | decode_throws => Thrown DecoderError (logged digit σ)
        | decode_value None => Thrown CouldNotLoadImageData (logged digit σ)
        | decode_value (Some imageData) =>
            match buildDataSet digit imageData (logged digit σ) with
            | Returned dataSet σ' =>
                Returned dataSet
                  {| arrays := arrays σ';
                     dataCache := <[digit := dataSet]> (dataCache σ');
                     decodeLog := decodeLog σ'; shuffles := shuffles σ' |}
            | Thrown e σ' => Thrown e σ'
            end
        end
    end.
Proof.
  intros H.
  unfold getDataSet, mbind, M_bind, cache_lookup, log_decode, getImageData, throw, mret,
    M_ret, cache_store.
  rewrite H. fold (image_path digit). fold (logged digit σ).
  destruct (readFileSync w (image_path digit)) as [jpegData|]; [|done].
  by destruct (jpeg_decode w jpegData) as [|[imageData|]].
Qed.

(** What one call of [getDataSet] does to the runtime: arrays are only
    added, labels already in the cache keep their data set and are not
    decoded again, and the cache keeps pointing into the heap. *)
Lemma getDataSet_step w digit σ :
  exists new log,
    arrays (outcome_runtime (getDataSet w digit σ)) = arrays σ ++ new
    /\ decodeLog (outcome_runtime (getDataSet w digit σ)) = decodeLog σ ++ log
    /\ (forall d, is_Some (dataCache σ !! d) -> d ∉ log)
    /\ (forall d dataSet,
          dataCache σ !! d = Some dataSet ->
          dataCache (outcome_runtime (getDataSet w digit σ)) !! d = Some dataSet)
    /\ (cache_in_heap σ -> cache_in_heap (outcome_runtime (getDataSet w digit σ))).
Proof.
  destruct (dataCache σ !! digit) as [cached|] eqn:Hcache.
  { rewrite (getDataSet_hit _ _ _ _ Hcache). exists [], []. cbn.
    rewrite !app_nil_r. split_and!; try done. intros d _. apply not_elem_of_nil. }
  assert (Hlog : forall d, is_Some (dataCache σ !! d) -> d ∉ [digit]).
  { intros d [ds Hd] Hin. apply list_elem_of_singleton in Hin. congruence. }
  assert (Hthrown :
    exists new log,
      arrays (logged digit σ) = arrays σ ++ new
      /\ decodeLog (logged digit σ) = decodeLog σ ++ log
      /\ (forall d, is_Some (dataCache σ !! d) -> d ∉ log)
      /\ (forall d dataSet,
            dataCache σ !! d = Some dataSet ->
            dataCache (logged digit σ) !! d = Some dataSet)
      /\ (cache_in_heap σ -> cache_in_heap (logged digit σ))).
  { exists [], [digit]. cbn. rewrite app_nil_r. split_and!; done. }
  rewrite (getDataSet_miss _ _ _ Hcache).
  destruct (readFileSync w (image_path digit)) as [jpegData|]; [|exact Hthrown].
  destruct (jpeg_decode w jpegData) as [|[imageData|]]; try exact Hthrown.
  destruct (Qltb (image_rows imageData * image_columns imageData) (inject_Z DATA_SET_SIZE))
    eqn:Htest.
  { rewrite buildDataSet_throws by done. exact Hthrown. }
  rewrite buildDataSet_returns by done.
  eexists [_; _], [digit]. cbn. split_and!; try done.
  - intros d dataSet Hd. rewrite lookup_insert_ne; [done | congruence].
  - intros Hwf d dataSet Hd. cbn in *. rewrite length_app. cbn.
    rewrite lookup_insert in Hd. destruct (decide (digit = d)) as [->|Hne].
    + injection Hd as <-. cbn. lia.
    + destruct (Hwf d dataSet Hd). cbn in *. lia.
Qed.

Lemma getDataSet_calls_spec calls σ :
  exists new log,
    arrays (getDataSet_calls calls σ) = arrays σ ++ new
    /\ decodeLog (getDataSet_calls calls σ) = decodeLog σ ++ log
    /\ (forall d, is_Some (dataCache σ !! d) -> d ∉ log)
    /\ (forall d dataSet,
          dataCache σ !! d = Some dataSet ->
          dataCache (getDataSet_calls calls σ) !! d = Some dataSet)
    /\ (cache_in_heap σ -> cache_in_heap (getDataSet_calls calls σ)).
Proof.
  revert σ. induction calls as [|[w digit] calls IH]; intros σ.
  { exists [], []. cbn. rewrite !app_nil_r. split_and!; try done.
    intros d _. apply not_elem_of_nil. }
  cbn [getDataSet_calls fold_left fst snd].
  destruct (getDataSet_step w digit σ) as (new1 & log1 & Ha1 & Hl1 & Hn1 & Hc1 & Hw1).
  destruct (IH (outcome_runtime (getDataSet w digit σ)))
    as (new2 & log2 & Ha2 & Hl2 & Hn2 & Hc2 & Hw2).
  exists (new1 ++ new2), (log1 ++ log2). unfold getDataSet_calls in *.
  rewrite Ha2, Ha1, Hl2, Hl1, <- !app_assoc. split_and!; try done.
  - intros d [ds Hd]. rewrite elem_of_app. intros [Hin|Hin].
    + by apply (Hn1 d).
    + apply (Hn2 d); [|done]. exists ds. by apply Hc1.
  - intros d ds Hd. by apply Hc2, Hc1.
  - intros Hwf. by apply Hw2, Hw1.
Qed.
Lemma getDataSet_returned_cached w digit σ σ1 dataSet :
  getDataSet w digit σ = Returned dataSet σ1 -> dataCache σ1 !! digit = Some dataSet.
Proof.
  destruct (dataCache σ !! digit) as [cached|] eqn:Hcache.
  { rewrite (getDataSet_hit _ _ _ _ Hcache). by intros [= <- <-]. }
  rewrite (getDataSet_miss _ _ _ Hcache).
  destruct (readFileSync w (image_path digit)) as [jpegData|]; [|done].
  destruct (jpeg_decode w jpegData) as [|[imageData|]]; try done.
  destruct (buildDataSet digit imageData (logged digit σ)) as [ds σ'|]; [|done].
  intros [= <- <-]. cbn. apply lookup_insert_eq.
Qed.

Lemma getDataSet_thrown w digit σ σ' e :
  getDataSet w digit σ = Thrown e σ' ->
  dataCache σ !! digit = None /\ σ' = logged digit σ.
Proof.
  destruct (dataCache σ !! digit) as [cached|] eqn:Hcache.
  { by rewrite (getDataSet_hit _ _ _ _ Hcache). }
  rewrite (getDataSet_miss _ _ _ Hcache).
  destruct (readFileSync w (image_path digit)) as [jpegData|]; [|by intros [= _ <-]].
  destruct (jpeg_decode w jpegData) as [|[imageData|]]; try by intros [= _ <-].
  destruct (Qltb (image_rows imageData * image_columns imageData) (inject_Z DATA_SET_SIZE))
    eqn:Htest.
  - rewrite buildDataSet_throws by done. by intros [= _ <-].
  - by rewrite buildDataSet_returns.
Qed.

(** Every call that builds arrays adds one label to the cache: two arrays
    for each new label, and nothing for a label that is there. *)
Lemma getDataSet_step_builds w digit σ :
  (length (arrays (outcome_runtime (getDataSet w digit σ))) + 2 * size (dataCache σ)
   = length (arrays σ) + 2 * size (dataCache (outcome_runtime (getDataSet w digit σ))))%nat.
Proof.
  destruct (dataCache σ !! digit) as [cached|] eqn:Hcache.
  { by rewrite (getDataSet_hit _ _ _ _ Hcache). }
  rewrite (getDataSet_miss _ _ _ Hcache).
  destruct (readFileSync w (image_path digit)) as [jpegData|]; [|done].
  destruct (jpeg_decode w jpegData) as [|[imageData|]]; try done.
  destruct (Qltb (image_rows imageData * image_columns imageData) (inject_Z DATA_SET_SIZE))
    eqn:Htest.
  { by rewrite buildDataSet_throws. }
  rewrite buildDataSet_returns by done.
  cbn [outcome_runtime arrays dataCache logged].
  rewrite length_app, map_size_insert_None by done. cbn [length]. lia.
Qed.

Lemma getDataSet_calls_builds calls σ :
  (length (arrays (getDataSet_calls calls σ)) + 2 * size (dataCache σ)
   = length (arrays σ) + 2 * size (dataCache (getDataSet_calls calls σ)))%nat.
Proof.
  revert σ. induction calls as [|[w digit] calls IH]; intros σ; [done|].
  cbn [getDataSet_calls fold_left fst snd].
  pose proof (getDataSet_step_builds w digit σ) as Hstep.
  pose proof (IH (outcome_runtime (getDataSet w digit σ))) as Hrest.
  unfold getDataSet_calls in Hrest. lia.
Qed.

(** C3, amended: the claim holds of the labels for which a call has returned
    (a call that throws stores nothing, and the next call for the label goes
    through the decode path again).
    Once [getDataSet] has returned a data set for a label, a second call
    for that label, in any world, returns the same stored data set (the same
    two arrays) and leaves the whole runtime as it was: nothing is decoded
    (the log of decode attempts is unchanged) and nothing is built (no array
    is created).  This holds for the rest of the process: after any further
    calls of [getDataSet], for any labels and in any worlds, the label is
    still served from the cache, its arrays hold what they held, the decode
    path was never entered for it again, and the arrays built since are two
    for each label added to the cache: no label is built a second time. *)
Theorem getDataSet_cache_hit (w : World) (label : Z) (σ σ1 : Runtime)
    (dataSet : IDigitDataSet) :
  cache_in_heap σ ->
  getDataSet w label σ = Returned dataSet σ1 ->
  (forall w2, getDataSet w2 label σ1 = Returned dataSet σ1)
  /\ (forall calls,
        let σ2 := getDataSet_calls calls σ1 in
        (forall w3, getDataSet w3 label σ2 = Returned dataSet σ2)
        /\ array_at σ2 (trainingSet dataSet) = array_at σ1 (trainingSet dataSet)
        /\ array_at σ2 (testingSet dataSet) = array_at σ1 (testingSet dataSet)
        /\ (exists log, decodeLog σ2 = decodeLog σ1 ++ log /\ label ∉ log)
        /\ (length (arrays σ2) + 2 * size (dataCache σ1)
            = length (arrays σ1) + 2 * size (dataCache σ2))%nat).
Proof.
  intros Hwf Hfirst.
  pose proof (getDataSet_returned_cached _ _ _ _ _ Hfirst) as Hcached.
  assert (Hwf1 : cache_in_heap σ1).
  { destruct (getDataSet_step w label σ) as (_ & _ & _ & _ & _ & _ & Hw).
    rewrite Hfirst in Hw. by apply Hw. }
  split; [intros w2; by apply getDataSet_hit|].
  intros calls σ2.
  destruct (getDataSet_calls_spec calls σ1) as (new & log & Ha & Hl & Hn & Hc & _).
  destruct (Hwf1 _ _ Hcached) as [Htr Hte].
  split_and!.
  - intros w3. by apply getDataSet_hit, Hc.
  - by apply (array_at_old σ1 σ2 _ new).
  - by apply (array_at_old σ1 σ2 _ new).
  - exists log. split; [done|]. apply Hn. by exists dataSet.
  - apply getDataSet_calls_builds.
Qed.

(** C7. When [getDataSet] throws, whatever the cause (the file cannot be
    read, jpeg-js throws or gives nothing, or the image has too few cells),
    the cache is as it was before the call and has no entry for the label,
    and no array was created.  The next call for the label enters the decode
    path again, and returns a data set, now cached, as soon as the world gives
    a file that decodes to an image with enough cells. *)
Theorem getDataSet_failure_leaves_cache (w : World) (label : Z) (σ σ' : Runtime)
    (e : Error) :
  getDataSet w label σ = Thrown e σ' ->
  dataCache σ' = dataCache σ
  /\ dataCache σ' !! label = None
  /\ arrays σ' = arrays σ
  /\ match e with
     | CouldNotFindImage imagePath =>
         imagePath = image_path label /\ readFileSync w (image_path label) = None
     | DecoderError =>
         exists jpegData,
           readFileSync w (image_path label) = Some jpegData
           /\ jpeg_decode w jpegData = decode_throws
     | CouldNotLoadImageData =>
         exists jpegData,
           readFileSync w (image_path label) = Some jpegData
           /\ jpeg_decode w jpegData = decode_value None
     | LessImagesThanExpected found =>
         exists jpegData imageData,
           readFileSync w (image_path label) = Some jpegData
           /\ jpeg_decode w jpegData = decode_value (Some imageData)
           /\ found = (image_rows imageData * image_columns imageData)%Q
           /\ (found < inject_Z DATA_SET_SIZE)%Q
     end
  /\ (forall w2,
        decodeLog (outcome_runtime (getDataSet w2 label σ')) = decodeLog σ' ++ [label])
  /\ (forall w2 jpegData imageData,
        readFileSync w2 (image_path label) = Some jpegData ->
        jpeg_decode w2 jpegData = decode_value (Some imageData) ->
        ~ (image_rows imageData * image_columns imageData < inject_Z DATA_SET_SIZE)%Q ->
        exists dataSet σ'',
          getDataSet w2 label σ' = Returned dataSet σ''
          /\ dataCache σ'' = <[label := dataSet]> (dataCache σ)
          /\ array_at σ'' (trainingSet dataSet)
             = omap (cell_sample label imageData)
                 (take (Z.to_nat (TRAINING_SET_SIZE - 1)) (image_cells imageData))
          /\ array_at σ'' (testingSet dataSet)
             = omap (cell_sample label imageData)
                 (drop (Z.to_nat (TRAINING_SET_SIZE - 1)) (image_cells imageData))).
Proof.
  intros Hthrown.
  destruct (getDataSet_thrown _ _ _ _ _ Hthrown) as [Hcache ->].
  split; [done|]. split; [done|]. split; [done|]. split.
  { rewrite (getDataSet_miss _ _ _ Hcache) in Hthrown.
    destruct (readFileSync w (image_path label)) as [jpegData|]; [|by injection Hthrown as <-].
    destruct (jpeg_decode w jpegData) as [|[imageData|]] eqn:Hdecode.
    - injection Hthrown as <-. by exists jpegData.
    - destruct (Qltb (image_rows imageData * image_columns imageData)
                  (inject_Z DATA_SET_SIZE)) eqn:Htest.
      + rewrite buildDataSet_throws in Hthrown by done. injection Hthrown as <-.
        exists jpegData, imageData. split_and!; try done. by apply Qltb_lt.
      + by rewrite buildDataSet_returns in Hthrown.
    - injection Hthrown as <-. by exists jpegData. }
  assert (Hcache' : dataCache (logged label σ) !! label = None) by done.
  split.
  - intros w2. rewrite (getDataSet_miss _ _ _ Hcache').
    destruct (readFileSync w2 (image_path label)) as [jpegData|]; [|done].
    destruct (jpeg_decode w2 jpegData) as [|[imageData|]]; try done.
    destruct (Qltb (image_rows imageData * image_columns imageData) (inject_Z DATA_SET_SIZE))
      eqn:Htest.
    + by rewrite buildDataSet_throws.
    + by rewrite buildDataSet_returns.
  - intros w2 jpegData imageData Hread Hdecode Henough.
    rewrite (getDataSet_miss _ _ _ Hcache'), Hread, Hdecode.
    destruct (Qltb (image_rows imageData * image_columns imageData) (inject_Z DATA_SET_SIZE))
      eqn:Htest.
    { by apply Qltb_lt in Htest. }
    rewrite buildDataSet_returns by done.
    eexists _, _. split; [done|]. cbn [dataCache logged trainingSet testingSet].
    split; [done|].
    apply (array_at_new (arrays σ)).
Qed.
(** ** combineDataSets *)

Lemma grows_trans σ n1 σ1 n2 σ2 :
  grows σ n1 σ1 -> grows σ1 n2 σ2 -> grows σ (n1 ++ n2) σ2.
Proof.
  intros (Ha1 & Hc1 & Hl1 & Hs1) (Ha2 & Hc2 & Hl2 & Hs2). unfold grows.
  rewrite Ha2, Ha1, Hc2, Hc1, Hl2, Hl1, Hs2, Hs1, app_assoc. done.
Qed.

Lemma grows_array_at σ new σ' ref :
  grows σ new σ' -> (ref < length (arrays σ))%nat -> array_at σ' ref = array_at σ ref.
Proof. intros [Ha _] Href. by apply (array_at_old σ σ' ref new). Qed.

Lemma new_array_spec content σ :
  exists σ',
    new_array content σ = Returned (length (arrays σ)) σ'
    /\ grows σ [content] σ'
    /\ array_at σ' (length (arrays σ)) = content.
Proof.
  eexists. split; [reflexivity|]. split; [done|].
  unfold array_at. cbn. by rewrite lookup_app_r, Nat.sub_diag by lia.
Qed.

Lemma bind_array_at_old σ new σ' (f : IDigitDataSet -> nat) (dataSets : list IDigitDataSet) :
  grows σ new σ' ->
  (forall dataSet, dataSet ∈ dataSets -> (f dataSet < length (arrays σ))%nat) ->
  (dataSet ← dataSets; array_at σ' (f dataSet)) = (dataSet ← dataSets; array_at σ (f dataSet)).
Proof.
  intros Hg. induction dataSets as [|ds dataSets IH]; intros Hin; [done|].
  cbn [mbind list_bind]. rewrite (grows_array_at _ _ _ _ Hg) by (apply Hin; left).
  f_equal. apply IH. intros ds' Hds'. apply Hin. by right.
Qed.

(** The loop of [combineDataSets]: every turn creates two arrays, the
    concatenations so far; the arrays of the data sets are only read. *)
Lemma combineDataSets_loop_spec (dataSets : list IDigitDataSet) :
  forall allTrainingSets allTestingSets σ,
    (allTrainingSets < length (arrays σ))%nat ->
    (allTestingSets < length (arrays σ))%nat ->
    (forall dataSet, dataSet ∈ dataSets ->
                     (trainingSet dataSet < length (arrays σ))%nat
                     /\ (testingSet dataSet < length (arrays σ))%nat) ->
    exists training testing new σ',
      combineDataSets_loop dataSets allTrainingSets allTestingSets σ
      = Returned (training, testing) σ'
      /\ grows σ new σ'
      /\ (training < length (arrays σ'))%nat
      /\ (testing < length (arrays σ'))%nat
      /\ (dataSets <> [] -> (length (arrays σ) <= training)%nat
                            /\ (length (arrays σ) <= testing)%nat)
      /\ array_at σ' training
         = array_at σ allTrainingSets
           ++ (dataSet ← dataSets; array_at σ (trainingSet dataSet))
      /\ array_at σ' testing
         = array_at σ allTestingSets
           ++ (dataSet ← dataSets; array_at σ (testingSet dataSet)).
Proof.
  induction dataSets as [|ds dataSets IH]; intros tr te σ Htr Hte Hin.
  { exists tr, te, [], σ. cbn. rewrite !app_nil_r. split_and!; try done.
    unfold grows. by rewrite app_nil_r. }
  destruct (Hin ds) as [Hdtr Hdte]; [left|].
  cbn [combineDataSets_loop]. unfold mbind, M_bind, concat.
  destruct (new_array_spec (array_at σ tr ++ array_at σ (trainingSet ds)) σ)
    as (σ1 & -> & Hg1 & Hat1).
  destruct (new_array_spec (array_at σ1 te ++ array_at σ1 (testingSet ds)) σ1)
    as (σ2 & -> & Hg2 & Hat2).
  pose proof (grows_trans _ _ _ _ _ Hg1 Hg2) as Hg12.
  pose proof Hg1 as [Ha1 _]. pose proof Hg12 as [Ha12 _].
  assert (Hlen1 : length (arrays σ1) = S (length (arrays σ))).
  { rewrite Ha1, length_app. cbn. lia. }
  assert (Hlen2 : length (arrays σ2) = S (S (length (arrays σ)))).
  { rewrite Ha12, length_app. cbn. lia. }
  destruct (IH (length (arrays σ)) (length (arrays σ1)) σ2)
    as (training & testing & new & σ' & Hrun & Hg & Htr' & Hte' & _ & Hctr & Hcte).
  { lia. } { lia. }
  { intros ds' Hds'. destruct (Hin ds'); [by right|]. lia. }
  eexists training, testing, _, σ'.
  split; [done|]. split; [by eapply grows_trans|].
  split; [done|]. split; [done|]. split.
  { intros _. destruct dataSets as [|ds' dataSets].
    - cbn in Hrun. injection Hrun as <- <- <-. lia.
    - destruct (IH (length (arrays σ)) (length (arrays σ1)) σ2)
        as (training' & testing' & new' & σ'' & Hrun' & _ & _ & _ & Hfresh & _).
      { lia. } { lia. }
      { intros ds0 Hds0. destruct (Hin ds0); [by right|]. lia. }
      rewrite Hrun in Hrun'. injection Hrun' as <- <- <-.
      destruct Hfresh; [done|]. lia. }
  split.
  - rewrite Hctr. rewrite (grows_array_at _ _ _ _ Hg2) by lia. rewrite Hat1.
    rewrite (bind_array_at_old _ _ _ trainingSet _ Hg12).
    + cbn [mbind list_bind]. by rewrite <- app_assoc.
    + intros ds' Hds'. destruct (Hin ds'); [by right|]. done.
  - rewrite Hcte, Hat2. rewrite !(grows_array_at _ _ _ _ Hg1) by done.
    rewrite (bind_array_at_old _ _ _ testingSet _ Hg12).
    + cbn [mbind list_bind]. by rewrite <- app_assoc.
    + intros ds' Hds'. destruct (Hin ds'); [by right|]. done.
Qed.
(** C8. Without randomisation, for every sequence of data sets (whose
    arrays are on the heap) [combineDataSets] returns a data set whose
    training set is the concatenation of the training sets of the inputs, in
    the order of the inputs, and whose testing set is the concatenation of
    their testing sets.  The result is in two new arrays; every array that
    existed before the call, those of the inputs among them, holds what it
    held, and the cache is untouched.  The result does not depend on the
    shuffler. *)
Theorem combineDataSets_concatenates (w : World) (dataSets : list IDigitDataSet)
    (σ : Runtime) :
  (forall dataSet, dataSet ∈ dataSets ->
                   (trainingSet dataSet < length (arrays σ))%nat
                   /\ (testingSet dataSet < length (arrays σ))%nat) ->
  exists result σ',
    combineDataSets w dataSets false σ = Returned result σ'
    /\ array_at σ' (trainingSet result)
       = (dataSet ← dataSets; array_at σ (trainingSet dataSet))
    /\ array_at σ' (testingSet result)
       = (dataSet ← dataSets; array_at σ (testingSet dataSet))
    /\ (length (arrays σ) <= trainingSet result)%nat
    /\ (length (arrays σ) <= testingSet result)%nat
    /\ (forall ref, (ref < length (arrays σ))%nat -> array_at σ' ref = array_at σ ref)
    /\ (exists new, arrays σ' = arrays σ ++ new)
    /\ dataCache σ' = dataCache σ
    /\ decodeLog σ' = decodeLog σ
    /\ (forall w', combineDataSets w' dataSets false σ = Returned result σ').
Proof.
  intros Hin. unfold combineDataSets, mbind, M_bind.
  destruct (new_array_spec [] σ) as (σ1 & -> & Hg1 & Hat1).
  destruct (new_array_spec [] σ1) as (σ2 & -> & Hg2 & Hat2).
  pose proof (grows_trans _ _ _ _ _ Hg1 Hg2) as Hg12.
  pose proof Hg1 as [Ha1 _]. pose proof Hg12 as [Ha12 _].
  assert (Hlen1 : length (arrays σ1) = S (length (arrays σ))).
  { rewrite Ha1, length_app. cbn. lia. }
  assert (Hlen2 : length (arrays σ2) = S (S (length (arrays σ)))).
  { rewrite Ha12, length_app. cbn. lia. }
  destruct (combineDataSets_loop_spec dataSets (length (arrays σ)) (length (arrays σ1)) σ2)
    as (training & testing & new & σ' & Hrun & Hg & Htr' & Hte' & Hfresh & Hctr & Hcte).
  { lia. } { lia. }
  { intros ds Hds. destruct (Hin ds Hds). lia. }
  rewrite Hrun. cbn [mret M_ret].
  pose proof (grows_trans _ _ _ _ _ Hg12 Hg) as Hgall.
  exists {| trainingSet := training; testingSet := testing |}, σ'.
  cbn [trainingSet testingSet]. split; [done|].
  split.
  { rewrite Hctr, (grows_array_at _ _ _ _ Hg2), Hat1 by lia.
    apply (bind_array_at_old _ _ _ trainingSet _ Hg12).
    intros ds Hds. by destruct (Hin ds Hds). }
  split.
  { rewrite Hcte, Hat2.
    apply (bind_array_at_old _ _ _ testingSet _ Hg12).
    intros ds Hds. by destruct (Hin ds Hds). }
  assert (Hge : (length (arrays σ) <= training)%nat /\ (length (arrays σ) <= testing)%nat).
  { destruct dataSets as [|ds dataSets].
    - cbn in Hrun. injection Hrun as <- <- <-. lia.
    - destruct Hfresh; [done|]. lia. }
  destruct Hge. split; [done|]. split; [done|].
  split; [intros ref Href; by apply (grows_array_at _ _ _ _ Hgall)|].
  destruct Hgall as (Ha & Hc & Hl & _).
  split; [by eexists|]. done.
Qed.
(** ** printImage *)

Lemma string_app_assoc (s1 s2 s3 : string) :
  (s1 +:+ s2 +:+ s3)%string = ((s1 +:+ s2) +:+ s3)%string.
Proof.
  induction s1 as [|c s1 IH]; [done|].
  change (String c (s1 +:+ s2 +:+ s3) = String c ((s1 +:+ s2) +:+ s3)). by f_equal.
Qed.

Lemma joined_app l1 l2 : joined (l1 ++ l2) = (joined l1 +:+ joined l2)%string.
Proof.
  induction l1 as [|s l1 IH]; [done|].
  cbn [app joined foldr]. fold (joined (l1 ++ l2)). fold (joined l1).
  by rewrite IH, string_app_assoc.
Qed.

Lemma string_app_empty_r (s : string) : (s +:+ "")%string = s.
Proof.
  induction s as [|c s IH]; [done|].
  change (String c (s +:+ "") = String c s). by f_equal.
Qed.

(** The sink is only appended to. *)
Lemma printImage_loop_sink imageData i size threshold symbol output sink :
  printImage_loop imageData i size threshold symbol output sink
  = ((printImage_loop imageData i size threshold symbol output []).1,
     sink ++ (printImage_loop imageData i size threshold symbol output []).2).
Proof.
  revert i output sink. induction imageData as [|pixel rest IH]; intros i output sink.
  { cbn. by rewrite app_nil_r. }
  cbn [printImage_loop]. destruct (rem_is_zero i size).
  - rewrite IH. rewrite (IH _ _ ([] ++ _)). cbn [fst snd]. by rewrite <- !app_assoc.
  - apply IH.
Qed.

(** What is right in C9: put end to end, the strings written are the
    elements in order, the symbol for an element above the threshold and a
    space for the others. *)
Lemma printImage_joined imageData size threshold symbol :
  joined (printImage imageData size threshold symbol)
  = joined (glyph threshold symbol <$> imageData).
Proof.
  unfold printImage.
  assert (H : forall i output,
             (joined (printImage_loop imageData i size threshold symbol output []).2
              +:+ (printImage_loop imageData i size threshold symbol output []).1)%string
             = (output +:+ joined (glyph threshold symbol <$> imageData))%string).
  { induction imageData as [|pixel rest IH]; intros i output.
    - cbn. by rewrite string_app_empty_r.
    - cbn [printImage_loop fmap list_fmap joined foldr]. fold (glyph threshold symbol pixel).
      destruct (rem_is_zero i size).
      + rewrite printImage_loop_sink. cbn [fst snd]. rewrite joined_app, <- string_app_assoc.
        rewrite IH. cbn [app joined foldr]. fold (joined (glyph threshold symbol <$> rest)).
        rewrite string_app_empty_r.
        change ("" +:+ ?s)%string with s. by rewrite string_app_assoc.
      + rewrite IH. fold (joined (glyph threshold symbol <$> rest)).
        by rewrite string_app_assoc. }
  specialize (H 0 ""%string).
  destruct (printImage_loop imageData 0 size threshold symbol "" []) as [output sink].
  cbn [fst snd] in H. rewrite joined_app. cbn. by rewrite string_app_empty_r.
Qed.

(** Where C9 fails: the test [i % size === 0] holds at [i = 0], so the
    first string written holds one element only, whatever the size. *)
Lemma printImage_first_write pixel rest size threshold symbol :
  size <> 0 ->
  exists more,
    printImage (pixel :: rest) size threshold symbol = glyph threshold symbol pixel :: more.
Proof.
  intros Hsize. unfold printImage. cbn [printImage_loop].
  unfold rem_is_zero. destruct (Z.eqb_spec size 0) as [|_]; [done|].
  rewrite Z.rem_0_l by done. cbn [Z.eqb].
  rewrite printImage_loop_sink.
  destruct (printImage_loop rest (0 + 1) size threshold symbol "" []) as [output sink].
  cbn. by eexists.
Qed.

(** C9 on the code: a matrix of two rows of two elements is written as
    three strings of one, two and one elements, and a matrix of 16 rows of 16
    elements, with the default size, as a string of one element, 15 strings
    of 16 and a last one of 15; the claim expects rows of exactly [size]
    elements. *)
Theorem printImage_rows_shifted :
  printImage [1; 1; 1; 1]%Q 2 (1 # 2) "#" = ["#"; "##"; "#"]%string
  /\ String.length <$> printImage (repeat 1%Q 256) IMAGE_SIZE (1 # 2) "#"
     = [1; 16; 16; 16; 16; 16; 16; 16; 16; 16; 16; 16; 16; 16; 16; 16; 15]%nat.
Proof. split; vm_compute; reflexivity. Qed.
(** ** Reading a greyscale buffer *)

Lemma Uint8Array_get_greyscale shade pixelCount i :
  0 <= pixelCount ->
  Uint8Array_get (greyscale shade pixelCount) i = greyscale_get shade pixelCount i.
Proof.
  intros Hn. unfold Uint8Array_get, greyscale_get.
  destruct (Qred i) as [k d]. destruct d; try done.
  destruct (Z.leb_spec 0 k) as [Hk|Hk]; [|done]. cbn [andb].
  unfold greyscale.
  destruct (Z.ltb_spec k (4 * pixelCount)) as [Hlt|Hge].
  - replace (Z.to_nat k)
      with (Z.to_nat (k / 4) * length (range 4) + Z.to_nat (k mod 4))%nat
      by (rewrite range_length; pose proof (Z.div_mod k 4);
          pose proof (Z.mod_pos_bound k 4); pose proof (Z.div_pos k 4); lia).
    pose proof (Z.mod_pos_bound k 4). pose proof (Z.div_pos k 4).
    assert (k / 4 < pixelCount) by (apply Z.div_lt_upper_bound; lia).
    erewrite grid_lookup; [| apply range_lookup; lia | apply range_lookup; lia].
    cbn [fmap option_fmap option_map]. by rewrite !Z2Nat.id by lia.
  - rewrite lookup_ge_None_2; [done|].
    rewrite grid_length, !range_length. lia.
Qed.

(** The test of a pixel of a [greyscale] image, on integers. *)
Lemma pixel_value_greyscale shade pixelCount height_ startX startY row column :
  0 <= pixelCount ->
  pixel_value startX startY (inject_Z height_ / inject_Z IMAGE_SIZE)
    (greyscale shade pixelCount) row column
  = if greyscale_white shade pixelCount height_ (row + startX) (column + startY)
    then 1 else 0.
Proof.
  intros Hn. unfold pixel_value, greyscale_white.
  rewrite (Uint8Array_get_Qeq _ _ _ (byte_offset_integer height_ _ _)).
  rewrite Uint8Array_get_greyscale by done. unfold greyscale_get.
  rewrite Qred_inject_Z. unfold inject_Z.
  set (pixel := column + startY - 1 + (row + startX) * (height_ - IMAGE_SIZE)).
  replace (4 * pixel) with (pixel * 4) by lia.
  rewrite Z.mod_mul, Z.div_mul by done. cbn [Z.eqb].
  destruct (Z.leb_spec 0 pixel), (Z.leb_spec 0 (pixel * 4)); try lia; cbn [andb]; [|done].
  destruct (Z.ltb_spec pixel pixelCount), (Z.ltb_spec (pixel * 4) (4 * pixelCount));
    try lia; done.
Qed.

Lemma cell_image_greyscale shade pixelCount imageData cell :
  0 <= pixelCount ->
  data imageData = greyscale shade pixelCount ->
  cell_image imageData cell
  = greyscale_cell_image shade pixelCount (height imageData) cell.
Proof.
  intros Hn Hdata. unfold cell_image, greyscale_cell_image.
  rewrite subImage_spec, Hdata.
  assert (Hbuilt : binarised (cell.1 * IMAGE_SIZE) (cell.2 * IMAGE_SIZE) IMAGE_SIZE
                     (image_columns imageData) (greyscale shade pixelCount)
                   = (row ← range 16;
                      (fun column =>
                         if greyscale_white shade pixelCount (height imageData)
                              (row + cell.1 * IMAGE_SIZE) (column + cell.2 * IMAGE_SIZE)
                         then 1 else 0) <$> range 16)).
  { unfold binarised. rewrite iterations_inject_Z.
    apply list_bind_ext; [|done]. intros row.
    apply list_fmap_ext. intros _ column _.
    by apply pixel_value_greyscale. }
  by rewrite Hbuilt.
Qed.

(** *** The examples *)

Lemma white_image_cells : length (image_cells white_image) = 1100%nat.
Proof.
  unfold image_cells. by rewrite cells_length, iterations_image_rows, iterations_image_columns.
Qed.

Lemma third_cell_dark_image_cells : length (image_cells third_cell_dark_image) = 1100%nat.
Proof.
  unfold image_cells. by rewrite cells_length, iterations_image_rows, iterations_image_columns.
Qed.

(** Every cell of the white image is accepted. *)
Lemma white_image_flags :
  forallb
    (fun cell => accepted (greyscale_cell_image (fun _ => "255"%byte) 281600 400 cell))
    (cells (inject_Z 704 / inject_Z IMAGE_SIZE) (inject_Z 400 / inject_Z IMAGE_SIZE))
  = true.
Proof. vm_compute. reflexivity. Qed.

Lemma white_image_accepted cell :
  cell ∈ image_cells white_image -> is_Some (cell_image white_image cell).
Proof.
  intros Hcell. pose proof white_image_flags as H.
  rewrite forallb_forall in H. apply list_elem_of_In, H in Hcell.
  rewrite (cell_image_greyscale (fun _ => "255"%byte) 281600) by done.
  change (height white_image) with 400.
  revert Hcell. generalize (greyscale_cell_image (fun _ => "255"%byte) 281600 400 cell).
  intros [m|]; [by exists m | discriminate].
Qed.

(** Which cells of the darkened image are accepted, in the order of the
    grid: all but the third. *)
Lemma third_cell_dark_image_flags :
  (fun cell => accepted (greyscale_cell_image dark_shade 281600 400 cell))
  <$> cells (inject_Z 704 / inject_Z IMAGE_SIZE) (inject_Z 400 / inject_Z IMAGE_SIZE)
  = (fun k => negb (k =? 2)%nat) <$> seq 0 1100.
Proof. vm_compute. reflexivity. Qed.

(** In the darkened image the cell at position 3, and no other, is rejected. *)
Lemma third_cell_dark_image_accepted k cell :
  image_cells third_cell_dark_image !! k = Some cell ->
  is_Some (cell_image third_cell_dark_image cell) <-> k <> 2%nat.
Proof.
  intros Hcell.
  assert (Hk : (k < 1100)%nat).
  { rewrite <- third_cell_dark_image_cells. by eapply lookup_lt_Some. }
  rewrite (cell_image_greyscale dark_shade 281600) by done.
  change (height third_cell_dark_image) with 400.
  pose proof third_cell_dark_image_flags as H.
  apply (f_equal (fun l => l !! k)) in H.
  rewrite !list_lookup_fmap in H.
  change (cells (inject_Z 704 / inject_Z IMAGE_SIZE) (inject_Z 400 / inject_Z IMAGE_SIZE))
    with (image_cells third_cell_dark_image) in H.
  rewrite Hcell in H. rewrite (lookup_seq_lt _ _ _ Hk) in H.
  cbn [fmap option_fmap option_map Nat.add] in H. injection H as H.
  revert H.
  generalize (greyscale_cell_image dark_shade 281600 400 cell).
  intros image H. destruct (Nat.eqb_spec k 2) as [->|Hne]; destruct image as [m|];
    cbn [accepted negb] in H; try discriminate H.
  - split; [by intros [? [=]] | intros Hc; by destruct Hc].
  - split; [done | intros _; by exists m].
Qed.

Lemma white_image_whole :
  (IMAGE_SIZE | width white_image) /\ (IMAGE_SIZE | height white_image).
Proof. split; [by exists 44 | by exists 25]. Qed.

Lemma third_cell_dark_image_whole :
  (IMAGE_SIZE | width third_cell_dark_image) /\ (IMAGE_SIZE | height third_cell_dark_image).
Proof. split; [by exists 44 | by exists 25]. Qed.

(** C1 on the white image of 44 by 25 cells. *)
Lemma buildDataSet_all_accepted_split_witness :
  (IMAGE_SIZE | width white_image)
  /\ (IMAGE_SIZE | height white_image)
  /\ length (image_cells white_image) = 1100%nat
  /\ (forall cell, cell ∈ image_cells white_image -> is_Some (cell_image white_image cell))
  /\ exists dataSet σ',
       buildDataSet 7 white_image initial_runtime = Returned dataSet σ'
       /\ length (array_at σ' (trainingSet dataSet)) = 549%nat
       /\ length (array_at σ' (testingSet dataSet)) = 551%nat
       /\ Forall2 (fun cell m => cell_sample 7 white_image cell = Some m)
            (take 549 (image_cells white_image)) (array_at σ' (trainingSet dataSet))
       /\ Forall2 (fun cell m => cell_sample 7 white_image cell = Some m)
            (drop 549 (image_cells white_image)) (array_at σ' (testingSet dataSet)).
Proof.
  split; [apply white_image_whole|]. split; [apply white_image_whole|].
  split; [apply white_image_cells|]. split; [apply white_image_accepted|].
  apply (buildDataSet_all_accepted_split 7 white_image initial_runtime).
  - apply white_image_whole.
  - apply white_image_whole.
  - apply white_image_cells.
  - apply white_image_accepted.
Defined.

(** C2 on the image whose third cell is darkened. *)
Lemma buildDataSet_position_counter_witness :
  (IMAGE_SIZE | width third_cell_dark_image)
  /\ (IMAGE_SIZE | height third_cell_dark_image)
  /\ length (image_cells third_cell_dark_image) = 1100%nat
  /\ (forall k cell,
        image_cells third_cell_dark_image !! k = Some cell ->
        is_Some (cell_image third_cell_dark_image cell) <-> k <> 2%nat)
  /\ exists dataSet σ',
       buildDataSet 7 third_cell_dark_image initial_runtime = Returned dataSet σ'
       /\ length (array_at σ' (trainingSet dataSet)) = 548%nat
       /\ length (array_at σ' (testingSet dataSet)) = 551%nat
       /\ (length (array_at σ' (trainingSet dataSet))
           + length (array_at σ' (testingSet dataSet)) = 1099)%nat.
Proof.
  split; [apply third_cell_dark_image_whole|]. split; [apply third_cell_dark_image_whole|].
  split; [apply third_cell_dark_image_cells|].
  split; [apply third_cell_dark_image_accepted|].
  apply (buildDataSet_position_counter 7 third_cell_dark_image).
  - apply third_cell_dark_image_whole.
  - apply third_cell_dark_image_whole.
  - apply third_cell_dark_image_cells.
  - apply third_cell_dark_image_accepted.
Defined.
Lemma white_image_enough :
  Qltb (image_rows white_image * image_columns white_image) (inject_Z DATA_SET_SIZE) = false.
Proof. rewrite too_few_cells_test. reflexivity. Qed.

Lemma white_image_first_cell : cell_sample 7 white_image (0, 0) = Some first_white_sample.
Proof.
  unfold cell_sample. rewrite (cell_image_greyscale (fun _ => "255"%byte) 281600) by done.
  change (height white_image) with 400.
  assert (H : greyscale_cell_image (fun _ => "255"%byte) 281600 400 (0, 0)
              = Some (0 :: replicate 255 1)).
  { vm_compute. reflexivity. }
  by rewrite H.
Qed.

Lemma cache_in_heap_initial : cache_in_heap initial_runtime.
Proof. intros d ds Hd. cbn in Hd. by rewrite lookup_empty in Hd. Qed.

Lemma getDataSet_white_image label :
  getDataSet (world_with white_image) label initial_runtime
  = Returned {| trainingSet := 0; testingSet := 1 |}
      {| arrays :=
           [omap (cell_sample label white_image)
              (take (Z.to_nat (TRAINING_SET_SIZE - 1)) (image_cells white_image));
            omap (cell_sample label white_image)
              (drop (Z.to_nat (TRAINING_SET_SIZE - 1)) (image_cells white_image))];
         dataCache := {[ label := {| trainingSet := 0; testingSet := 1 |} ]};
         decodeLog := [label];
         shuffles := 0 |}.
Proof.
  rewrite getDataSet_miss by apply lookup_empty.
  cbn [world_with readFileSync jpeg_decode].
  rewrite buildDataSet_returns by apply white_image_enough.
  reflexivity.
Qed.

(** C3 on the white image: the first call for label 7 builds the data set,
    later calls are served from the cache. *)
Lemma getDataSet_cache_hit_witness :
  cache_in_heap initial_runtime
  /\ exists dataSet σ1,
       getDataSet (world_with white_image) 7 initial_runtime = Returned dataSet σ1
       /\ (forall w2, getDataSet w2 7 σ1 = Returned dataSet σ1)
       /\ (forall calls,
             let σ2 := getDataSet_calls calls σ1 in
             (forall w3, getDataSet w3 7 σ2 = Returned dataSet σ2)
             /\ array_at σ2 (trainingSet dataSet) = array_at σ1 (trainingSet dataSet)
             /\ array_at σ2 (testingSet dataSet) = array_at σ1 (testingSet dataSet)
             /\ (exists log, decodeLog σ2 = decodeLog σ1 ++ log /\ 7 ∉ log)
             /\ (length (arrays σ2) + 2 * size (dataCache σ1)
                 = length (arrays σ1) + 2 * size (dataCache σ2))%nat).
Proof.
  split; [apply cache_in_heap_initial|].
  eexists _, _. split; [apply getDataSet_white_image|].
  apply (getDataSet_cache_hit (world_with white_image) 7 initial_runtime).
  - apply cache_in_heap_initial.
  - apply getDataSet_white_image.
Defined.

(** C4 on the white image: the sample of its first cell. *)
Lemma buildDataSet_matrices_witness :
  exists dataSet σ',
    buildDataSet 7 white_image initial_runtime = Returned dataSet σ'
    /\ first_white_sample
       ∈ array_at σ' (trainingSet dataSet) ++ array_at σ' (testingSet dataSet)
    /\ digit first_white_sample = 7
    /\ length (matrix first_white_sample) = 256%nat
    /\ Forall (fun v => v = 0 \/ v = 1) (matrix first_white_sample)
    /\ (exists cell,
          cell ∈ image_cells white_image
          /\ cell_image white_image cell = Some (matrix first_white_sample)
          /\ forall row column,
               0 <= row < IMAGE_SIZE -> 0 <= column < IMAGE_SIZE ->
               matrix first_white_sample !! Z.to_nat (row * IMAGE_SIZE + column)
               = Some (match channel0 white_image cell row column with
                       | Some sample => if (RGB_THRESHOLD <? sample)%Z then 1 else 0
                       | None => 0
                       end))
    /\ (Z.to_nat PIXEL_THRESHOLD <= white_pixels (matrix first_white_sample))%nat.
Proof.
  assert (Hbuild := buildDataSet_returns 7 white_image initial_runtime white_image_enough).
  assert (Hin : first_white_sample
                ∈ array_at
                    {| arrays :=
                         arrays initial_runtime
                         ++ [omap (cell_sample 7 white_image)
                               (take (Z.to_nat (TRAINING_SET_SIZE - 1))
                                  (image_cells white_image));
                             omap (cell_sample 7 white_image)
                               (drop (Z.to_nat (TRAINING_SET_SIZE - 1))
                                  (image_cells white_image))];
                       dataCache := dataCache initial_runtime;
                       decodeLog := decodeLog initial_runtime;
                       shuffles := shuffles initial_runtime |}
                    (trainingSet
                       {| trainingSet := length (arrays initial_runtime);
                          testingSet := S (length (arrays initial_runtime)) |})
                  ++ array_at
                       {| arrays :=
                            arrays initial_runtime
                            ++ [omap (cell_sample 7 white_image)
                                  (take (Z.to_nat (TRAINING_SET_SIZE - 1))
                                     (image_cells white_image));
                                omap (cell_sample 7 white_image)
                                  (drop (Z.to_nat (TRAINING_SET_SIZE - 1))
                                     (image_cells white_image))];
                          dataCache := dataCache initial_runtime;
                          decodeLog := decodeLog initial_runtime;
                          shuffles := shuffles initial_runtime |}
                       (testingSet
                          {| trainingSet := length (arrays initial_runtime);
                             testingSet := S (length (arrays initial_runtime)) |})).
  { apply elem_of_app. left.
    change (first_white_sample
            ∈ omap (cell_sample 7 white_image)
                (take (Z.to_nat (TRAINING_SET_SIZE - 1)) (image_cells white_image))).
    apply list_elem_of_omap. exists (0, 0). split; [|apply white_image_first_cell].
    apply elem_of_take. exists 0%nat. split; [|unfold TRAINING_SET_SIZE; lia].
    apply (cells_lookup _ _ 0 0).
    - rewrite iterations_image_rows. change (0 < 44)%nat. lia.
    - rewrite iterations_image_columns. change (0 < 25)%nat. lia. }
  eexists _, _. split; [exact Hbuild|]. split; [exact Hin|].
  exact (buildDataSet_matrices 7 white_image initial_runtime _ _ first_white_sample Hbuild Hin).
Defined.

(** C7 in a world without files: the call for label 3 throws and leaves the
    cache empty; the call succeeds once the file is there. *)
Lemma getDataSet_failure_leaves_cache_witness :
  getDataSet world_without_files 3 initial_runtime
  = Thrown (CouldNotFindImage "raw_data/usps_3.jpg") (logged 3 initial_runtime)
  /\ dataCache (logged 3 initial_runtime) = dataCache initial_runtime
  /\ dataCache (logged 3 initial_runtime) !! 3 = None
  /\ arrays (logged 3 initial_runtime) = arrays initial_runtime
  /\ readFileSync world_without_files (image_path 3) = None
  /\ decodeLog (outcome_runtime
                  (getDataSet (world_with white_image) 3 (logged 3 initial_runtime)))
     = [3; 3]
  /\ exists dataSet σ'',
       getDataSet (world_with white_image) 3 (logged 3 initial_runtime)
       = Returned dataSet σ''
       /\ dataCache σ'' = <[3 := dataSet]> (dataCache initial_runtime).
Proof.
  assert (Hthrown : getDataSet world_without_files 3 initial_runtime
                    = Thrown (CouldNotFindImage "raw_data/usps_3.jpg")
                        (logged 3 initial_runtime)).
  { rewrite getDataSet_miss by apply lookup_empty. reflexivity. }
  destruct (getDataSet_failure_leaves_cache _ _ _ _ _ Hthrown)
    as (Hcache & Hnone & Harrays & [_ Hread] & Hretry & Hsuccess).
  split; [exact Hthrown|]. split; [exact Hcache|]. split; [exact Hnone|].
  split; [exact Harrays|]. split; [exact Hread|]. split; [exact (Hretry _)|].
  destruct (Hsuccess (world_with white_image) [] white_image eq_refl eq_refl)
    as (dataSet & σ'' & Hreturned & Hstored & _).
  { intros Hlt. apply Qltb_lt in Hlt. by rewrite white_image_enough in Hlt. }
  exists dataSet, σ''. split; [exact Hreturned | exact Hstored].
Defined.

(** C8 on two small data sets. *)
Lemma combineDataSets_concatenates_witness :
  let dataSets :=
    [{| trainingSet := 0; testingSet := 1 |}; {| trainingSet := 2; testingSet := 3 |}] in
  (forall dataSet, dataSet ∈ dataSets ->
                   (trainingSet dataSet < length (arrays two_data_sets_runtime))%nat
                   /\ (testingSet dataSet < length (arrays two_data_sets_runtime))%nat)
  /\ exists result σ',
       combineDataSets world_without_files dataSets false two_data_sets_runtime
       = Returned result σ'
       /\ array_at σ' (trainingSet result)
          = [{| digit := 1; matrix := [1; 0] |}; {| digit := 2; matrix := [0; 0] |}]
       /\ array_at σ' (testingSet result)
          = [{| digit := 1; matrix := [0; 1] |}; {| digit := 1; matrix := [1; 1] |}]
       /\ (forall ref, (ref < length (arrays two_data_sets_runtime))%nat ->
                       array_at σ' ref = array_at two_data_sets_runtime ref)
       /\ dataCache σ' = dataCache two_data_sets_runtime.
Proof.
  intros dataSets.
  assert (Hin : forall dataSet, dataSet ∈ dataSets ->
                  (trainingSet dataSet < length (arrays two_data_sets_runtime))%nat
                  /\ (testingSet dataSet < length (arrays two_data_sets_runtime))%nat).
  { intros dataSet Hds. unfold dataSets in Hds.
    apply elem_of_cons in Hds as [->|Hds]; [cbn; lia|].
    apply list_elem_of_singleton in Hds as ->. cbn. lia. }
  split; [exact Hin|].
  destruct (combineDataSets_concatenates world_without_files dataSets two_data_sets_runtime Hin)
    as (result & σ' & Hrun & Htr & Hte & _ & _ & Hold & _ & Hcache & _).
  exists result, σ'. split; [exact Hrun|]. split; [exact Htr|]. split; [exact Hte|].
  split; [exact Hold | exact Hcache].
Defined.

Lemma one_cell_image_few :
  (image_rows one_cell_image * image_columns one_cell_image < inject_Z DATA_SET_SIZE)%Q.
Proof. apply Qltb_lt. rewrite too_few_cells_test. reflexivity. Qed.

(** C5 on an image of a single cell. *)
Lemma buildDataSet_insufficient_cells_witness :
  (image_rows one_cell_image * image_columns one_cell_image < inject_Z DATA_SET_SIZE)%Q
  /\ exists e σ', buildDataSet 7 one_cell_image initial_runtime = Thrown e σ'.
Proof.
  split; [apply one_cell_image_few|].
  apply (proj1 (buildDataSet_insufficient_cells 7 one_cell_image initial_runtime)).
  apply one_cell_image_few.
Defined.

(** With a file that decodes to an image of too few cells, a call for a label
    that is not cached goes through the decode path and throws. *)
Lemma getDataSet_few_cells_thrown imageData label σ :
  dataCache σ !! label = None ->
  (image_rows imageData * image_columns imageData < inject_Z DATA_SET_SIZE)%Q ->
  getDataSet (world_with imageData) label σ
  = Thrown (LessImagesThanExpected (image_rows imageData * image_columns imageData))
      (logged label σ).
Proof.
  intros Hcache Hfew. rewrite getDataSet_miss by done.
  cbn [world_with readFileSync jpeg_decode].
  by rewrite buildDataSet_throws by (by apply Qltb_lt).
Qed.

(** C3 as stated fails for a label whose call fails: with a file that
    decodes to an image of a single cell, the call for label 5 decodes the
    file and throws, and the next call for label 5 decodes the file again and
    throws again; the decode path has run twice for the label and no result
    was returned. *)
Lemma getDataSet_failed_label_decoded_again :
  let w := world_with one_cell_image in
  let first := getDataSet w 5 initial_runtime in
  let second := getDataSet w 5 (outcome_runtime first) in
  (exists found, first = Thrown (LessImagesThanExpected found) (outcome_runtime first))
  /\ (exists found, second = Thrown (LessImagesThanExpected found) (outcome_runtime second))
  /\ decodeLog (outcome_runtime first) = [5]
  /\ decodeLog (outcome_runtime second) = [5; 5]
  /\ ~ (forall (world : World) (label : Z) (σ : Runtime),
          decodeLog (outcome_runtime
                       (getDataSet world label (outcome_runtime (getDataSet world label σ))))
          = decodeLog (outcome_runtime (getDataSet world label σ))).
Proof.
  intros w first second.
  assert (Hfirst : first
                   = Thrown (LessImagesThanExpected
                               (image_rows one_cell_image * image_columns one_cell_image))
                       (logged 5 initial_runtime)).
  { apply getDataSet_few_cells_thrown; [apply lookup_empty | apply one_cell_image_few]. }
  assert (Hsecond : second
                    = Thrown (LessImagesThanExpected
                                (image_rows one_cell_image * image_columns one_cell_image))
                        (logged 5 (logged 5 initial_runtime))).
  { unfold second. rewrite Hfirst. cbn [outcome_runtime].
    apply getDataSet_few_cells_thrown; [apply lookup_empty | apply one_cell_image_few]. }
  assert (Hlog1 : decodeLog (outcome_runtime first) = [5]) by (by rewrite Hfirst).
  assert (Hlog2 : decodeLog (outcome_runtime second) = [5; 5]) by (by rewrite Hsecond).
  split; [rewrite Hfirst; by eexists|]. split; [rewrite Hsecond; by eexists|].
  split; [exact Hlog1|]. split; [exact Hlog2|].
  intros Hclaim. specialize (Hclaim w 5 initial_runtime).
  fold first in Hclaim. fold second in Hclaim. rewrite Hlog1, Hlog2 in Hclaim. discriminate.
Qed.

(** * Further properties *)

(** ** printImage: the rows it writes *)

Lemma rem_is_zero_spec i size :
  0 <= i -> 0 < size -> rem_is_zero i size = true <-> i mod size = 0.
Proof.
  intros Hi Hsize. unfold rem_is_zero.
  destruct (Z.eqb_spec size 0) as [|_]; [lia|].
  rewrite Z.rem_mod_nonneg by lia. apply Z.eqb_eq.
Qed.

(** As long as no index is a multiple of the size, the elements pile up in
    [output] and nothing is written. *)
Lemma printImage_loop_fill imageData (j : nat) i size threshold symbol output sink :
  0 <= i -> 0 < size -> (j <= length imageData)%nat ->
  (forall t, 0 <= t < Z.of_nat j -> (i + t) mod size <> 0) ->
  printImage_loop imageData i size threshold symbol output sink
  = printImage_loop (drop j imageData) (i + Z.of_nat j) size threshold symbol
      (output +:+ joined (glyph threshold symbol <$> take j imageData)) sink.
Proof.
  revert imageData i output.
  induction j as [|j IH]; intros imageData i output Hi Hsize Hj Hfree.
  { rewrite drop_0, take_0, Z.add_0_r. cbn [fmap list_fmap joined foldr].
    by rewrite string_app_empty_r. }
  destruct imageData as [|pixel rest]; [cbn in Hj; lia|].
  cbn [printImage_loop drop take fmap list_fmap joined foldr].
  fold (glyph threshold symbol pixel). fold (joined (glyph threshold symbol <$> take j rest)).
  destruct (rem_is_zero i size) eqn:Hflush.
  { apply rem_is_zero_spec in Hflush; [|done..]. destruct (Hfree 0); [lia|].
    by rewrite Z.add_0_r. }
  rewrite (IH rest (i + 1)).
  - f_equal; [lia | by rewrite string_app_assoc].
  - lia.
  - done.
  - cbn in Hj. lia.
  - intros t Ht. replace (i + 1 + t) with (i + (t + 1)) by lia. apply Hfree. lia.
Qed.

(** Just after a flush: the next [size] elements make one string. *)
Lemma printImage_loop_row imageData (k : Z) size threshold symbol sink :
  0 <= k -> 0 < size -> (Z.to_nat size <= length imageData)%nat ->
  printImage_loop imageData (1 + k * size) size threshold symbol "" sink
  = printImage_loop (drop (Z.to_nat size) imageData) (1 + (k + 1) * size) size threshold
      symbol "" (sink ++ [joined (glyph threshold symbol <$> take (Z.to_nat size) imageData)]).
Proof.
  intros Hk Hsize Hlen.
  rewrite (printImage_loop_fill imageData (Z.to_nat size - 1)); [|nia|done|lia|].
  2:{ intros t Ht. replace (1 + k * size + t) with ((1 + t) + k * size) by lia.
      rewrite Z.mod_add by lia. rewrite Z.mod_small; lia. }
  destruct (drop (Z.to_nat size - 1) imageData) as [|pixel rest] eqn:Hdrop.
  { apply (f_equal length) in Hdrop. rewrite length_drop in Hdrop. cbn in Hdrop. lia. }
  cbn [printImage_loop].
  assert (Hflush : rem_is_zero (1 + k * size + Z.of_nat (Z.to_nat size - 1)) size = true).
  { apply rem_is_zero_spec; [nia | done |].
    replace (1 + k * size + Z.of_nat (Z.to_nat size - 1)) with (0 + (k + 1) * size) by lia.
    by rewrite Z.mod_add by lia. }
  rewrite Hflush.
  assert (Hp : imageData !! (Z.to_nat size - 1)%nat = Some pixel).
  { rewrite <- (Nat.add_0_r (Z.to_nat size - 1)), <- lookup_drop, Hdrop. done. }
  assert (Hrest : rest = drop (Z.to_nat size) imageData).
  { rewrite (drop_S _ _ _ Hp) in Hdrop. injection Hdrop as <-.
    f_equal. lia. }
  assert (Htake : take (Z.to_nat size) imageData
                  = take (Z.to_nat size - 1) imageData ++ [pixel]).
  { replace (Z.to_nat size) with (S (Z.to_nat size - 1)) at 1 by lia.
    by rewrite (take_S_r _ _ _ Hp). }
  rewrite Htake, fmap_app, joined_app. cbn [fmap list_fmap joined foldr].
  rewrite string_app_empty_r. change ("" +:+ ?s)%string with s.
  fold (glyph threshold symbol pixel). rewrite <- Hrest.
  f_equal. lia.
Qed.

(** X1. Whatever the size, [printImage] writes every element once and in
    order: the strings it writes, put end to end, are the symbol for each
    element above the threshold and a space for each of the others. *)
Theorem printImage_writes_every_element (imageData : list Q) (size : Z) (threshold : Q)
    (symbol : string) :
  joined (printImage imageData size threshold symbol)
  = joined ((fun pixel => if Qltb threshold pixel then symbol else " "%string) <$> imageData).
Proof. apply printImage_joined. Qed.


Lemma printImage_loop_rows (q : nat) rest (k : Z) size threshold symbol sink :
  0 <= k -> 0 < size ->
  (q * Z.to_nat size <= length rest < (q + 1) * Z.to_nat size)%nat ->
  printImage_loop rest (1 + k * size) size threshold symbol "" sink
  = (joined (glyph threshold symbol <$> drop (q * Z.to_nat size) rest),
     sink ++ ((fun j => joined (glyph threshold symbol
                                  <$> take (Z.to_nat size) (drop (j * Z.to_nat size) rest)))
              <$> seq 0 q)).
Proof.
  revert rest k sink. induction q as [|q IH]; intros rest k sink Hk Hsize Hlen.
  - assert (Hfree : forall t, 0 <= t < Z.of_nat (length rest) ->
                                (1 + k * size + t) mod size <> 0).
    { intros t Ht. replace (1 + k * size + t) with ((1 + t) + k * size) by lia.
      rewrite Z.mod_add by lia. rewrite Z.mod_small; lia. }
    assert (Hi : 0 <= 1 + k * size) by nia.
    rewrite (printImage_loop_fill rest (length rest) _ _ _ _ _ _ Hi Hsize (le_n _) Hfree).
    rewrite drop_all, firstn_all. cbn [printImage_loop seq fmap list_fmap Nat.mul drop].
    change ("" +:+ ?s)%string with s. by rewrite app_nil_r.
  - rewrite printImage_loop_row by (done || lia).
    rewrite (IH (drop (Z.to_nat size) rest) (k + 1)); [|lia|done|].
    2:{ rewrite length_drop. lia. }
    rewrite drop_drop. cbn [seq fmap list_fmap Nat.mul Nat.add drop].
    rewrite <- fmap_S_seq, <- list_fmap_compose, <- app_assoc. cbn [app].
    rewrite drop_0. do 3 f_equal.
    apply list_fmap_ext. intros _ j _. cbn. rewrite drop_drop. by do 3 f_equal.
Qed.

(** X2. For a positive size, what [printImage] writes for a matrix that is
    not empty: a first string with the first element alone, then one string
    for each full group of [size] of the other elements, and a last string
    with the elements left over (empty when none is left). *)
Theorem printImage_rows (pixel : Q) (rest : list Q) (size : Z) (threshold : Q)
    (symbol : string) :
  0 < size ->
  printImage (pixel :: rest) size threshold symbol
  = [glyph threshold symbol pixel]
    ++ ((fun j => joined (glyph threshold symbol
                            <$> take (Z.to_nat size) (drop (j * Z.to_nat size) rest)))
        <$> seq 0 (length rest / Z.to_nat size))
    ++ [joined (glyph threshold symbol
                  <$> drop (length rest / Z.to_nat size * Z.to_nat size) rest)].
Proof.
  intros Hsize. unfold printImage. cbn [printImage_loop].
  assert (Hflush : rem_is_zero 0 size = true) by (by apply rem_is_zero_spec).
  rewrite Hflush. change (0 + 1) with (1 + 0 * size).
  rewrite (printImage_loop_rows (length rest / Z.to_nat size)); [|done|done|].
  2:{ pose proof (Nat.div_mod_eq (length rest) (Z.to_nat size)).
      pose proof (Nat.mod_upper_bound (length rest) (Z.to_nat size)). lia. }
  change ("" +:+ ?s)%string with s. fold (glyph threshold symbol pixel).
  by rewrite <- app_assoc.
Qed.

Lemma printImage_rows_witness :
  0 < 3
  /\ printImage [1; 0; 1; 1; 0; 1; 1; 1]%Q 3 (1 # 2) "#"
     = ["#"; " ##"; " ##"; "#"]%string.
Proof. split; [lia|]. exact (printImage_rows 1 [0; 1; 1; 0; 1; 1; 1]%Q 3 (1 # 2) "#" eq_refl). Defined.

Lemma printImage_loop_no_size imageData i threshold symbol output sink :
  printImage_loop imageData i 0 threshold symbol output sink
  = ((output +:+ joined (glyph threshold symbol <$> imageData))%string, sink).
Proof.
  revert i output. induction imageData as [|pixel rest IH]; intros i output.
  { cbn. by rewrite string_app_empty_r. }
  cbn [printImage_loop rem_is_zero Z.eqb]. rewrite IH.
  cbn [fmap list_fmap joined foldr]. fold (glyph threshold symbol pixel).
  by rewrite string_app_assoc.
Qed.

(** X3. With the size 0 the test [i % size === 0] never holds ([NaN]): the
    whole matrix is written as a single string; and an empty matrix is
    written as one empty string, whatever the size. *)
Theorem printImage_single_string (threshold : Q) (symbol : string) :
  (forall imageData,
      printImage imageData 0 threshold symbol = [joined (glyph threshold symbol <$> imageData)])
  /\ (forall size, printImage [] size threshold symbol = [""%string]).
Proof.
  split; [|done]. intros imageData. unfold printImage.
  rewrite printImage_loop_no_size. by change ("" +:+ ?s)%string with s.
Qed.

(** ** buildDataSet: every cell of the grid, in order *)

Lemma omap_length_le {A B} (f : A -> option B) (l : list A) :
  (length (omap f l) <= length l)%nat.
Proof.
  induction l as [|x l IH]; [done|]. cbn. destruct (f x); cbn; lia.
Qed.

(** X4. When the image has enough cells [buildDataSet] returns, and the
    training set followed by the testing set is the list of the samples of
    the accepted cells, in the order of the grid: the training set takes the
    accepted cells among the first 549, the testing set those among all the
    others, up to the last cell of the grid.  So the training set never has
    more than 549 samples and the two sets never more than there are cells. *)
Theorem buildDataSet_accepted_in_order (label : Z) (image : IImageData) (σ : Runtime) :
  ~ (image_rows image * image_columns image < inject_Z DATA_SET_SIZE)%Q ->
  exists dataSet σ',
    buildDataSet label image σ = Returned dataSet σ'
    /\ array_at σ' (trainingSet dataSet)
       = omap (cell_sample label image) (take 549 (image_cells image))
    /\ array_at σ' (testingSet dataSet)
       = omap (cell_sample label image) (drop 549 (image_cells image))
    /\ array_at σ' (trainingSet dataSet) ++ array_at σ' (testingSet dataSet)
       = omap (cell_sample label image) (image_cells image)
    /\ (length (array_at σ' (trainingSet dataSet)) <= 549)%nat
    /\ (length (array_at σ' (trainingSet dataSet))
        + length (array_at σ' (testingSet dataSet)) <= length (image_cells image))%nat.
Proof.
  intros Henough.
  assert (Htest : Qltb (image_rows image * image_columns image) (inject_Z DATA_SET_SIZE)
                  = false).
  { destruct (Qltb _ _) eqn:E; [|done]. by apply Qltb_lt in E. }
  eexists _, _. split; [by apply buildDataSet_returns|].
  cbn [trainingSet testingSet].
  destruct (array_at_new (arrays σ)
              (omap (cell_sample label image)
                 (take (Z.to_nat (TRAINING_SET_SIZE - 1)) (image_cells image)))
              (omap (cell_sample label image)
                 (drop (Z.to_nat (TRAINING_SET_SIZE - 1)) (image_cells image)))
              (dataCache σ) (decodeLog σ) (shuffles σ)) as [-> ->].
  change (Z.to_nat (TRAINING_SET_SIZE - 1)) with 549%nat.
  split; [done|]. split; [done|]. split; [by rewrite <- omap_app, take_drop|].
  pose proof (omap_length_le (cell_sample label image) (take 549 (image_cells image))) as Htr.
  pose proof (omap_length_le (cell_sample label image) (drop 549 (image_cells image))) as Hte.
  rewrite length_take in Htr. rewrite length_drop in Hte. split; lia.
Qed.

Lemma white_image_enough_cells :
  ~ (image_rows white_image * image_columns white_image < inject_Z DATA_SET_SIZE)%Q.
Proof. intros Hlt. apply Qltb_lt in Hlt. by rewrite white_image_enough in Hlt. Qed.

Lemma buildDataSet_accepted_in_order_witness :
  ~ (image_rows white_image * image_columns white_image < inject_Z DATA_SET_SIZE)%Q
  /\ exists dataSet σ',
       buildDataSet 7 white_image initial_runtime = Returned dataSet σ'
       /\ array_at σ' (trainingSet dataSet)
          = omap (cell_sample 7 white_image) (take 549 (image_cells white_image))
       /\ array_at σ' (testingSet dataSet)
          = omap (cell_sample 7 white_image) (drop 549 (image_cells white_image))
       /\ array_at σ' (trainingSet dataSet) ++ array_at σ' (testingSet dataSet)
          = omap (cell_sample 7 white_image) (image_cells white_image)
       /\ (length (array_at σ' (trainingSet dataSet)) <= 549)%nat
       /\ (length (array_at σ' (trainingSet dataSet))
           + length (array_at σ' (testingSet dataSet))
           <= length (image_cells white_image))%nat.
Proof.
  split; [apply white_image_enough_cells|].
  apply (buildDataSet_accepted_in_order 7 white_image initial_runtime).
  apply white_image_enough_cells.
Defined.

(** X5. [buildDataSet] does not stop at [DATA_SET_SIZE] cells: when every
    cell of the grid is accepted, the training set has 549 samples (all the
    cells, if there are fewer) and the testing set one for each of the other
    cells, however many there are. *)
Theorem buildDataSet_keeps_every_cell (label : Z) (image : IImageData) (σ : Runtime) :
  ~ (image_rows image * image_columns image < inject_Z DATA_SET_SIZE)%Q ->
  (forall cell, cell ∈ image_cells image -> is_Some (cell_image image cell)) ->
  exists dataSet σ',
    buildDataSet label image σ = Returned dataSet σ'
    /\ length (array_at σ' (trainingSet dataSet)) = (549 `min` length (image_cells image))%nat
    /\ length (array_at σ' (testingSet dataSet)) = (length (image_cells image) - 549)%nat.
Proof.
  intros Henough Hall.
  assert (Htest : Qltb (image_rows image * image_columns image) (inject_Z DATA_SET_SIZE)
                  = false).
  { destruct (Qltb _ _) eqn:E; [|done]. by apply Qltb_lt in E. }
  eexists _, _. split; [by apply buildDataSet_returns|].
  cbn [trainingSet testingSet].
  destruct (array_at_new (arrays σ)
              (omap (cell_sample label image)
                 (take (Z.to_nat (TRAINING_SET_SIZE - 1)) (image_cells image)))
              (omap (cell_sample label image)
                 (drop (Z.to_nat (TRAINING_SET_SIZE - 1)) (image_cells image)))
              (dataCache σ) (decodeLog σ) (shuffles σ)) as [-> ->].
  change (Z.to_nat (TRAINING_SET_SIZE - 1)) with 549%nat.
  assert (Hsample : forall cell, cell ∈ image_cells image ->
                                 is_Some (cell_sample label image cell)).
  { intros cell Hcell. unfold cell_sample. destruct (Hall cell Hcell) as [m ->]. by eexists. }
  rewrite !omap_length_all, length_take, length_drop.
  - done.
  - intros cell Hcell. apply Hsample. by eapply subseteq_drop.
  - intros cell Hcell. apply Hsample. by eapply subseteq_take.
Qed.

Lemma tall_white_image_flags :
  forallb
    (fun cell => accepted (greyscale_cell_image (fun _ => "255"%byte) 292864 416 cell))
    (cells (inject_Z 704 / inject_Z IMAGE_SIZE) (inject_Z 416 / inject_Z IMAGE_SIZE))
  = true.
Proof. vm_compute. reflexivity. Qed.

Lemma tall_white_image_accepted cell :
  cell ∈ image_cells tall_white_image -> is_Some (cell_image tall_white_image cell).
Proof.
  intros Hcell. pose proof tall_white_image_flags as H.
  rewrite forallb_forall in H. apply list_elem_of_In, H in Hcell.
  rewrite (cell_image_greyscale (fun _ => "255"%byte) 292864) by done.
  change (height tall_white_image) with 416.
  revert Hcell. generalize (greyscale_cell_image (fun _ => "255"%byte) 292864 416 cell).
  intros [m|]; [by exists m | discriminate].
Qed.

Lemma tall_white_image_enough_cells :
  ~ (image_rows tall_white_image * image_columns tall_white_image
     < inject_Z DATA_SET_SIZE)%Q.
Proof.
  intros Hlt. apply Qltb_lt in Hlt. rewrite too_few_cells_test in Hlt. discriminate Hlt.
Qed.

Lemma tall_white_image_cells : length (image_cells tall_white_image) = 1144%nat.
Proof.
  unfold image_cells. by rewrite cells_length, iterations_image_rows, iterations_image_columns.
Qed.

(** On an image of 1144 white cells: 549 training and 595 testing samples. *)
Lemma buildDataSet_keeps_every_cell_witness :
  ~ (image_rows tall_white_image * image_columns tall_white_image
     < inject_Z DATA_SET_SIZE)%Q
  /\ (forall cell, cell ∈ image_cells tall_white_image ->
                   is_Some (cell_image tall_white_image cell))
  /\ exists dataSet σ',
       buildDataSet 7 tall_white_image initial_runtime = Returned dataSet σ'
       /\ length (array_at σ' (trainingSet dataSet)) = 549%nat
       /\ length (array_at σ' (testingSet dataSet)) = 595%nat.
Proof.
  split; [apply tall_white_image_enough_cells|].
  split; [apply tall_white_image_accepted|].
  destruct (buildDataSet_keeps_every_cell 7 tall_white_image initial_runtime
              tall_white_image_enough_cells tall_white_image_accepted)
    as (dataSet & σ' & Hbuild & Htr & Hte).
  exists dataSet, σ'. split; [exact Hbuild|].
  rewrite tall_white_image_cells in Htr, Hte. split; [exact Htr | exact Hte].
Defined.

Lemma omap_all_rejected {A B} (f : A -> option B) (l : list A) :
  (forall x, x ∈ l -> f x = None) -> omap f l = [].
Proof.
  induction l as [|x l IH]; intros H; [done|].
  cbn. rewrite (H x) by left. apply IH. intros y Hy. apply H. by right.
Qed.

(** X6. Rejected cells are no error: when the image has enough cells and
    [subImage] rejects every one of them, [buildDataSet] returns a data set
    whose training and testing sets are both empty. *)
Theorem buildDataSet_all_rejected (label : Z) (image : IImageData) (σ : Runtime) :
  ~ (image_rows image * image_columns image < inject_Z DATA_SET_SIZE)%Q ->
  (forall cell, cell ∈ image_cells image -> cell_image image cell = None) ->
  exists dataSet σ',
    buildDataSet label image σ = Returned dataSet σ'
    /\ array_at σ' (trainingSet dataSet) = []
    /\ array_at σ' (testingSet dataSet) = [].
Proof.
  intros Henough Hnone.
  assert (Htest : Qltb (image_rows image * image_columns image) (inject_Z DATA_SET_SIZE)
                  = false).
  { destruct (Qltb _ _) eqn:E; [|done]. by apply Qltb_lt in E. }
  eexists _, _. split; [by apply buildDataSet_returns|].
  cbn [trainingSet testingSet].
  destruct (array_at_new (arrays σ)
              (omap (cell_sample label image)
                 (take (Z.to_nat (TRAINING_SET_SIZE - 1)) (image_cells image)))
              (omap (cell_sample label image)
                 (drop (Z.to_nat (TRAINING_SET_SIZE - 1)) (image_cells image)))
              (dataCache σ) (decodeLog σ) (shuffles σ)) as [-> ->].
  assert (Hsample : forall cell, cell ∈ image_cells image ->
                                 cell_sample label image cell = None).
  { intros cell Hcell. unfold cell_sample. by rewrite (Hnone cell Hcell). }
  split; apply omap_all_rejected; intros cell Hcell; apply Hsample.
  - by eapply subseteq_take.
  - by eapply subseteq_drop.
Qed.

Lemma black_image_flags :
  forallb
    (fun cell => negb (accepted (greyscale_cell_image (fun _ => "000"%byte) 281600 400 cell)))
    (cells (inject_Z 704 / inject_Z IMAGE_SIZE) (inject_Z 400 / inject_Z IMAGE_SIZE))
  = true.
Proof. vm_compute. reflexivity. Qed.

Lemma black_image_rejected cell :
  cell ∈ image_cells black_image -> cell_image black_image cell = None.
Proof.
  intros Hcell. pose proof black_image_flags as H.
  rewrite forallb_forall in H. apply list_elem_of_In, H in Hcell.
  rewrite (cell_image_greyscale (fun _ => "000"%byte) 281600) by done.
  change (height black_image) with 400.
  revert Hcell. generalize (greyscale_cell_image (fun _ => "000"%byte) 281600 400 cell).
  intros [m|]; [discriminate | done].
Qed.

Lemma black_image_enough_cells :
  ~ (image_rows black_image * image_columns black_image < inject_Z DATA_SET_SIZE)%Q.
Proof.
  intros Hlt. apply Qltb_lt in Hlt. rewrite too_few_cells_test in Hlt. discriminate Hlt.
Qed.

(** On the black image of 44 by 25 cells. *)
Lemma buildDataSet_all_rejected_witness :
  ~ (image_rows black_image * image_columns black_image < inject_Z DATA_SET_SIZE)%Q
  /\ (forall cell, cell ∈ image_cells black_image -> cell_image black_image cell = None)
  /\ exists dataSet σ',
       buildDataSet 7 black_image initial_runtime = Returned dataSet σ'
       /\ array_at σ' (trainingSet dataSet) = []
       /\ array_at σ' (testingSet dataSet) = [].
Proof.
  split; [apply black_image_enough_cells|]. split; [apply black_image_rejected|].
  exact (buildDataSet_all_rejected 7 black_image initial_runtime
           black_image_enough_cells black_image_rejected).
Defined.


(** X7. [buildDataSet] keeps nothing: called twice on the same image it
    builds twice.  The two data sets hold equal samples in four different
    arrays; the arrays that existed before and the cache are as they were. *)
Theorem buildDataSet_builds_again (label : Z) (image : IImageData) (σ : Runtime) :
  ~ (image_rows image * image_columns image < inject_Z DATA_SET_SIZE)%Q ->
  exists first σ1 second σ2,
    buildDataSet label image σ = Returned first σ1
    /\ buildDataSet label image σ1 = Returned second σ2
    /\ NoDup [trainingSet first; testingSet first; trainingSet second; testingSet second]
    /\ array_at σ2 (trainingSet second) = array_at σ2 (trainingSet first)
    /\ array_at σ2 (testingSet second) = array_at σ2 (testingSet first)
    /\ (forall ref, (ref < length (arrays σ))%nat -> array_at σ2 ref = array_at σ ref)
    /\ dataCache σ2 = dataCache σ
    /\ decodeLog σ2 = decodeLog σ.
Proof.
  intros Henough.
  assert (Htest : Qltb (image_rows image * image_columns image) (inject_Z DATA_SET_SIZE)
                  = false).
  { destruct (Qltb _ _) eqn:E; [|done]. by apply Qltb_lt in E. }
  eexists _, _, _, _. split; [by apply buildDataSet_returns|].
  split; [by apply buildDataSet_returns|].
  cbn [trainingSet testingSet arrays dataCache decodeLog].
  set (tr := omap (cell_sample label image)
               (take (Z.to_nat (TRAINING_SET_SIZE - 1)) (image_cells image))).
  set (te := omap (cell_sample label image)
               (drop (Z.to_nat (TRAINING_SET_SIZE - 1)) (image_cells image))).
  rewrite length_app. cbn [length]. split.
  { repeat constructor; rewrite ?elem_of_cons, ?elem_of_nil; lia. }
  unfold array_at. cbn [arrays].
  split; [|split; [|split; [|done]]].
  - rewrite lookup_app_r by (rewrite length_app; cbn; lia).
    rewrite lookup_app_l by (rewrite length_app; cbn; lia).
    rewrite lookup_app_r by lia.
    rewrite length_app. cbn [length].
    by replace (length (arrays σ) + 2 - (length (arrays σ) + 2))%nat with 0%nat by lia;
       rewrite Nat.sub_diag.
  - rewrite lookup_app_r by (rewrite length_app; cbn; lia).
    rewrite lookup_app_l by (rewrite length_app; cbn; lia).
    rewrite lookup_app_r by lia.
    rewrite length_app. cbn [length].
    replace (S (length (arrays σ) + 2) - (length (arrays σ) + 2))%nat with 1%nat by lia.
    by replace (S (length (arrays σ)) - length (arrays σ))%nat with 1%nat by lia.
  - intros ref Href. by rewrite !lookup_app_l by (rewrite ?length_app; cbn; lia).
Qed.

Lemma buildDataSet_builds_again_witness :
  ~ (image_rows white_image * image_columns white_image < inject_Z DATA_SET_SIZE)%Q
  /\ exists first σ1 second σ2,
       buildDataSet 7 white_image initial_runtime = Returned first σ1
       /\ buildDataSet 7 white_image σ1 = Returned second σ2
       /\ NoDup [trainingSet first; testingSet first; trainingSet second; testingSet second]
       /\ array_at σ2 (trainingSet second) = array_at σ2 (trainingSet first)
       /\ array_at σ2 (testingSet second) = array_at σ2 (testingSet first)
       /\ (forall ref, (ref < length (arrays initial_runtime))%nat ->
                       array_at σ2 ref = array_at initial_runtime ref)
       /\ dataCache σ2 = dataCache initial_runtime
       /\ decodeLog σ2 = decodeLog initial_runtime.
Proof.
  split; [apply white_image_enough_cells|].
  apply (buildDataSet_builds_again 7 white_image initial_runtime).
  apply white_image_enough_cells.
Defined.

(** ** buildDataSet: images whose sides are not multiples of the cell size *)

Lemma ceiling_16 (n : Z) : - (- n / IMAGE_SIZE) = (n + 15) / IMAGE_SIZE.
Proof. unfold IMAGE_SIZE. Z.to_euclidean_division_equations. lia. Qed.

(** X8. The loops visit ceiling(width / 16) * ceiling(height / 16) cells: a
    strip of pixels short of a cell at the right or at the bottom of the
    image counts as a cell.  The test on the number of cells uses the exact
    quotients, so when [buildDataSet] returns (for sides that are not
    negative) at least [DATA_SET_SIZE] cells were visited. *)
Theorem buildDataSet_visits_partial_cells (label : Z) (image : IImageData) :
  length (image_cells image)
  = (Z.to_nat ((width image + 15) / IMAGE_SIZE)
     * Z.to_nat ((height image + 15) / IMAGE_SIZE))%nat
  /\ matrixCounter (buildDataSet_loops label image (image_rows image) (image_columns image))
     = Z.of_nat (length (image_cells image))
  /\ (0 <= width image -> 0 <= height image ->
      ~ (image_rows image * image_columns image < inject_Z DATA_SET_SIZE)%Q ->
      (Z.to_nat DATA_SET_SIZE <= length (image_cells image))%nat).
Proof.
  assert (Hcells : length (image_cells image)
                   = (Z.to_nat ((width image + 15) / IMAGE_SIZE)
                      * Z.to_nat ((height image + 15) / IMAGE_SIZE))%nat).
  { unfold image_cells.
    rewrite cells_length, iterations_image_rows, iterations_image_columns, !ceiling_16. lia. }
  split; [done|]. split; [by rewrite buildDataSet_loops_spec|].
  intros Hw Hh Henough. rewrite Hcells.
  assert (Htest : Qltb (image_rows image * image_columns image) (inject_Z DATA_SET_SIZE)
                  = false).
  { destruct (Qltb _ _) eqn:E; [|done]. by apply Qltb_lt in E. }
  rewrite too_few_cells_test in Htest. apply Z.ltb_ge in Htest.
  unfold DATA_SET_SIZE, IMAGE_SIZE in *.
  assert (Hr : width image <= 16 * ((width image + 15) / 16))
    by (Z.to_euclidean_division_equations; lia).
  assert (Hc : height image <= 16 * ((height image + 15) / 16))
    by (Z.to_euclidean_division_equations; lia).
  assert (0 <= (width image + 15) / 16) by (apply Z.div_pos; lia).
  assert (0 <= (height image + 15) / 16) by (apply Z.div_pos; lia).
  nia.
Qed.

(** On an image of 705 by 400 pixels: 45 by 25 cells. *)
Lemma buildDataSet_visits_partial_cells_witness :
  length (image_cells ragged_image) = 1125%nat
  /\ matrixCounter
       (buildDataSet_loops 7 ragged_image (image_rows ragged_image)
          (image_columns ragged_image)) = 1125
  /\ 0 <= width ragged_image
  /\ 0 <= height ragged_image
  /\ ~ (image_rows ragged_image * image_columns ragged_image < inject_Z DATA_SET_SIZE)%Q.
Proof.
  destruct (buildDataSet_visits_partial_cells 7 ragged_image) as (Hcells & Hcounter & _).
  change (length (image_cells ragged_image) = 1125%nat) in Hcells.
  rewrite Hcells in Hcounter.
  split; [exact Hcells|]. split; [exact Hcounter|].
  split; [discriminate|]. split; [discriminate|].
  intros Hlt. apply Qltb_lt in Hlt. rewrite too_few_cells_test in Hlt. discriminate Hlt.
Defined.

(** ** subImage: what it reads *)

(** The read for a pixel, on integers. *)
Lemma channel0_integer image cell row column :
  channel0 image cell row column
  = Uint8Array_get (data image)
      (inject_Z (4 * ((column + cell.2 * IMAGE_SIZE) - 1
                      + (row + cell.1 * IMAGE_SIZE) * (height image - IMAGE_SIZE)))).
Proof. unfold channel0, image_columns. apply Uint8Array_get_Qeq, byte_offset_integer. Qed.

Lemma pixel_value_channel0 image cell row column :
  pixel_value (cell.1 * IMAGE_SIZE) (cell.2 * IMAGE_SIZE) (image_columns image) (data image)
    row column
  = if js_gt (channel0 image cell row column) RGB_THRESHOLD then 1 else 0.
Proof. reflexivity. Qed.

Lemma cell_image_ext image1 image2 cell :
  (forall row column, channel0 image1 cell row column = channel0 image2 cell row column) ->
  cell_image image1 cell = cell_image image2 cell.
Proof.
  intros Hread. unfold cell_image. rewrite !subImage_spec.
  assert (Hbuilt : binarised (cell.1 * IMAGE_SIZE) (cell.2 * IMAGE_SIZE) IMAGE_SIZE
                     (image_columns image1) (data image1)
                   = binarised (cell.1 * IMAGE_SIZE) (cell.2 * IMAGE_SIZE) IMAGE_SIZE
                       (image_columns image2) (data image2)).
  { unfold binarised. apply list_bind_ext; [|done]. intros row.
    apply list_fmap_ext. intros _ column _.
    by rewrite !pixel_value_channel0, Hread. }
  by rewrite Hbuilt.
Qed.

Lemma omap_ext_all {A B} (f g : A -> option B) (l : list A) :
  (forall x, f x = g x) -> omap f l = omap g l.
Proof. intros Hfg. induction l as [|x l IH]; [done|]. cbn. by rewrite Hfg, IH. Qed.

(** X9. [buildDataSet] reads the channel 0 of the pixels and nothing else:
    two images of the same dimensions whose buffers hold the same bytes at
    the offsets that are multiples of 4 give the same outcome, whatever the
    other three channels hold. *)
Theorem buildDataSet_reads_channel_0_only (label : Z) (image1 image2 : IImageData)
    (σ : Runtime) :
  width image1 = width image2 ->
  height image1 = height image2 ->
  (forall k : nat, data image1 !! (4 * k)%nat = data image2 !! (4 * k)%nat) ->
  buildDataSet label image1 σ = buildDataSet label image2 σ.
Proof.
  intros Hw Hh Hdata.
  assert (Hrows : image_rows image1 = image_rows image2) by (unfold image_rows; by rewrite Hw).
  assert (Hcolumns : image_columns image1 = image_columns image2)
    by (unfold image_columns; by rewrite Hh).
  assert (Hcell : forall cell, cell_sample label image1 cell = cell_sample label image2 cell).
  { intros cell. unfold cell_sample. rewrite (cell_image_ext image1 image2 cell); [done|].
    intros row column.
    rewrite !channel0_integer, !Uint8Array_get_integer, Hh.
    destruct (Z.leb_spec 0
                (4 * (column + cell.2 * IMAGE_SIZE - 1
                      + (row + cell.1 * IMAGE_SIZE) * (height image2 - IMAGE_SIZE))))
      as [Hpos|]; [|done].
    set (pixel := column + cell.2 * IMAGE_SIZE - 1
                  + (row + cell.1 * IMAGE_SIZE) * (height image2 - IMAGE_SIZE)) in *.
    replace (Z.to_nat (4 * pixel)) with (4 * Z.to_nat pixel)%nat by lia.
    by rewrite Hdata. }
  destruct (Qltb (image_rows image1 * image_columns image1) (inject_Z DATA_SET_SIZE))
    eqn:Htest.
  - rewrite buildDataSet_throws by done. rewrite Hrows, Hcolumns in Htest.
    rewrite buildDataSet_throws by done. by rewrite Hrows, Hcolumns.
  - rewrite buildDataSet_returns by done. rewrite Hrows, Hcolumns in Htest.
    rewrite buildDataSet_returns by done.
    unfold image_cells. rewrite Hrows, Hcolumns.
    rewrite (omap_ext_all (cell_sample label image1) (cell_sample label image2)
               (take _ _) Hcell).
    by rewrite (omap_ext_all (cell_sample label image1) (cell_sample label image2)
                  (drop _ _) Hcell).
Qed.

(** The two generated buffers hold the same bytes in the channel 0. *)
Lemma channel_0_only_lookup shade pixelCount (k : nat) :
  greyscale shade pixelCount !! (4 * k)%nat = channel_0_only shade pixelCount !! (4 * k)%nat.
Proof.
  unfold greyscale, channel_0_only.
  destruct (decide (k < Z.to_nat pixelCount)%nat) as [Hk|Hk].
  - replace (4 * k)%nat with (k * length (range 4) + 0)%nat by (rewrite range_length; lia).
    rewrite (grid_lookup _ _ _ k 0%nat (Z.of_nat k) 0)
      by (apply range_lookup; lia).
    by rewrite (grid_lookup _ _ _ k 0%nat (Z.of_nat k) 0)
      by (apply range_lookup; lia).
  - rewrite !lookup_ge_None_2; [done | |]; rewrite grid_length, !range_length; lia.
Qed.

Lemma channel_0_white_image_lookup (k : nat) :
  data white_image !! (4 * k)%nat = data channel_0_white_image !! (4 * k)%nat.
Proof. apply channel_0_only_lookup. Qed.

(** The two buffers differ in the channel 1 of the first pixel. *)
Lemma channel_0_white_image_differs :
  data white_image !! 1%nat = Some "255"%byte
  /\ data channel_0_white_image !! 1%nat = Some "000"%byte.
Proof.
  split.
  - apply (grid_lookup
             (fun pixel channel => if (channel =? 3)%Z then "255"%byte else "255"%byte)
             (range (Z.to_nat 281600)) (range 4) 0 1 0 1); apply range_lookup; lia.
  - apply (grid_lookup
             (fun pixel channel => if (channel =? 0)%Z then "255"%byte else "000"%byte)
             (range (Z.to_nat 281600)) (range 4) 0 1 0 1); apply range_lookup; lia.
Qed.

(** X9 on two images of 44 by 25 cells that are read: the white image and
    the image with the same channel 0 and the other channels cleared differ at
    the offset 1 and give the same data set, which holds the sample of the
    first cell. *)
Lemma buildDataSet_reads_channel_0_only_witness :
  width white_image = width channel_0_white_image
  /\ height white_image = height channel_0_white_image
  /\ (forall k : nat, data white_image !! (4 * k)%nat
                      = data channel_0_white_image !! (4 * k)%nat)
  /\ data white_image !! 1%nat <> data channel_0_white_image !! 1%nat
  /\ buildDataSet 7 white_image initial_runtime
     = buildDataSet 7 channel_0_white_image initial_runtime
  /\ exists dataSet σ',
       buildDataSet 7 channel_0_white_image initial_runtime = Returned dataSet σ'
       /\ first_white_sample ∈ array_at σ' (trainingSet dataSet).
Proof.
  assert (Hwidth : width white_image = width channel_0_white_image)
    by (change (704 = 704); reflexivity).
  assert (Hheight : height white_image = height channel_0_white_image)
    by (change (400 = 400); reflexivity).
  pose proof (buildDataSet_reads_channel_0_only 7 white_image channel_0_white_image
                initial_runtime Hwidth Hheight channel_0_white_image_lookup) as Hsame.
  split; [exact Hwidth|]. split; [exact Hheight|].
  split; [exact channel_0_white_image_lookup|].
  split.
  { destruct channel_0_white_image_differs as [-> ->]. discriminate. }
  split; [exact Hsame|].
  rewrite <- Hsame, (buildDataSet_returns 7 white_image initial_runtime white_image_enough).
  eexists _, _. split; [reflexivity|].
  change (first_white_sample
          ∈ omap (cell_sample 7 white_image)
              (take (Z.to_nat (TRAINING_SET_SIZE - 1)) (image_cells white_image))).
  apply list_elem_of_omap. exists (0, 0). split; [|apply white_image_first_cell].
  apply elem_of_take. exists 0%nat. split; [|unfold TRAINING_SET_SIZE; lia].
  apply (cells_lookup _ _ 0 0).
  - rewrite iterations_image_rows. change (0 < 44)%nat. lia.
  - rewrite iterations_image_columns. change (0 < 25)%nat. lia.
Defined.

Lemma elem_of_whole_image_cells image cell :
  (IMAGE_SIZE | width image) -> (IMAGE_SIZE | height image) ->
  cell ∈ image_cells image ->
  0 <= cell.1 * IMAGE_SIZE /\ cell.1 * IMAGE_SIZE + IMAGE_SIZE <= width image
  /\ 0 <= cell.2 * IMAGE_SIZE /\ cell.2 * IMAGE_SIZE + IMAGE_SIZE <= height image.
Proof.
  intros [r Hr] [c Hc] Hcell. unfold image_cells in Hcell.
  apply elem_of_cells in Hcell as [Hri Hci].
  rewrite iterations_image_rows in Hri. rewrite iterations_image_columns in Hci.
  rewrite Hr in Hri |- *. rewrite Hc in Hci |- *. unfold IMAGE_SIZE in *.
  replace (- (- (r * 16) / 16)) with r in Hri
    by (rewrite <- Z.mul_opp_l, Z.div_mul by lia; lia).
  replace (- (- (c * 16) / 16)) with c in Hci
    by (rewrite <- Z.mul_opp_l, Z.div_mul by lia; lia).
  lia.
Qed.

(** X10. In an image whose sides are multiples of the cell size, at least two
    cells high, with a buffer of 4 bytes for each pixel, the reads of
    [subImage] for the cells of the grid never pass the end of the buffer, and
    exactly one falls before its start: the pixel [(0, 0)] of the first
    cell. *)
Theorem subImage_reads_in_bounds (image : IImageData) (cell : Z * Z) (row column : Z) :
  (IMAGE_SIZE | width image) -> (IMAGE_SIZE | height image) ->
  2 * IMAGE_SIZE <= height image ->
  Z.of_nat (length (data image)) = 4 * (width image * height image) ->
  cell ∈ image_cells image ->
  0 <= row < IMAGE_SIZE -> 0 <= column < IMAGE_SIZE ->
  channel0 image cell row column = None <-> cell = (0, 0) /\ row = 0 /\ column = 0.
Proof.
  intros Hw Hh Hhigh Hlen Hcell Hrow Hcolumn.
  destruct (elem_of_whole_image_cells image cell Hw Hh Hcell) as (Hx0 & Hx1 & Hy0 & Hy1).
  rewrite channel0_integer, Uint8Array_get_integer.
  set (pixel := column + cell.2 * IMAGE_SIZE - 1
                + (row + cell.1 * IMAGE_SIZE) * (height image - IMAGE_SIZE)).
  unfold IMAGE_SIZE in *.
  assert (Hupper : pixel < width image * height image) by (unfold pixel; nia).
  destruct (Z.leb_spec 0 (4 * pixel)) as [Hpos|Hneg].
  - split.
    + intros Hnone. apply fmap_None, lookup_ge_None in Hnone. lia.
    + intros (-> & -> & ->). cbn in pixel. unfold pixel in Hpos. lia.
  - split; [|done]. intros _.
    assert (Horigin : row + cell.1 * 16 = 0 /\ column + cell.2 * 16 = 0)
      by (unfold pixel in Hneg; nia).
    destruct cell as [ri ci]. cbn [fst snd] in *.
    assert (ri = 0) by lia. assert (ci = 0) by lia. subst. split; [done | lia].
Qed.

Lemma greyscale_length shade pixelCount :
  Z.of_nat (length (greyscale shade pixelCount)) = 4 * Z.max 0 pixelCount.
Proof. unfold greyscale. rewrite grid_length, !range_length. lia. Qed.

Lemma white_image_in_grid : (1, 2) ∈ image_cells white_image.
Proof.
  unfold image_cells. apply elem_of_cells.
  rewrite iterations_image_rows, iterations_image_columns.
  change (0 <= 1 < Z.of_nat 44 /\ 0 <= 2 < Z.of_nat 25). lia.
Qed.

Lemma subImage_reads_in_bounds_witness :
  (IMAGE_SIZE | width white_image) /\ (IMAGE_SIZE | height white_image)
  /\ 2 * IMAGE_SIZE <= height white_image
  /\ Z.of_nat (length (data white_image)) = 4 * (width white_image * height white_image)
  /\ (1, 2) ∈ image_cells white_image
  /\ 0 <= 3 < IMAGE_SIZE /\ 0 <= 4 < IMAGE_SIZE
  /\ (channel0 white_image (1, 2) 3 4 = None <-> (1, 2) = (0, 0) /\ 3 = 0 /\ 4 = 0).
Proof.
  assert (Hlen : Z.of_nat (length (data white_image))
                 = 4 * (width white_image * height white_image)).
  { unfold white_image, data. rewrite greyscale_length. reflexivity. }
  assert (Hhigh : 2 * IMAGE_SIZE <= height white_image) by discriminate.
  assert (Hrow : 0 <= 3 < IMAGE_SIZE) by (unfold IMAGE_SIZE; lia).
  assert (Hcolumn : 0 <= 4 < IMAGE_SIZE) by (unfold IMAGE_SIZE; lia).
  split; [apply white_image_whole|]. split; [apply white_image_whole|].
  split; [exact Hhigh|]. split; [exact Hlen|]. split; [apply white_image_in_grid|].
  split; [exact Hrow|]. split; [exact Hcolumn|].
  exact (subImage_reads_in_bounds white_image (1, 2) 3 4
           (proj1 white_image_whole) (proj2 white_image_whole) Hhigh Hlen
           white_image_in_grid Hrow Hcolumn).
Defined.

Lemma cell_image_lookup image cell m row column :
  cell_image image cell = Some m ->
  0 <= row < IMAGE_SIZE -> 0 <= column < IMAGE_SIZE ->
  m !! Z.to_nat (row * IMAGE_SIZE + column)
  = Some (if js_gt (channel0 image cell row column) RGB_THRESHOLD then 1 else 0).
Proof.
  intros Himage Hrow Hcolumn. unfold cell_image in Himage. rewrite subImage_spec in Himage.
  destruct (_ <? _)%Z; [done|]. injection Himage as <-.
  by rewrite binarised_lookup.
Qed.

(** X11. The lines of pixels are read [(columns - 1) * 16] positions apart,
    not [columns * 16]: in an image whose height is a multiple of the cell
    size, a cell of the last column of the grid reads, for its pixel line
    [row], the positions the cell of the first column with the same
    [rowsIterator] reads for its line [row + 1] (and for its last line, the
    first line of the next cell of the first column).  The matrices of two
    such accepted cells are the same but for a shift by one line. *)
Theorem subImage_last_column_repeats_first (image : IImageData) (rowsIterator : Z) :
  (IMAGE_SIZE | height image) ->
  let last := height image / IMAGE_SIZE - 1 in
  (forall row column,
      channel0 image (rowsIterator, last) row column
      = channel0 image (rowsIterator, 0) (row + 1) column)
  /\ (forall column,
        channel0 image (rowsIterator, last) (IMAGE_SIZE - 1) column
        = channel0 image (rowsIterator + 1, 0) 0 column)
  /\ (forall mLast mFirst row column,
        cell_image image (rowsIterator, last) = Some mLast ->
        cell_image image (rowsIterator, 0) = Some mFirst ->
        0 <= row < IMAGE_SIZE - 1 -> 0 <= column < IMAGE_SIZE ->
        mLast !! Z.to_nat (row * IMAGE_SIZE + column)
        = mFirst !! Z.to_nat ((row + 1) * IMAGE_SIZE + column)).
Proof.
  intros [c Hc] last.
  assert (Hlast : last * IMAGE_SIZE = height image - IMAGE_SIZE).
  { unfold last. rewrite Hc, Z.div_mul by done. lia. }
  assert (Hshift : forall row column,
             channel0 image (rowsIterator, last) row column
             = channel0 image (rowsIterator, 0) (row + 1) column).
  { intros row column. rewrite !channel0_integer. cbn [fst snd]. rewrite Hlast.
    f_equal. f_equal. lia. }
  split; [exact Hshift|]. split.
  - intros column. rewrite Hshift, !channel0_integer. cbn [fst snd].
    f_equal. f_equal. unfold IMAGE_SIZE. lia.
  - intros mLast mFirst row column HmLast HmFirst Hrow Hcolumn.
    rewrite (cell_image_lookup _ _ _ _ _ HmLast) by lia.
    rewrite (cell_image_lookup _ _ _ _ _ HmFirst) by lia.
    by rewrite Hshift.
Qed.

Lemma white_image_last_cell : cell_image white_image (0, 24) = Some (replicate 256 1).
Proof.
  rewrite (cell_image_greyscale (fun _ => "255"%byte) 281600) by done.
  change (height white_image) with 400.
  assert (H : greyscale_cell_image (fun _ => "255"%byte) 281600 400 (0, 24)
              = Some (replicate 256 1)).
  { vm_compute. reflexivity. }
  exact H.
Qed.

Lemma white_image_origin_cell : cell_image white_image (0, 0) = Some (0 :: replicate 255 1).
Proof.
  rewrite (cell_image_greyscale (fun _ => "255"%byte) 281600) by done.
  change (height white_image) with 400.
  assert (H : greyscale_cell_image (fun _ => "255"%byte) 281600 400 (0, 0)
              = Some (0 :: replicate 255 1)).
  { vm_compute. reflexivity. }
  exact H.
Qed.

(** On the white image: the cell [(0, 24)] and the cell [(0, 0)]. *)
Lemma subImage_last_column_repeats_first_witness :
  (IMAGE_SIZE | height white_image)
  /\ cell_image white_image (0, 400 / IMAGE_SIZE - 1) = Some (replicate 256 1)
  /\ cell_image white_image (0, 0) = Some (0 :: replicate 255 1)
  /\ forall row column,
       0 <= row < IMAGE_SIZE - 1 -> 0 <= column < IMAGE_SIZE ->
       replicate 256 1 !! Z.to_nat (row * IMAGE_SIZE + column)
       = (0 :: replicate 255 1) !! Z.to_nat ((row + 1) * IMAGE_SIZE + column).
Proof.
  split; [apply white_image_whole|]. split; [apply white_image_last_cell|].
  split; [apply white_image_origin_cell|].
  intros row column.
  exact (proj2 (proj2 (subImage_last_column_repeats_first white_image 0
                         (proj2 white_image_whole)))
           (replicate 256 1) (0 :: replicate 255 1) row column
           white_image_last_cell white_image_origin_cell).
Defined.

(** ** getDataSet: the file of a label *)

Lemma string_app_length (s1 s2 : string) :
  String.length (s1 +:+ s2) = (String.length s1 + String.length s2)%nat.
Proof.
  induction s1 as [|c s1 IH]; [done|].
  change (S (String.length (s1 +:+ s2)) = S (String.length s1 + String.length s2)).
  by rewrite IH.
Qed.

Lemma string_app_inj_r (s1 s2 s : string) : (s1 +:+ s = s2 +:+ s)%string -> s1 = s2.
Proof.
  revert s2. induction s1 as [|c1 s1 IH]; intros [|c2 s2] H.
  - done.
  - apply (f_equal String.length) in H.
    change (String.length s = S (String.length (s2 +:+ s))) in H.
    rewrite string_app_length in H. lia.
  - apply (f_equal String.length) in H.
    change (S (String.length (s1 +:+ s)) = String.length s) in H.
    rewrite string_app_length in H. lia.
  - change (String c1 (s1 +:+ s) = String c2 (s2 +:+ s)) in H.
    injection H as -> H. f_equal. by apply IH.
Qed.

Lemma string_app_inj_l (s s1 s2 : string) : (s +:+ s1 = s +:+ s2)%string -> s1 = s2.
Proof.
  induction s as [|c s IH]; [done|]. intros H.
  change (String c (s +:+ s1) = String c (s +:+ s2)) in H.
  injection H as H. by apply IH.
Qed.

Lemma to_int_not_nil (n : Z) : Z.to_int n <> Decimal.Pos Decimal.Nil /\ Z.to_int n <> Decimal.Neg Decimal.Nil.
Proof.
  destruct n as [|p|p]; cbn; split; try discriminate.
  - intros [= H]. by apply Unsigned.to_uint_nonnil in H.
  - intros [= H]. by apply Unsigned.to_uint_nonnil in H.
Qed.

Lemma toString_inj (n1 n2 : Z) : toString n1 = toString n2 -> n1 = n2.
Proof.
  intros H. unfold toString in H.
  apply (f_equal NilZero.int_of_string) in H.
  destruct (to_int_not_nil n1), (to_int_not_nil n2).
  rewrite !NilZero.isi in H by done. injection H as H.
  by apply DecimalZ.to_int_inj.
Qed.

(** X12. For a label within the safe integers, where [toString] gives the
    decimal numeral: the file [getDataSet] reads is [raw_data/usps_], the
    numeral of the label, [.jpg], and the label can be read back from it; the
    file of another such label is another file; and the outcome of a call
    depends on the world only through what that file holds and what the
    decoder makes of it. *)
Theorem getDataSet_file_of_label (label other : Z) :
  Z.abs label <= MAX_SAFE_INTEGER ->
  Z.abs other <= MAX_SAFE_INTEGER ->
  (exists numeral,
      image_path label = ("raw_data/usps_" +:+ numeral +:+ ".jpg")%string
      /\ Z.of_int <$> NilZero.int_of_string numeral = Some label)
  /\ (image_path label = image_path other -> label = other)
  /\ (forall w1 w2 σ,
        readFileSync w1 (image_path label) = readFileSync w2 (image_path label) ->
        (forall jpegData,
            readFileSync w1 (image_path label) = Some jpegData ->
            jpeg_decode w1 jpegData = jpeg_decode w2 jpegData) ->
        getDataSet w1 label σ = getDataSet w2 label σ).
Proof.
  intros _ _. split; [|split].
  - exists (toString label). split; [apply image_path_eq|].
    unfold toString. destruct (to_int_not_nil label).
    rewrite NilZero.isi by done. cbn [fmap option_fmap option_map].
    by rewrite DecimalZ.of_to.
  - intros H. rewrite !image_path_eq in H. apply string_app_inj_l in H.
    by apply toString_inj, (string_app_inj_r _ _ ".jpg").
  - intros w1 w2 σ Hread Hdecode.
    destruct (dataCache σ !! label) as [cached|] eqn:Hcache.
    { by rewrite !(getDataSet_hit _ _ _ _ Hcache). }
    rewrite !(getDataSet_miss _ _ _ Hcache), <- Hread.
    destruct (readFileSync w1 (image_path label)) as [jpegData|]; [|done].
    by rewrite <- (Hdecode jpegData).
Qed.

(** X12 on the labels 3 and 10. *)
Lemma getDataSet_file_of_label_witness :
  Z.abs 3 <= MAX_SAFE_INTEGER
  /\ Z.abs 10 <= MAX_SAFE_INTEGER
  /\ (exists numeral,
         image_path 3 = ("raw_data/usps_" +:+ numeral +:+ ".jpg")%string
         /\ Z.of_int <$> NilZero.int_of_string numeral = Some 3)
  /\ (image_path 3 = image_path 10 -> 3 = 10)
  /\ (forall w1 w2 σ,
        readFileSync w1 (image_path 3) = readFileSync w2 (image_path 3) ->
        (forall jpegData,
            readFileSync w1 (image_path 3) = Some jpegData ->
            jpeg_decode w1 jpegData = jpeg_decode w2 jpegData) ->
        getDataSet w1 3 σ = getDataSet w2 3 σ).
Proof.
  assert (H3 : Z.abs 3 <= MAX_SAFE_INTEGER) by (vm_compute; discriminate).
  assert (H10 : Z.abs 10 <= MAX_SAFE_INTEGER) by (vm_compute; discriminate).
  split; [exact H3|]. split; [exact H10|].
  exact (getDataSet_file_of_label 3 10 H3 H10).
Defined.

(** ** getDataSet: what its runs keep true of the cache *)

Lemma cache_of_builds_initial : cache_of_builds initial_runtime.
Proof.
  split; [done|]. split.
  - intros digit dataSet H. cbn in H. by rewrite lookup_empty in H.
  - intros digit1 digit2 dataSet1 dataSet2 H. cbn in H. by rewrite lookup_empty in H.
Qed.

Lemma cache_of_builds_logged digit σ : cache_of_builds σ -> cache_of_builds (logged digit σ).
Proof.
  intros (Hlen & Hsets & Hdistinct). split; [done|]. split; [|done].
  intros d dataSet Hd. destruct (Hsets d dataSet Hd) as (? & ? & ? & Hlog).
  split_and!; try done. cbn. apply elem_of_app. by left.
Qed.

Lemma cache_of_builds_step w digit σ :
  cache_of_builds σ -> cache_of_builds (outcome_runtime (getDataSet w digit σ)).
Proof.
  intros Hinv.
  destruct (dataCache σ !! digit) as [cached|] eqn:Hcache.
  { by rewrite (getDataSet_hit _ _ _ _ Hcache). }
  rewrite (getDataSet_miss _ _ _ Hcache).
  pose proof (cache_of_builds_logged digit σ Hinv) as Hlogged.
  destruct (readFileSync w (image_path digit)) as [jpegData|]; [|done].
  destruct (jpeg_decode w jpegData) as [|[imageData|]]; try done.
  destruct (Qltb (image_rows imageData * image_columns imageData) (inject_Z DATA_SET_SIZE))
    eqn:Htest.
  { by rewrite buildDataSet_throws. }
  rewrite buildDataSet_returns by done.
  destruct Hinv as (Hlen & Hsets & Hdistinct).
  cbn [outcome_runtime logged arrays dataCache decodeLog].
  split; [|split].
  - cbn [arrays dataCache]. rewrite length_app, map_size_insert_None by done. cbn [length]. lia.
  - intros d dataSet Hd. cbn [arrays dataCache decodeLog] in *.
    rewrite length_app. cbn [length].
    rewrite lookup_insert in Hd. destruct (decide (digit = d)) as [->|Hne].
    + injection Hd as <-. cbn [trainingSet testingSet].
      split_and!; [|done|lia|apply elem_of_app; right; by left].
      rewrite Hlen. exists (size (dataCache σ)). lia.
    + destruct (Hsets d dataSet Hd) as (? & ? & ? & ?).
      split_and!; [done|done|lia|apply elem_of_app; by left].
  - intros d1 d2 dataSet1 dataSet2 Hd1 Hd2 Hne. cbn [arrays dataCache] in *.
    rewrite lookup_insert in Hd1. rewrite lookup_insert in Hd2.
    destruct (decide (digit = d1)) as [He1|Hne1], (decide (digit = d2)) as [He2|Hne2].
    + congruence.
    + injection Hd1 as <-. cbn. destruct (Hsets d2 dataSet2 Hd2) as (? & ? & ? & ?). lia.
    + injection Hd2 as <-. cbn. destruct (Hsets d1 dataSet1 Hd1) as (? & ? & ? & ?). lia.
    + by apply (Hdistinct d1 d2).
Qed.

Lemma cache_of_builds_calls calls σ :
  cache_of_builds σ -> cache_of_builds (getDataSet_calls calls σ).
Proof.
  revert σ. induction calls as [|[w digit] calls IH]; intros σ Hinv; [done|].
  cbn [getDataSet_calls fold_left fst snd]. apply IH. by apply cache_of_builds_step.
Qed.

(** X13. After any sequence of calls of [getDataSet] from the start of the
    process, whatever succeeded or failed: the heap holds exactly two arrays
    for each label of the cache; the data set of a label is made of two
    different arrays of the heap and the label went through the decode path;
    and the data sets of two different labels share no array. *)
Theorem getDataSet_calls_disjoint_data_sets (calls : list (World * Z)) :
  let σ := getDataSet_calls calls initial_runtime in
  length (arrays σ) = (2 * size (dataCache σ))%nat
  /\ (forall digit dataSet,
        dataCache σ !! digit = Some dataSet ->
        trainingSet dataSet <> testingSet dataSet
        /\ (trainingSet dataSet < length (arrays σ))%nat
        /\ (testingSet dataSet < length (arrays σ))%nat
        /\ digit ∈ decodeLog σ)
  /\ (forall digit1 digit2 dataSet1 dataSet2,
        dataCache σ !! digit1 = Some dataSet1 ->
        dataCache σ !! digit2 = Some dataSet2 ->
        digit1 <> digit2 ->
        NoDup [trainingSet dataSet1; testingSet dataSet1;
               trainingSet dataSet2; testingSet dataSet2]).
Proof.
  intros σ.
  destruct (cache_of_builds_calls calls initial_runtime cache_of_builds_initial)
    as (Hlen & Hsets & Hdistinct).
  fold σ in Hlen, Hsets, Hdistinct.
  split; [done|]. split.
  - intros digit dataSet Hd. destruct (Hsets digit dataSet Hd) as (? & ? & ? & ?).
    split_and!; try done; lia.
  - intros d1 d2 dataSet1 dataSet2 Hd1 Hd2 Hne.
    destruct (Hsets d1 dataSet1 Hd1) as ([k1 Hk1] & Ht1 & _ & _).
    destruct (Hsets d2 dataSet2 Hd2) as ([k2 Hk2] & Ht2 & _ & _).
    pose proof (Hdistinct d1 d2 dataSet1 dataSet2 Hd1 Hd2 Hne).
    repeat constructor; rewrite ?elem_of_cons, ?elem_of_nil; lia.
Qed.

(** ** combineDataSets: with and without the shuffle *)

Lemma combineDataSets_loop_refs (dataSets : list IDigitDataSet) :
  forall allTrainingSets allTestingSets σ training testing σ',
    combineDataSets_loop dataSets allTrainingSets allTestingSets σ
    = Returned (training, testing) σ' ->
    (dataSets = [] /\ training = allTrainingSets /\ testing = allTestingSets)
    \/ testing = S training.
Proof.
  induction dataSets as [|ds dataSets IH]; intros tr te σ training testing σ' Hrun.
  { cbn in Hrun. injection Hrun as <- <- <-. by left. }
  right. cbn [combineDataSets_loop] in Hrun. unfold mbind, M_bind, concat in Hrun.
  destruct (new_array_spec (array_at σ tr ++ array_at σ (trainingSet ds)) σ)
    as (σ1 & Hrun1 & (Ha1 & _) & _). rewrite Hrun1 in Hrun.
  destruct (new_array_spec (array_at σ1 te ++ array_at σ1 (testingSet ds)) σ1)
    as (σ2 & Hrun2 & _ & _). rewrite Hrun2 in Hrun.
  destruct (IH _ _ _ _ _ _ Hrun) as [(_ & -> & ->)|Hs]; [|done].
  rewrite Ha1, length_app. cbn. lia.
Qed.

Lemma bind_array_at_same σ σ' (f : IDigitDataSet -> nat) (dataSets : list IDigitDataSet) :
  (forall ref, (ref < length (arrays σ))%nat -> array_at σ' ref = array_at σ ref) ->
  (forall dataSet, dataSet ∈ dataSets -> (f dataSet < length (arrays σ))%nat) ->
  (dataSet ← dataSets; array_at σ' (f dataSet)) = (dataSet ← dataSets; array_at σ (f dataSet)).
Proof.
  intros Hold. induction dataSets as [|ds dataSets IH]; intros Hin; [done|].
  cbn [mbind list_bind]. rewrite Hold by (apply Hin; left).
  f_equal. apply IH. intros ds' Hds'. apply Hin. by right.
Qed.

(** The shuffle of one array, in place. *)
Lemma shuffle_spec w ref σ :
  (ref < length (arrays σ))%nat ->
  exists σ',
    shuffle w ref σ = Returned ref σ'
    /\ array_at σ' ref = knuthShuffle w (shuffles σ) (array_at σ ref)
    /\ (forall other, other <> ref -> array_at σ' other = array_at σ other)
    /\ length (arrays σ') = length (arrays σ)
    /\ dataCache σ' = dataCache σ
    /\ decodeLog σ' = decodeLog σ
    /\ shuffles σ' = S (shuffles σ).
Proof.
  intros Href. eexists. split; [reflexivity|]. unfold array_at at 1. cbn [arrays].
  rewrite list_lookup_insert_eq by done. split; [done|]. split.
  - intros other Hother. unfold array_at. cbn [arrays].
    by rewrite list_lookup_insert_ne.
  - cbn. by rewrite length_insert.
Qed.

(** What [combineDataSets] does, shuffling or not. *)
Lemma combineDataSets_general (w : World) (dataSets : list IDigitDataSet)
    (randomise : bool) (σ : Runtime) :
  (forall dataSet, dataSet ∈ dataSets ->
                   (trainingSet dataSet < length (arrays σ))%nat
                   /\ (testingSet dataSet < length (arrays σ))%nat) ->
  exists result σ',
    combineDataSets w dataSets randomise σ = Returned result σ'
    /\ array_at σ' (trainingSet result)
       = (if randomise
          then knuthShuffle w (shuffles σ)
                 (dataSet ← dataSets; array_at σ (trainingSet dataSet))
          else dataSet ← dataSets; array_at σ (trainingSet dataSet))
    /\ array_at σ' (testingSet result)
       = (if randomise
          then knuthShuffle w (S (shuffles σ))
                 (dataSet ← dataSets; array_at σ (testingSet dataSet))
          else dataSet ← dataSets; array_at σ (testingSet dataSet))
    /\ (length (arrays σ) <= trainingSet result < length (arrays σ'))%nat
    /\ (length (arrays σ) <= testingSet result < length (arrays σ'))%nat
    /\ trainingSet result <> testingSet result
    /\ (forall ref, (ref < length (arrays σ))%nat -> array_at σ' ref = array_at σ ref)
    /\ dataCache σ' = dataCache σ
    /\ decodeLog σ' = decodeLog σ.
Proof.
  intros Hin. unfold combineDataSets, mbind, M_bind.
  destruct (new_array_spec [] σ) as (σ1 & -> & Hg1 & Hat1).
  destruct (new_array_spec [] σ1) as (σ2 & -> & Hg2 & Hat2).
  pose proof (grows_trans _ _ _ _ _ Hg1 Hg2) as Hg12.
  pose proof Hg1 as [Ha1 _]. pose proof Hg12 as [Ha12 _].
  assert (Hlen1 : length (arrays σ1) = S (length (arrays σ))).
  { rewrite Ha1, length_app. cbn. lia. }
  assert (Hlen2 : length (arrays σ2) = S (S (length (arrays σ)))).
  { rewrite Ha12, length_app. cbn. lia. }
  destruct (combineDataSets_loop_spec dataSets (length (arrays σ)) (length (arrays σ1)) σ2)
    as (training & testing & new & σl & Hrun & Hg & Htr' & Hte' & Hfresh & Hctr & Hcte).
  { lia. } { lia. }
  { intros ds Hds. destruct (Hin ds Hds). lia. }
  rewrite Hrun.
  pose proof (grows_trans _ _ _ _ _ Hg12 Hg) as Hgall.
  assert (Hdistinct : training <> testing).
  { destruct (combineDataSets_loop_refs _ _ _ _ _ _ _ Hrun) as [(_ & -> & ->)|]; lia. }
  assert (Hge : (length (arrays σ) <= training)%nat /\ (length (arrays σ) <= testing)%nat).
  { destruct dataSets as [|ds dataSets].
    - cbn in Hrun. injection Hrun as <- <- <-. lia.
    - destruct Hfresh; [done|]. lia. }
  assert (Htraining : array_at σl training
                      = (dataSet ← dataSets; array_at σ (trainingSet dataSet))).
  { rewrite Hctr, (grows_array_at _ _ _ _ Hg2), Hat1 by lia.
    apply (bind_array_at_old _ _ _ trainingSet _ Hg12).
    intros ds Hds. by destruct (Hin ds Hds). }
  assert (Htesting : array_at σl testing
                     = (dataSet ← dataSets; array_at σ (testingSet dataSet))).
  { rewrite Hcte, Hat2.
    apply (bind_array_at_old _ _ _ testingSet _ Hg12).
    intros ds Hds. by destruct (Hin ds Hds). }
  destruct Hgall as (Ha & Hc & Hl & Hs).
  assert (Hold : forall ref, (ref < length (arrays σ))%nat -> array_at σl ref = array_at σ ref).
  { intros ref Href. by apply (array_at_old σ σl ref _ Ha). }
  destruct randomise.
  - destruct (shuffle_spec w training σl Htr')
      as (σs1 & -> & Hs1 & Hother1 & Hlen_s1 & Hc1 & Hl1 & Hn1).
    assert (Hte1 : (testing < length (arrays σs1))%nat) by lia.
    destruct (shuffle_spec w testing σs1 Hte1)
      as (σs2 & -> & Hs2 & Hother2 & Hlen_s2 & Hc2 & Hl2 & Hn2).
    cbn [mret M_ret]. exists {| trainingSet := training; testingSet := testing |}, σs2.
    cbn [trainingSet testingSet]. split; [done|].
    rewrite (Hother2 training) by done.
    rewrite Hs1, Hs2, (Hother1 testing) by done.
    rewrite Htraining, Htesting, Hn1, Hs.
    split_and!; try done; try lia; try congruence.
    intros ref Href. rewrite Hother2, Hother1 by lia. by apply Hold.
  - cbn [mret M_ret]. exists {| trainingSet := training; testingSet := testing |}, σl.
    cbn [trainingSet testingSet]. split_and!; try done; lia.
Qed.

(** X14. With randomisation and a shuffler that permutes, the training set
    of the result is a permutation of the training sets of the inputs put
    end to end, and the testing set likewise, each shuffled by a call of its
    own.  The shuffle is in place but only ever in the two new arrays: the
    arrays of the inputs, every other array and the cache are as before. *)
Theorem combineDataSets_randomised (w : World) (dataSets : list IDigitDataSet)
    (σ : Runtime) :
  (forall n l, knuthShuffle w n l ≡ₚ l) ->
  (forall dataSet, dataSet ∈ dataSets ->
                   (trainingSet dataSet < length (arrays σ))%nat
                   /\ (testingSet dataSet < length (arrays σ))%nat) ->
  exists result σ',
    combineDataSets w dataSets true σ = Returned result σ'
    /\ array_at σ' (trainingSet result)
       = knuthShuffle w (shuffles σ) (dataSet ← dataSets; array_at σ (trainingSet dataSet))
    /\ array_at σ' (testingSet result)
       = knuthShuffle w (S (shuffles σ))
           (dataSet ← dataSets; array_at σ (testingSet dataSet))
    /\ array_at σ' (trainingSet result)
       ≡ₚ (dataSet ← dataSets; array_at σ (trainingSet dataSet))
    /\ array_at σ' (testingSet result)
       ≡ₚ (dataSet ← dataSets; array_at σ (testingSet dataSet))
    /\ (length (arrays σ) <= trainingSet result)%nat
    /\ (length (arrays σ) <= testingSet result)%nat
    /\ trainingSet result <> testingSet result
    /\ (forall ref, (ref < length (arrays σ))%nat -> array_at σ' ref = array_at σ ref)
    /\ dataCache σ' = dataCache σ.
Proof.
  intros Hperm Hin.
  destruct (combineDataSets_general w dataSets true σ Hin)
    as (result & σ' & Hrun & Htr & Hte & Hftr & Hfte & Hne & Hold & Hcache & _).
  exists result, σ'. split_and!; try done; try lia.
  - rewrite Htr. apply Hperm.
  - rewrite Hte. apply Hperm.
Qed.

Lemma two_data_sets_in_heap (σ : Runtime) :
  length (arrays σ) = 4%nat ->
  forall dataSet,
    dataSet ∈ [{| trainingSet := 0; testingSet := 1 |}; {| trainingSet := 2; testingSet := 3 |}] ->
    (trainingSet dataSet < length (arrays σ))%nat
    /\ (testingSet dataSet < length (arrays σ))%nat.
Proof.
  intros Hlen dataSet Hds. rewrite Hlen.
  apply elem_of_cons in Hds as [->|Hds]; [cbn; lia|].
  apply list_elem_of_singleton in Hds as ->. cbn. lia.
Qed.

Lemma world_reversing_permutes n (l : list IDigitMatrix) : knuthShuffle world_reversing n l ≡ₚ l.
Proof. apply reverse_Permutation. Qed.

(** With a shuffler that reverses, on two small data sets. *)
Lemma combineDataSets_randomised_witness :
  let dataSets :=
    [{| trainingSet := 0; testingSet := 1 |}; {| trainingSet := 2; testingSet := 3 |}] in
  (forall n l, knuthShuffle world_reversing n l ≡ₚ l)
  /\ (forall dataSet, dataSet ∈ dataSets ->
                      (trainingSet dataSet < length (arrays two_data_sets_runtime))%nat
                      /\ (testingSet dataSet < length (arrays two_data_sets_runtime))%nat)
  /\ exists result σ',
       combineDataSets world_reversing dataSets true two_data_sets_runtime
       = Returned result σ'
       /\ array_at σ' (trainingSet result)
          = [{| digit := 2; matrix := [0; 0] |}; {| digit := 1; matrix := [1; 0] |}]
       /\ array_at σ' (testingSet result)
          = [{| digit := 1; matrix := [1; 1] |}; {| digit := 1; matrix := [0; 1] |}]
       /\ (forall ref, (ref < length (arrays two_data_sets_runtime))%nat ->
                       array_at σ' ref = array_at two_data_sets_runtime ref)
       /\ dataCache σ' = dataCache two_data_sets_runtime.
Proof.
  intros dataSets.
  split; [exact world_reversing_permutes|].
  split; [exact (two_data_sets_in_heap two_data_sets_runtime eq_refl)|].
  destruct (combineDataSets_randomised world_reversing dataSets two_data_sets_runtime
              world_reversing_permutes (two_data_sets_in_heap two_data_sets_runtime eq_refl))
    as (result & σ' & Hrun & Htr & Hte & _ & _ & _ & _ & _ & Hold & Hcache).
  exists result, σ'. split; [exact Hrun|]. split; [exact Htr|]. split; [exact Hte|].
  split; [exact Hold | exact Hcache].
Defined.

(** X15. Combining in two steps is combining at once: the result of a first
    [combineDataSets] (without randomisation), combined with further data
    sets, holds the same samples in the same order as the combination of all
    the data sets in one call. *)
Theorem combineDataSets_flattens (w : World) (first others : list IDigitDataSet)
    (σ : Runtime) :
  (forall dataSet, dataSet ∈ first ++ others ->
                   (trainingSet dataSet < length (arrays σ))%nat
                   /\ (testingSet dataSet < length (arrays σ))%nat) ->
  exists partial σ1 twoSteps σ2 atOnce σ3,
    combineDataSets w first false σ = Returned partial σ1
    /\ combineDataSets w (partial :: others) false σ1 = Returned twoSteps σ2
    /\ combineDataSets w (first ++ others) false σ = Returned atOnce σ3
    /\ array_at σ2 (trainingSet twoSteps) = array_at σ3 (trainingSet atOnce)
    /\ array_at σ2 (testingSet twoSteps) = array_at σ3 (testingSet atOnce)
    /\ array_at σ2 (trainingSet twoSteps)
       = (dataSet ← first ++ others; array_at σ (trainingSet dataSet))
    /\ array_at σ2 (testingSet twoSteps)
       = (dataSet ← first ++ others; array_at σ (testingSet dataSet)).
Proof.
  intros Hin.
  assert (Hfirst : forall dataSet, dataSet ∈ first ->
                     (trainingSet dataSet < length (arrays σ))%nat
                     /\ (testingSet dataSet < length (arrays σ))%nat).
  { intros ds Hds. apply Hin, elem_of_app. by left. }
  assert (Hothers : forall dataSet, dataSet ∈ others ->
                      (trainingSet dataSet < length (arrays σ))%nat
                      /\ (testingSet dataSet < length (arrays σ))%nat).
  { intros ds Hds. apply Hin, elem_of_app. by right. }
  destruct (combineDataSets_general w first false σ Hfirst)
    as (partial & σ1 & Hrun1 & Htr1 & Hte1 & Hftr1 & Hfte1 & _ & Hold1 & _ & _).
  assert (Hin1 : forall dataSet, dataSet ∈ partial :: others ->
                   (trainingSet dataSet < length (arrays σ1))%nat
                   /\ (testingSet dataSet < length (arrays σ1))%nat).
  { intros ds Hds. apply elem_of_cons in Hds as [->|Hds]; [lia|].
    destruct (Hothers ds Hds). lia. }
  destruct (combineDataSets_general w (partial :: others) false σ1 Hin1)
    as (twoSteps & σ2 & Hrun2 & Htr2 & Hte2 & _).
  destruct (combineDataSets_general w (first ++ others) false σ Hin)
    as (atOnce & σ3 & Hrun3 & Htr3 & Hte3 & _).
  exists partial, σ1, twoSteps, σ2, atOnce, σ3.
  assert (Htr : array_at σ2 (trainingSet twoSteps)
                = (dataSet ← first ++ others; array_at σ (trainingSet dataSet))).
  { rewrite Htr2. cbn [mbind list_bind]. rewrite Htr1.
    rewrite (bind_array_at_same σ σ1 trainingSet others Hold1)
      by (intros ds Hds; by destruct (Hothers ds Hds)).
    by rewrite bind_app. }
  assert (Hte : array_at σ2 (testingSet twoSteps)
                = (dataSet ← first ++ others; array_at σ (testingSet dataSet))).
  { rewrite Hte2. cbn [mbind list_bind]. rewrite Hte1.
    rewrite (bind_array_at_same σ σ1 testingSet others Hold1)
      by (intros ds Hds; by destruct (Hothers ds Hds)).
    by rewrite bind_app. }
  split_and!; try done; congruence.
Qed.

Lemma combineDataSets_flattens_witness :
  (forall dataSet,
      dataSet ∈ [{| trainingSet := 0; testingSet := 1 |}]
               ++ [{| trainingSet := 2; testingSet := 3 |}] ->
      (trainingSet dataSet < length (arrays two_data_sets_runtime))%nat
      /\ (testingSet dataSet < length (arrays two_data_sets_runtime))%nat)
  /\ exists partial σ1 twoSteps σ2 atOnce σ3,
       combineDataSets world_without_files [{| trainingSet := 0; testingSet := 1 |}] false
         two_data_sets_runtime = Returned partial σ1
       /\ combineDataSets world_without_files
            (partial :: [{| trainingSet := 2; testingSet := 3 |}]) false σ1
          = Returned twoSteps σ2
       /\ combineDataSets world_without_files
            ([{| trainingSet := 0; testingSet := 1 |}]
             ++ [{| trainingSet := 2; testingSet := 3 |}]) false two_data_sets_runtime
          = Returned atOnce σ3
       /\ array_at σ2 (trainingSet twoSteps) = array_at σ3 (trainingSet atOnce)
       /\ array_at σ2 (testingSet twoSteps) = array_at σ3 (testingSet atOnce).
Proof.
  split; [exact (two_data_sets_in_heap two_data_sets_runtime eq_refl)|].
  destruct (combineDataSets_flattens world_without_files
              [{| trainingSet := 0; testingSet := 1 |}]
              [{| trainingSet := 2; testingSet := 3 |}] two_data_sets_runtime
              (two_data_sets_in_heap two_data_sets_runtime eq_refl))
    as (partial & σ1 & twoSteps & σ2 & atOnce & σ3 & H1 & H2 & H3 & Htr & Hte & _).
  exists partial, σ1, twoSteps, σ2, atOnce, σ3.
  split; [exact H1|]. split; [exact H2|]. split; [exact H3|]. split; [exact Htr | exact Hte].
Defined.

(** X16. [combineDataSets], randomised or not, never disturbs what
    [getDataSet] serves: a label that is in the cache is still served from
    the cache after the call, from the same two arrays, and they hold what
    they held. *)
Theorem combineDataSets_leaves_cached_data_sets (w : World) (dataSets : list IDigitDataSet)
    (randomise : bool) (label : Z) (cached : IDigitDataSet) (σ : Runtime) :
  cache_in_heap σ ->
  dataCache σ !! label = Some cached ->
  (forall dataSet, dataSet ∈ dataSets ->
                   (trainingSet dataSet < length (arrays σ))%nat
                   /\ (testingSet dataSet < length (arrays σ))%nat) ->
  exists result σ',
    combineDataSets w dataSets randomise σ = Returned result σ'
    /\ (forall w', getDataSet w' label σ' = Returned cached σ')
    /\ array_at σ' (trainingSet cached) = array_at σ (trainingSet cached)
    /\ array_at σ' (testingSet cached) = array_at σ (testingSet cached)
    /\ trainingSet result <> trainingSet cached
    /\ trainingSet result <> testingSet cached
    /\ testingSet result <> trainingSet cached
    /\ testingSet result <> testingSet cached
    /\ cache_in_heap σ'.
Proof.
  intros Hwf Hcached Hin.
  destruct (combineDataSets_general w dataSets randomise σ Hin)
    as (result & σ' & Hrun & _ & _ & Hftr & Hfte & _ & Hold & Hcache & _).
  destruct (Hwf label cached Hcached) as [Htr Hte].
  exists result, σ'. split; [done|]. split.
  { intros w'. apply getDataSet_hit. by rewrite Hcache. }
  split; [by apply Hold|]. split; [by apply Hold|].
  split_and!; try lia.
  intros d ds Hd. rewrite Hcache in Hd. destruct (Hwf d ds Hd). lia.
Qed.

Lemma cached_runtime_in_heap : cache_in_heap cached_runtime.
Proof.
  intros d ds Hd. cbn in Hd. apply lookup_singleton_Some in Hd as [_ <-]. cbn. lia.
Qed.

(** With the reversing shuffler, on a runtime whose cache holds the label 1. *)
Lemma combineDataSets_leaves_cached_data_sets_witness :
  let dataSets :=
    [{| trainingSet := 0; testingSet := 1 |}; {| trainingSet := 2; testingSet := 3 |}] in
  cache_in_heap cached_runtime
  /\ dataCache cached_runtime !! 1 = Some {| trainingSet := 0; testingSet := 1 |}
  /\ (forall dataSet, dataSet ∈ dataSets ->
                      (trainingSet dataSet < length (arrays cached_runtime))%nat
                      /\ (testingSet dataSet < length (arrays cached_runtime))%nat)
  /\ exists result σ',
       combineDataSets world_reversing dataSets true cached_runtime = Returned result σ'
       /\ (forall w', getDataSet w' 1 σ'
                      = Returned {| trainingSet := 0; testingSet := 1 |} σ')
       /\ array_at σ' 0 = array_at cached_runtime 0
       /\ array_at σ' 1 = array_at cached_runtime 1.
Proof.
  intros dataSets.
  assert (Hcached : dataCache cached_runtime !! 1
                    = Some {| trainingSet := 0; testingSet := 1 |})
    by apply lookup_singleton_eq.
  split; [exact cached_runtime_in_heap|]. split; [exact Hcached|].
  split; [exact (two_data_sets_in_heap cached_runtime eq_refl)|].
  destruct (combineDataSets_leaves_cached_data_sets world_reversing dataSets true 1 _
              cached_runtime cached_runtime_in_heap Hcached
              (two_data_sets_in_heap cached_runtime eq_refl))
    as (result & σ' & Hrun & Hget & Htr & Hte & _).
  exists result, σ'. split; [exact Hrun|]. split; [exact Hget|].
  split; [exact Htr | exact Hte].
Defined.
